(** * JTC COD: the code-agent pipeline and its undo companion

    A shallow embedding of the two edge functions of the repository:

    - [CodeAgent]: the [serve] handler of the code agent (intent gate,
      relevance selection, context loading, change generation, safety check,
      per-file commit loop, response assembly);
    - [Backend]: the generation backend adapter [callAi] with its fallback
      [callLovableAi];
    - [UserAgent]: the [serve] handler of the code agent that asks the
      backend of the user, through [callAi];
    - [Undo]: the [serve] handler of [undo-commit];
    - [Client]: the part of the chat client that persists a commit record.

    Every [await fetch(...)] is a step of an arbitrary deterministic
    environment ([respond]) and leaves an event in the trace of the run, so
    that statements such as: no write call is issued, are statements about
    traces.  Platform built-ins the handlers call ([atob], [JSON.parse],
    [encodeURIComponent], ...) are fields of the [Platform] class.

    Strings are byte strings holding UTF-8, as literals of this file are.
    Where the handlers depend on the length of a JavaScript string the model
    counts UTF-16 code units ([Js.length]).

    What the model takes for granted:
    - a [fetch] always resolves to a response, and the body of a response is
      a JSON object; the payloads are typed after the fields the handlers
      read, and an absent field is [None];
    - the text of the generator, once [JSON.parse] accepts it, has the shape
      the handler asks for: a list of paths, or a change set whose fields are
      strings or absent.  JSON of another shape (a path that is an array, a
      selection that is an object) is outside the model, and so is what the
      handlers do with it;
    - the requests of the loads that run under [Promise.all] are answered
      in the order in which they are issued; the order in which the answers
      arrive is up to the world;
    - the calls to [console] leave no trace;
    - the row of the profile of a user is an input of the run, and the query
      that reads it leaves no trace. *)

From Stdlib Require Import String Ascii List ZArith Bool Lia DecimalString QArith.
From Stdlib Require Import Permutation.
Import ListNotations.
Local Open Scope string_scope.
Local Open Scope list_scope.
Local Open Scope Z_scope.

(** String concatenation, as [+] and template literals of the source. *)
Infix "+++" := String.append (right associativity, at level 60).

Set Implicit Arguments.

(** ** JavaScript values and string built-ins *)

Module Js.

(** The character with the given code. *)
Definition chr (n : nat) : string := String (ascii_of_nat n) EmptyString.
Definition bytes (l : list nat) : string :=
  string_of_list_ascii (map ascii_of_nat l).

Definition nl : string := chr 10.
Definition dquote : string := chr 34.
Definition backtick : string := chr 96.

(** [!!x] for a value that is a string or undefined/null: the empty string
    is falsy. *)
Definition truthy (o : option string) : bool :=
  match o with
  | Some s => negb (s =? "")%string
  | None => false
  end.

(** [x || d] at a string. *)
Definition or_else (o : option string) (d : string) : string :=
  match o with
  | Some s => if (s =? "")%string then d else s
  | None => d
  end.

(** [x || null]. *)
Definition or_null (o : option string) : option string :=
  if truthy o then o else None.

(** [s.length]: the number of UTF-16 code units of the text whose UTF-8
    encoding is [s].  A continuation byte adds nothing and the lead byte of
    a four byte sequence stands for a surrogate pair. *)
Definition units (c : ascii) : Z :=
  let n := Z.of_nat (nat_of_ascii c) in
  if n <? 128 then 1
  else if n <? 192 then 0
  else if n <? 240 then 1
  else 2.

Fixpoint length (s : string) : Z :=
  match s with
  | EmptyString => 0
  | String c s' => units c + length s'
  end.

(** The WhiteSpace and LineTerminator characters of ECMAScript, in UTF-8:
    TAB, LF, VT, FF, CR, SP, U+00A0, U+1680, U+2000..U+200A, U+2028,
    U+2029, U+202F, U+205F, U+3000, U+FEFF. *)
Definition white_space : list string :=
  map bytes
    [ [9]; [10]; [11]; [12]; [13]; [32]; [194; 160]; [225; 154; 128];
      [226; 128; 128]; [226; 128; 129]; [226; 128; 130]; [226; 128; 131];
      [226; 128; 132]; [226; 128; 133]; [226; 128; 134]; [226; 128; 135];
      [226; 128; 136]; [226; 128; 137]; [226; 128; 138]; [226; 128; 168];
      [226; 128; 169]; [226; 128; 175]; [226; 129; 159]; [227; 128; 128];
      [239; 187; 191] ]%nat.

Definition rev (s : string) : string :=
  string_of_list_ascii (List.rev (list_ascii_of_string s)).

Definition drop (n : nat) (s : string) : string :=
  substring n (String.length s - n) s.

(** The rest of [s] after one leading character of [table], if any. *)
Fixpoint drop_one (table : list string) (s : string) : option string :=
  match table with
  | [] => None
  | t :: table' =>
      if prefix t s then Some (drop (String.length t) s)
      else drop_one table' s
  end.

Fixpoint drop_while (fuel : nat) (table : list string) (s : string) : string :=
  match fuel with
  | O => s
  | S fuel' =>
      match drop_one table s with
      | Some s' => drop_while fuel' table s'
      | None => s
      end
  end.

Definition trimStart (s : string) : string :=
  drop_while (String.length s) white_space s.

Definition trimEnd (s : string) : string :=
  rev (drop_while (String.length s) (map rev white_space) (rev s)).

(** [s.trim()]. *)
Definition trim (s : string) : string := trimEnd (trimStart s).

(** [x === s] for a value that is a string or undefined. *)
Definition same (o : option string) (s : string) : bool :=
  match o with
  | Some x => (x =? s)%string
  | None => false
  end.

(** [s.toLowerCase()] on the letters A..Z.  No character outside ASCII
    lower-cases to one of the letters of the intent token, so the comparison
    of the lower-cased intent with that token is exact. *)
Definition lower (c : ascii) : ascii :=
  let n := nat_of_ascii c in
  if ((65 <=? n) && (n <=? 90))%nat then ascii_of_nat (n + 32) else c.

Fixpoint toLowerCase (s : string) : string :=
  match s with
  | EmptyString => EmptyString
  | String c s' => String (lower c) (toLowerCase s')
  end.

Definition startsWith (s p : string) : bool := prefix p s.

Definition endsWith (s p : string) : bool := prefix (rev p) (rev s).

(** [s.includes(p)] at strings. *)
Fixpoint includes (s p : string) : bool :=
  prefix p s ||
  match s with
  | EmptyString => false
  | String _ s' => includes s' p
  end.

(** [l.includes(x)] at an array of strings. *)
Definition mem (x : string) (l : list string) : bool :=
  existsb (String.eqb x) l.

(** [s.replace(/p\n?/g, "")] for a literal [p] that is not empty: one scan
    from the left; a match and the newline after it, if any, are dropped
    and the scan resumes behind them.  [skip] counts characters of the
    current match still to drop. *)
Fixpoint remove_all_nl (p : string) (skip : nat) (s : string) : string :=
  match s with
  | EmptyString => EmptyString
  | String c s' =>
      match skip with
      | S k => remove_all_nl p k s'
      | O =>
          if prefix p s then
            let after := drop (String.length p) s in
            let extra := if prefix nl after then 1%nat else 0%nat in
            remove_all_nl p (String.length p - 1 + extra) s'
          else String c (remove_all_nl p 0 s')
      end
  end.

(** [s.replace(/\n/g, "")]. *)
Fixpoint remove_newlines (s : string) : string :=
  match s with
  | EmptyString => EmptyString
  | String c s' =>
      if Ascii.eqb c (ascii_of_nat 10) then remove_newlines s'
      else String c (remove_newlines s')
  end.

(** [l.join(sep)]. *)
Definition join (sep : string) (l : list string) : string := String.concat sep l.

(** [s.slice(0, 7)] on a marker of ASCII characters. *)
Definition slice7 (s : string) : string := substring 0 7 s.

(** A number inside a template literal. *)
Definition of_Z (z : Z) : string := NilZero.string_of_int (Z.to_int z).

End Js.

(** ** The network, the platform and the monad of a handler *)

Module Http.

Inductive Method := GET | POST | PUT | DELETE.

(** The text of a chat message.  The fixed instruction texts of the handlers
    are not spelled out: one constructor stands for each template, with the
    values the handler splices into it. *)
Inductive Prompt :=
| Text (s : string)
| IntentRules
| ChatPersona (repo_owner repo_name : string)
| SelectionAsk (allFiles : list string) (message : string)
| EditRules (repo_owner repo_name branch projectType : string)
    (allFiles : list string) (fileContext : string)
    (criticalFiles : list string).

Record ChatMessage := Msg { role : string; content : Prompt }.

Inductive Body :=
| NoBody
| PutBody (message content : string) (branch sha : option string)
| DeleteBody (message : string) (sha : option string)
| ChatBody (model : string) (messages : list ChatMessage)
    (temperature : Q) (max_tokens : option Z).

Record Request :=
  { method : Method; url : string; bearer : string; body : Body }.

Record TreeEntry := { entry_path : string; entry_type : string }.
Record ChangedFile := { filename : string; file_status : string }.

(** What [res.json()] yields, by the fields the handlers read. *)
Record Data :=
  { default_branch : option string;          (* data.default_branch *)
    tree : option (list TreeEntry);          (* tree.tree *)
    encoding : option string;                (* data.encoding *)
    data_content : option string;            (* data.content *)
    data_sha : option string;                (* data.sha *)
    data_path : option string;               (* data.path *)
    commit_sha : option string;              (* result.commit?.sha *)
    parent_sha : option string;              (* commitData.parents?.[0]?.sha *)
    files : option (list ChangedFile);       (* commitData.files *)
    completion : option string }.            (* choices?.[0]?.message?.content *)

Definition no_data : Data :=
  {| default_branch := None; tree := None; encoding := None;
     data_content := None; data_sha := None; data_path := None;
     commit_sha := None; parent_sha := None; files := None;
     completion := None |}.

Record Response := { status : Z; data : Data }.

(** [res.ok]. *)
Definition ok (res : Response) : bool :=
  (200 <=? status res) && (status res <=? 299).

(** What a run leaves behind: the calls it made with their answers, and the
    delays it waited for. *)
Inductive Event :=
| Call (req : Request) (res : Response)
| Wait (ms : Z).

Definition is_write (e : Event) : bool :=
  match e with
  | Call req _ =>
      match method req with
      | PUT | DELETE => true
      | _ => false
      end
  | Wait _ => false
  end.

Definition writes (t : list Event) : list Event := filter is_write t.

(** What a handler throws: an [Error] with its message, or the plain object
    [{ status, message }] of the backend adapter. *)
Inductive Exn :=
| Error (message : string)
| Thrown (status : Z) (message : string).

Inductive Outcome (A : Type) :=
| Value (a : A)
| Throw (e : Exn).
Arguments Value {A} a.
Arguments Throw {A} e.

(** The handler's answer to its caller. *)
Inductive ReplyBody :=
| NoContent
| Answer (response : string) (files_changed : list string)
    (commit_sha commit_message : option string)
| Failure (error : string)
| Reverted (files_reverted : list string).

Record Reply := { reply_status : Z; reply_body : ReplyBody }.

Definition json (b : ReplyBody) : Reply :=
  {| reply_status := 200; reply_body := b |}.

End Http.
Import Http.

(** One piece of generated change set, and the change set, as the generator
    is told to return them.  A field the model left out is [None]. *)
Record Change := { path : option string; content : option string }.

Record ChangeSet :=
  { explanation : option string;
    changes : option (list Change);
    commit_message : option string }.

(** The environment and the built-ins of the runtime. *)
Class Platform :=
  { World : Type;
    (** [fetch]: the answer to a request and the next state of the world. *)
    respond : Request -> World -> Response * World;
    (** When the answer to a request issued in this state arrives: the
        order in which the answers to requests in flight together are
        handled. *)
    arrival : Request -> World -> nat;
    (** [atob]; it throws on text that is not base64. *)
    atob : string -> Outcome string;
    (** [decodeURIComponent(escape(raw))]; [None] when it throws. *)
    decode_utf8 : string -> option string;
    (** [btoa(unescape(encodeURIComponent(s)))]. *)
    btoa_utf8 : string -> string;
    encodeURIComponent : string -> string;
    (** [JSON.parse] at the list of paths and at the change set; [None] when
        it throws. *)
    parse_paths : string -> option (list string);
    parse_change_set : string -> option ChangeSet;
    (** [Deno.env.get("LOVABLE_API_KEY")]. *)
    LOVABLE_API_KEY : option string }.

Section Monad.
Context `{Platform}.

Definition M (A : Type) : Type := World -> Outcome A * World * list Event.

Definition ret {A} (a : A) : M A := fun w => (Value a, w, []).

Definition bind {A B} (m : M A) (k : A -> M B) : M B :=
  fun w =>
    match m w with
    | (Value a, w1, t1) =>
        match k a w1 with
        | (r, w2, t2) => (r, w2, t1 ++ t2)
        end
    | (Throw e, w1, t1) => (Throw e, w1, t1)
    end.

Definition throw {A} (e : Exn) : M A := fun w => (Throw e, w, []).

(** [try { m } catch (e) { h e }]. *)
Definition try_catch {A} (m : M A) (h : Exn -> M A) : M A :=
  fun w =>
    match m w with
    | (Value a, w1, t1) => (Value a, w1, t1)
    | (Throw e, w1, t1) =>
        match h e w1 with
        | (r, w2, t2) => (r, w2, t1 ++ t2)
        end
    end.

(** A built-in that may throw. *)
Definition lift {A} (o : Outcome A) : M A := fun w => (o, w, []).

(** [await fetch(...)]. *)
Definition fetch (req : Request) : M Response :=
  fun w =>
    match respond req w with
    | (res, w1) => (Value res, w1, [Call req res])
    end.

(** A promise that was started and not awaited yet: what was started has
    run, and how it ended is a value. *)
Definition settled {A} (m : M A) : M (Outcome A) :=
  fun w =>
    match m w with
    | (r, w1, t1) => (Value r, w1, t1)
    end.

(** When the answer to a request that is issued now arrives. *)
Definition arrives (req : Request) : M nat :=
  fun w => (Value (arrival req w), w, []).

(** [await new Promise(r => setTimeout(r, ms))]. *)
Definition sleep (ms : Z) : M unit := fun w => (Value tt, w, [Wait ms]).

(** [data.content.replace(/\n/g, "")], in both handlers: a TypeError when the
    field is absent. *)
Definition content_without_newlines (d : Data) : M string :=
  match data_content d with
  | Some c => ret (Js.remove_newlines c)
  | None =>
      throw (Error "Cannot read properties of undefined (reading 'replace')")
  end.

Definition outcome {A} (r : Outcome A * World * list Event) : Outcome A :=
  fst (fst r).
Definition trace {A} (r : Outcome A * World * list Event) : list Event :=
  snd r.
Definition world_after {A} (r : Outcome A * World * list Event) : World :=
  snd (fst r).

End Monad.

Notation "x <- m ;; k" := (bind m (fun x => k))
  (at level 61, m at next level, right associativity).
Notation "m ;; k" := (bind m (fun _ => k))
  (at level 61, right associativity).

(** ** The code agent *)

Module CodeAgent.
Section CodeAgent.
Context `{Platform}.

(** The body of the request: [{ message, repo_owner, repo_name,
    github_token, history }]. *)
Record Input :=
  { message : string;
    repo_owner : string;
    repo_name : string;
    github_token : string;
    history : option (list ChatMessage) }.

Record HttpRequest := { http_method : string; http_json : Input }.

(** What [getFileContent] returns when it does not return null. *)
Record File :=
  { file_content : string;
    file_sha : option string;
    file_path : option string }.

Definition github : string := "https://api.github.com/repos/".
Definition gateway : string :=
  "https://ai.gateway.lovable.dev/v1/chat/completions".

Definition contents_url (owner name segment : string) : string :=
  github +++ owner +++ "/" +++ name +++ "/contents/" +++ segment.

Definition get (u token : string) : Request :=
  {| method := GET; url := u; bearer := token; body := NoBody |}.

Definition getDefaultBranch (owner name token : string) : M string :=
  res <- fetch (get (github +++ owner +++ "/" +++ name) token) ;;
  if negb (ok res) then
    throw (Error "Não consegui acessar o repositório. Verifique se o token é válido.")
  else ret (Js.or_else (default_branch (data res)) "main").

Definition getRepoTree (owner name branch token : string) : M Data :=
  res <- fetch (get (github +++ owner +++ "/" +++ name +++ "/git/trees/"
                       +++ branch +++ "?recursive=1") token) ;;
  if negb (ok res) then
    throw (Error ("Não consegui ler a árvore do repositório na branch "
                    +++ branch))
  else ret (data res).

Definition getFileContent (owner name path token : string)
  : M (option File) :=
  res <- fetch (get (contents_url owner name (encodeURIComponent path)) token) ;;
  if negb (ok res) then ret None
  else
    let d := data res in
    if Js.same (encoding d) "base64" then
      try_catch
        (b64 <- content_without_newlines d ;;
         raw <- lift (atob b64) ;;
         match decode_utf8 raw with
         | Some text =>
             ret (Some {| file_content := text; file_sha := data_sha d;
                          file_path := data_path d |})
         | None => throw (Error "URI malformed")
         end)
        (fun _ =>
           b64 <- content_without_newlines d ;;
           raw <- lift (atob b64) ;;
           ret (Some {| file_content := raw; file_sha := data_sha d;
                        file_path := data_path d |}))
    else ret None.

Definition commitFile (owner name path content : string)
  (sha : option string) (message branch token : string) : M Data :=
  let body :=
    PutBody message (btoa_utf8 content) (Some branch)
      (if Js.truthy sha then sha else None) in
  res <- fetch {| method := PUT;
                  url := contents_url owner name (encodeURIComponent path);
                  bearer := token; body := body |} ;;
  if negb (ok res) then
    throw (Error ("Falha ao salvar " +++ path +++ " no GitHub (status "
                    +++ Js.of_Z (status res) +++ ")"))
  else ret (data res).

Definition detectProjectType (files : list string) : string :=
  let hasPackageJson := Js.mem "package.json" files in
  let hasViteConfig := existsb (fun f => Js.includes f "vite.config") files in
  let hasTsConfig := Js.mem "tsconfig.json" files in
  let hasSrcFolder := existsb (fun f => Js.startsWith f "src/") files in
  let hasIndexHtml := Js.mem "index.html" files in
  let hasNextConfig := existsb (fun f => Js.includes f "next.config") files in
  if hasNextConfig then "nextjs"
  else if hasViteConfig && hasSrcFolder then "vite-react"
  else if hasPackageJson && hasSrcFolder then "react"
  else if hasIndexHtml then "static-html"
  else "generic".

Definition criticalFiles : list string :=
  [ "package.json"; "index.html"; "tsconfig.json"; "vite.config.ts";
    "vite.config.js"; "tailwind.config.ts"; "tailwind.config.js" ].

Definition codeExts : list string :=
  [ ".html"; ".css"; ".js"; ".jsx"; ".ts"; ".tsx"; ".json"; ".py"; ".vue";
    ".svelte"; ".scss" ].

Definition chat (key model : string) (messages : list ChatMessage)
  (temperature : Q) (max_tokens : option Z) : Request :=
  {| method := POST; url := gateway; bearer := key;
     body := ChatBody model messages temperature max_tokens |}.

Definition history_of (rq : Input) : list ChatMessage :=
  match history rq with
  | Some h => h
  | None => []
  end.

(** [raw.replace(/```json\n?/g, "").replace(/```\n?/g, "").trim()]. *)
Definition strip_fences (raw : string) : string :=
  Js.trim (Js.remove_all_nl "```" 0 (Js.remove_all_nl "```json" 0 raw)).

Definition failure (st : Z) (msg : string) : Reply :=
  {| reply_status := st; reply_body := Failure msg |}.

Definition no_change (text : string) : Reply :=
  json (Answer text [] None None).

(** *** Step 1: the intent *)

Definition intent_request (key : string) (rq : Input) : Request :=
  chat key "google/gemini-2.5-flash-lite"
    [ Msg "system" IntentRules; Msg "user" (Text (message rq)) ]
    0 (Some 10).

Definition intent_of (res : Response) : string :=
  Js.toLowerCase (Js.trim (Js.or_else (completion (data res)) "")).

Definition classify (key : string) (rq : Input) : M string :=
  intentRes <- fetch (intent_request key rq) ;;
  if negb (ok intentRes) then throw (Error "Erro ao processar sua mensagem")
  else ret (intent_of intentRes).

(** *** Chat mode *)

Definition chat_request (key : string) (rq : Input) : Request :=
  chat key "google/gemini-3-flash-preview"
    (Msg "system" (ChatPersona (repo_owner rq) (repo_name rq))
       :: history_of rq ++ [ Msg "user" (Text (message rq)) ])
    (7 # 10) None.

Definition chat_mode (key : string) (rq : Input) : M Reply :=
  chatRes <- fetch (chat_request key rq) ;;
  if negb (ok chatRes) then
    if status chatRes =? 429 then
      ret (failure 429 "Muitas requisições, espera um pouquinho! 😅")
    else if status chatRes =? 402 then
      ret (failure 402 "Créditos esgotados 😢")
    else throw (Error "Erro na IA")
  else
    ret (no_change (Js.or_else (completion (data chatRes))
                      "Desculpa, não entendi. Pode repetir?")).

(** *** Code mode, step 2: which files to load *)

Definition allFiles_of (tree : Data) : list string :=
  match Http.tree tree with
  | Some entries =>
      map entry_path (filter (fun f => entry_type f =? "blob")%string entries)
  | None => []
  end.

Definition selection_request (key : string) (rq : Input)
  (allFiles : list string) : Request :=
  chat key "google/gemini-2.5-flash"
    [ Msg "user" (SelectionAsk allFiles (message rq)) ] (1 # 10) None.

(** [selectedFiles] after the answer of the backend was read. *)
Definition parsed_selection (selectionRes : Response) : list string :=
  if ok selectionRes then
    let raw := Js.or_else (completion (data selectionRes)) "[]" in
    match parse_paths (strip_fences raw) with
    | Some l => l
    | None => []
    end
  else [].

Definition has_code_ext (f : string) : bool :=
  existsb (fun ext => Js.endsWith f ext) codeExts.

Definition fallback_selection (allFiles : list string) : list string :=
  firstn 12 (filter has_code_ext allFiles).

Definition select (allFiles : list string) (selectionRes : Response)
  : list string :=
  let selectedFiles := parsed_selection selectionRes in
  let selectedFiles :=
    if (List.length selectedFiles =? 0)%nat then fallback_selection allFiles
    else selectedFiles in
  filter (fun f => Js.mem f allFiles) selectedFiles.

(** *** Step 3: the contents of the selected files

    [selectedFiles.map(async (fp) => ...)] starts the load of every selected
    path, in the order of the selection: each runs up to its [fetch], so that
    every request is issued before any answer is handled.  The answers are
    handled in the order in which they arrive, which is up to the world, and
    [Promise.all] rejects with the first load, in that order, that throws. *)

Definition small_enough (file : File) : bool :=
  Js.length (file_content file) <? 20000.

(** [if (file && file.content.length < 20000) fileContents.push(file)]. *)
Definition push (file : option File) (fileContents : list File) : list File :=
  match file with
  | Some f => if small_enough f then fileContents ++ [f] else fileContents
  | None => fileContents
  end.

(** A load in flight: when its answer arrives, and what [getFileContent]
    makes of it. *)
Definition Load : Type := nat * Outcome (option File).

Fixpoint loadPromises (rq : Input) (selectedFiles : list string)
  : M (list Load) :=
  match selectedFiles with
  | [] => ret []
  | fp :: rest =>
      time <- arrives (get (contents_url (repo_owner rq) (repo_name rq)
                              (encodeURIComponent fp)) (github_token rq)) ;;
      file <- settled (getFileContent (repo_owner rq) (repo_name rq) fp
                         (github_token rq)) ;;
      others <- loadPromises rq rest ;;
      ret ((time, file) :: others)
  end.

(** The loads in the order in which their answers arrive; answers that
    arrive together are handled in the order of their requests. *)
Fixpoint arrive (load : Load) (arrived : list Load) : list Load :=
  match arrived with
  | [] => [load]
  | other :: rest =>
      if (fst load <=? fst other)%nat then load :: arrived
      else other :: arrive load rest
  end.

Definition by_arrival (loads : list Load) : list Load :=
  fold_right arrive [] loads.

(** [await Promise.all(loadPromises)]: the pushes, until a load throws. *)
Fixpoint settle (arrived : list Load) (fileContents : list File)
  : Outcome (list File) :=
  match arrived with
  | [] => Value fileContents
  | (_, Throw e) :: _ => Throw e
  | (_, Value file) :: rest => settle rest (push file fileContents)
  end.

Definition load_files (rq : Input) (selectedFiles : list string)
  : M (list File) :=
  loads <- loadPromises rq selectedFiles ;;
  lift (settle (by_arrival loads) []).

(** A value that may be undefined, inside a template literal. *)
Definition show (o : option string) : string :=
  match o with
  | Some s => s
  | None => "undefined"
  end.

Definition fileContext_of (fileContents : list File) : string :=
  Js.join (Js.nl +++ Js.nl)
    (map (fun f => "=== " +++ show (file_path f) +++ " ===" +++ Js.nl
                     +++ file_content f) fileContents).

(** *** Step 4: the change set *)

Definition code_request (key : string) (rq : Input)
  (branch projectType : string) (allFiles : list string)
  (fileContext : string) : Request :=
  chat key "google/gemini-2.5-flash"
    (Msg "system" (EditRules (repo_owner rq) (repo_name rq) branch
                     projectType allFiles fileContext criticalFiles)
       :: history_of rq ++ [ Msg "user" (Text (message rq)) ])
    (15 # 100) None.

(** Steps 2 to 4: either the answer to the caller, when the run ends before
    a change set was parsed, or the branch and the parsed change set. *)
Definition plan (key : string) (rq : Input)
  : M (Reply + string * ChangeSet) :=
  branch <- getDefaultBranch (repo_owner rq) (repo_name rq)
              (github_token rq) ;;
  tree <- getRepoTree (repo_owner rq) (repo_name rq) branch
            (github_token rq) ;;
  let allFiles := allFiles_of tree in
  let projectType := detectProjectType allFiles in
  selectionRes <- fetch (selection_request key rq allFiles) ;;
  let selectedFiles := select allFiles selectionRes in
  fileContents <- load_files rq selectedFiles ;;
  let fileContext := fileContext_of fileContents in
  codeRes <- fetch (code_request key rq branch projectType allFiles
                      fileContext) ;;
  if negb (ok codeRes) then
    if status codeRes =? 429 then
      ret (inl (failure 429 "Muitas requisições, espera um pouquinho!"))
    else if status codeRes =? 402 then
      ret (inl (failure 402 "Créditos esgotados."))
    else throw (Error "Erro na IA ao gerar mudanças")
  else
    let rawContent :=
      strip_fences (Js.or_else (completion (data codeRes)) "") in
    match parse_change_set rawContent with
    | None =>
        ret (inl (no_change
          "Desculpa, tive um problema ao processar. Tenta de novo com mais detalhes? 😅"))
    | Some parsed => ret (inr (branch, parsed))
    end.

(** *** Step 5: the safety check *)

Definition is_critical (change : Change) : bool :=
  match path change with
  | Some p => Js.mem p criticalFiles
  | None => false
  end.

Definition too_short (change : Change) : bool :=
  match content change with
  | Some c => (c =? "")%string || (Js.length (Js.trim c) <? 10)
  | None => true
  end.

(** The test of the safety loop. *)
Definition unsafe (change : Change) : bool :=
  is_critical change && too_short change.

Definition refusal (change : Change) : Reply :=
  no_change ("⚠️ Não posso modificar " +++ show (path change)
    +++ " dessa forma - é um arquivo crítico do projeto. Me diz exatamente o que quer mudar nele?").

(** *** Step 6: the commits, one file at a time *)

Record Applied :=
  { lastCommitSha : option string;
    filesChanged : list string;
    errors : list string }.

Definition nothing_applied : Applied :=
  {| lastCommitSha := None; filesChanged := []; errors := [] |}.

Definition errMsg (err : Exn) : string :=
  match err with
  | Error m => m
  | Thrown _ _ => "[object Object]"
  end.

(** The body of the [try] block: the fresh marker, then the write. *)
Definition commit_change (rq : Input) (branch : string) (parsed : ChangeSet)
  (p c : string) : M (option string) :=
  freshFile <- getFileContent (repo_owner rq) (repo_name rq) p
                 (github_token rq) ;;
  let sha :=
    match freshFile with
    | Some f => Js.or_null (file_sha f)
    | None => None
    end in
  result <- commitFile (repo_owner rq) (repo_name rq) p c sha
              (Js.or_else (commit_message parsed) "update via JTC COD")
              branch (github_token rq) ;;
  ret (Js.or_null (commit_sha result)).

Definition committed (acc : Applied) (p : string) (sha : option string)
  : Applied :=
  {| lastCommitSha := sha; filesChanged := filesChanged acc ++ [p];
     errors := errors acc |}.

Definition failed (acc : Applied) (p : string) (err : Exn) : Applied :=
  {| lastCommitSha := lastCommitSha acc; filesChanged := filesChanged acc;
     errors := errors acc ++ [p +++ ": " +++ errMsg err] |}.

(** One turn of the loop on a change with a path and a content. *)
Definition apply_change (rq : Input) (branch : string) (parsed : ChangeSet)
  (p c : string) (acc : Applied) : M Applied :=
  try_catch
    (sha <- commit_change rq branch parsed p c ;; ret (committed acc p sha))
    (fun err => ret (failed acc p err)).

Fixpoint apply_changes (rq : Input) (branch : string) (parsed : ChangeSet)
  (cs : list Change) (acc : Applied) : M Applied :=
  match cs with
  | [] => ret acc
  | change :: rest =>
      match path change, content change with
      | Some p, Some c =>
          if (p =? "")%string || (c =? "")%string then
            apply_changes rq branch parsed rest acc
          else
            acc' <- apply_change rq branch parsed p c acc ;;
            apply_changes rq branch parsed rest acc'
      | _, _ => apply_changes rq branch parsed rest acc
      end
  end.

(** *** The response *)

Definition bullets (errors : list string) : string :=
  Js.join Js.nl (map (fun e => "• " +++ e) errors).

Definition success_text (parsed : ChangeSet) (acc : Applied) : string :=
  Js.or_else (explanation parsed) "Pronto, modificações aplicadas!"
    +++ Js.nl +++ Js.nl +++ "✅ Arquivos atualizados: "
    +++ Js.join ", " (filesChanged acc)
    +++ match lastCommitSha acc with
        | Some sha =>
            if (sha =? "")%string then ""
            else Js.nl +++ "🔗 Commit: `" +++ Js.slice7 sha +++ "`"
        | None => ""
        end.

Definition hard_failure_text (acc : Applied) : string :=
  "❌ Não consegui fazer as modificações." +++ Js.nl +++ Js.nl
    +++ bullets (errors acc) +++ Js.nl +++ Js.nl
    +++ "Verifica se o token tem a permissão " +++ Js.dquote +++ "repo"
    +++ Js.dquote +++ " habilitada.".

Definition warning_text (acc : Applied) : string :=
  Js.nl +++ Js.nl +++ "⚠️ Alguns arquivos falharam:" +++ Js.nl
    +++ bullets (errors acc).

Definition build_response (parsed : ChangeSet) (acc : Applied) : string :=
  let response := "" in
  let response :=
    if (0 <? List.length (filesChanged acc))%nat then success_text parsed acc
    else response in
  let response :=
    if (0 <? List.length (errors acc))%nat then
      if (List.length (filesChanged acc) =? 0)%nat then hard_failure_text acc
      else response +++ warning_text acc
    else response in
  if (response =? "")%string then
    "Algo deu errado, não consegui processar. Tenta de novo?"
  else response.

(** Steps 5 and 6, and the response, for a parsed change set. *)
Definition apply_change_set (rq : Input) (branch : string)
  (parsed : ChangeSet) : M Reply :=
  match changes parsed with
  | None | Some [] =>
      ret (no_change (Js.or_else (explanation parsed)
        "Não identifiquei nenhuma mudança necessária. Pode detalhar melhor o que quer?"))
  | Some cs =>
      match find unsafe cs with
      | Some change => ret (refusal change)
      | None =>
          acc <- apply_changes rq branch parsed cs nothing_applied ;;
          ret (json (Answer (build_response parsed acc) (filesChanged acc)
                       (lastCommitSha acc) (commit_message parsed)))
      end
  end.

Definition code_mode (key : string) (rq : Input) : M Reply :=
  p <- plan key rq ;;
  match p with
  | inl reply => ret reply
  | inr (branch, parsed) => apply_change_set rq branch parsed
  end.

(** *** The handler *)

Definition handle (rq : Input) : M Reply :=
  if Js.truthy LOVABLE_API_KEY then
    let key := Js.or_else LOVABLE_API_KEY "" in
    intent <- classify key rq ;;
    if negb (intent =? "code")%string then chat_mode key rq
    else code_mode key rq
  else throw (Error "LOVABLE_API_KEY not configured").

Definition serve (req : HttpRequest) : M Reply :=
  if (http_method req =? "OPTIONS")%string then
    ret {| reply_status := 200; reply_body := NoContent |}
  else
    try_catch (handle (http_json req))
      (fun e =>
         let msg :=
           match e with
           | Error m => m
           | Thrown _ _ => "Erro desconhecido"
           end in
         ret (failure 500 ("Erro: " +++ msg))).

End CodeAgent.
End CodeAgent.

(** ** The generation backend adapter *)

Module Backend.
Section Backend.
Context `{Platform}.

Record AiConfig :=
  { ai_url : string;
    ai_key : string;
    intentModel : string;
    chatModel : string;
    codeModel : string;
    selectionModel : string }.

Definition getAiConfig (provider apiKey : string) : AiConfig :=
  if (provider =? "openai")%string then
    {| ai_url := "https://api.openai.com/v1/chat/completions";
       ai_key := apiKey;
       intentModel := "gpt-4o-mini";
       chatModel := "gpt-4o-mini";
       codeModel := "gpt-4o";
       selectionModel := "gpt-4o-mini" |}
  else
    {| ai_url := "https://generativelanguage.googleapis.com/v1beta/openai/chat/completions";
       ai_key := apiKey;
       intentModel := "gemini-2.0-flash-lite";
       chatModel := "gemini-2.0-flash";
       codeModel := "gemini-2.5-flash";
       selectionModel := "gemini-2.0-flash" |}.

(** [body.max_tokens] is set when [maxTokens] is truthy. *)
Definition max_tokens_of (maxTokens : option Z) : option Z :=
  match maxTokens with
  | Some n => if n =? 0 then None else Some n
  | None => None
  end.

Definition lovable_gateway : string :=
  "https://ai.gateway.lovable.dev/v1/chat/completions".

Definition fallback_request (apiKey : string) (messages : list ChatMessage)
  (temperature : Q) (maxTokens : option Z) : Request :=
  {| method := POST; url := lovable_gateway; bearer := apiKey;
     body := ChatBody "google/gemini-3-flash-preview" messages temperature
               (max_tokens_of maxTokens) |}.

Definition callLovableAi (messages : list ChatMessage) (temperature : Q)
  (maxTokens : option Z) : M Data :=
  if Js.truthy LOVABLE_API_KEY then
    let apiKey := Js.or_else LOVABLE_API_KEY "" in
    res <- fetch (fallback_request apiKey messages temperature maxTokens) ;;
    if negb (ok res) then
      if status res =? 429 then
        throw (Thrown 429 "Limite de requisições atingido. Tente novamente em alguns segundos.")
      else if status res =? 402 then
        throw (Thrown 402 "Créditos de IA esgotados.")
      else throw (Thrown 500 "Erro no fallback de IA")
    else ret (data res)
  else throw (Thrown 500 "Fallback AI não configurado").

Definition maxRetries : Z := 3.

Definition primary_request (config : AiConfig) (model : string)
  (messages : list ChatMessage) (temperature : Q) (maxTokens : option Z)
  : Request :=
  {| method := POST; url := ai_url config; bearer := ai_key config;
     body := ChatBody model messages temperature (max_tokens_of maxTokens) |}.

(** The [for] loop of [callAi] from the turn [attempt] on.  [turns] bounds
    the turns left; it is [maxRetries - attempt] all along, so that the loop
    is left through its condition exactly when [turns] is used up. *)
Fixpoint callAi_from (turns : nat) (attempt : Z) (config : AiConfig)
  (model : string) (messages : list ChatMessage) (temperature : Q)
  (maxTokens : option Z) : M Data :=
  match turns with
  | O => throw (Thrown 500 "Erro inesperado na IA")
  | S turns' =>
      if attempt <? maxRetries then
        res <- fetch (primary_request config model messages temperature
                        maxTokens) ;;
        if ok res then ret (data res)
        else if status res =? 429 then
          if attempt <? maxRetries - 1 then
            let wait := 2 ^ (attempt + 1) * 1000 in
            sleep wait ;;
            callAi_from turns' (attempt + 1) config model messages
              temperature maxTokens
          else callLovableAi messages temperature maxTokens
        else if (status res =? 401) || (status res =? 403) then
          throw (Thrown 401 "Chave API inválida. Verifique nas configurações do perfil.")
        else throw (Thrown 500 "Erro na IA")
      else throw (Thrown 500 "Erro inesperado na IA")
  end.

Definition callAi (config : AiConfig) (model : string)
  (messages : list ChatMessage) (temperature : Q) (maxTokens : option Z)
  : M Data :=
  callAi_from (Z.to_nat maxRetries) 0 config model messages temperature
    maxTokens.

End Backend.
End Backend.

(** ** The code agent with the key of the user

    The second handler of the code agent asks the generation backend through
    [callAi], with the provider and the key of the profile of the user.  Its
    steps on the repository are those of [CodeAgent]; what differs is written
    out here.  The row of the profile is an input of the model: [profile_of]
    is what the query on the table of profiles yields for a user.  The
    instruction of the edit request has two more rules than the one of
    [CodeAgent]; [EditRules] stands for it all the same. *)

Module UserAgent.
Import CodeAgent Backend.

Record Profile :=
  { ai_provider : option string;
    ai_api_key : option string }.

(** The body of the request: that of [CodeAgent] and [user_id]. *)
Record Input := { base : CodeAgent.Input; user_id : string }.

Record HttpRequest := { http_method : string; http_json : Input }.

Section UserAgent.
Context `{Platform}.

Variable profile_of : string -> option Profile.

Definition detectProjectType (files : list string) : string :=
  let hasPackageJson := Js.mem "package.json" files in
  let hasViteConfig := existsb (fun f => Js.includes f "vite.config") files in
  let hasSrcFolder := existsb (fun f => Js.startsWith f "src/") files in
  let hasNextConfig := existsb (fun f => Js.includes f "next.config") files in
  if hasNextConfig then "nextjs"
  else if hasViteConfig && hasSrcFolder then "vite-react"
  else if hasPackageJson && hasSrcFolder then "react"
  else if Js.mem "index.html" files then "static-html"
  else "generic".

(** [(data.choices?.[0]?.message?.content || "").trim().toLowerCase()]. *)
Definition intent_of (intentData : Data) : string :=
  Js.toLowerCase (Js.trim (Js.or_else (completion intentData) "")).

Definition chat_mode (aiConfig : AiConfig) (rq : CodeAgent.Input) : M Reply :=
  chatData <- callAi aiConfig (chatModel aiConfig)
                (Msg "system" (ChatPersona (repo_owner rq) (repo_name rq))
                   :: history_of rq ++ [ Msg "user" (Text (message rq)) ])
                (7 # 10) None ;;
  ret (no_change (Js.or_else (completion chatData)
                    "Desculpa, não entendi. Pode repetir?")).

Definition select (allFiles : list string) (selData : Data) : list string :=
  let raw := Js.or_else (completion selData) "[]" in
  let selectedFiles :=
    match parse_paths (strip_fences raw) with
    | Some l => l
    | None => []
    end in
  let selectedFiles :=
    if (List.length selectedFiles =? 0)%nat then fallback_selection allFiles
    else selectedFiles in
  filter (fun f => Js.mem f allFiles) selectedFiles.

(** The steps of code mode up to the parsed change set. *)
Definition plan (aiConfig : AiConfig) (rq : CodeAgent.Input)
  : M (Reply + string * ChangeSet) :=
  branch <- getDefaultBranch (repo_owner rq) (repo_name rq)
              (github_token rq) ;;
  tree <- getRepoTree (repo_owner rq) (repo_name rq) branch
            (github_token rq) ;;
  let allFiles := allFiles_of tree in
  let projectType := detectProjectType allFiles in
  selData <- callAi aiConfig (selectionModel aiConfig)
               [ Msg "user" (SelectionAsk allFiles (message rq)) ]
               (1 # 10) None ;;
  let selectedFiles := select allFiles selData in
  fileContents <- load_files rq selectedFiles ;;
  let fileContext := fileContext_of fileContents in
  codeData <- callAi aiConfig (codeModel aiConfig)
                (Msg "system" (EditRules (repo_owner rq) (repo_name rq) branch
                                 projectType allFiles fileContext
                                 criticalFiles)
                   :: history_of rq ++ [ Msg "user" (Text (message rq)) ])
                (15 # 100) None ;;
  let rawContent := strip_fences (Js.or_else (completion codeData) "") in
  match parse_change_set rawContent with
  | None =>
      ret (inl (no_change
        "Desculpa, tive um problema ao processar. Tenta de novo com mais detalhes? 😅"))
  | Some parsed => ret (inr (branch, parsed))
  end.

Definition code_mode (aiConfig : AiConfig) (rq : CodeAgent.Input) : M Reply :=
  p <- plan aiConfig rq ;;
  match p with
  | inl reply => ret reply
  | inr (branch, parsed) => apply_change_set rq branch parsed
  end.

Definition key_of (profile : option Profile) : option string :=
  match profile with
  | Some p => ai_api_key p
  | None => None
  end.

Definition provider_of (profile : option Profile) : option string :=
  match profile with
  | Some p => ai_provider p
  | None => None
  end.

Definition handle (input : Input) : M Reply :=
  let rq := base input in
  let profile := profile_of (user_id input) in
  if negb (Js.truthy (key_of profile)) then
    ret (failure 400
           "Configure sua chave API de IA no perfil antes de usar o agente.")
  else
    let aiConfig :=
      getAiConfig (Js.or_else (provider_of profile) "gemini")
        (Js.or_else (key_of profile) "") in
    intentData <- callAi aiConfig (intentModel aiConfig)
                    [ Msg "system" IntentRules;
                      Msg "user" (Text (message rq)) ]
                    0 (Some 10) ;;
    if negb (intent_of intentData =? "code")%string then chat_mode aiConfig rq
    else code_mode aiConfig rq.

(** [e?.status || 500] and [e?.message || (e instanceof Error ? e.message :
    "Erro desconhecido")]. *)
Definition status_of (e : Exn) : Z :=
  match e with
  | Error _ => 500
  | Thrown st _ => if st =? 0 then 500 else st
  end.

Definition message_of (e : Exn) : string :=
  match e with
  | Error m => m
  | Thrown _ m => if (m =? "")%string then "Erro desconhecido" else m
  end.

Definition serve (req : HttpRequest) : M Reply :=
  if (http_method req =? "OPTIONS")%string then
    ret {| reply_status := 200; reply_body := NoContent |}
  else
    try_catch (handle (http_json req))
      (fun e => ret (failure (status_of e) ("Erro: " +++ message_of e))).

End UserAgent.
End UserAgent.

(** ** The undo engine *)

Module Undo.
Section Undo.
Context `{Platform}.

(** The body of the request: [{ commit_sha, repo_owner, repo_name,
    github_token }]. *)
Record Input :=
  { commit_sha : option string;
    repo_owner : option string;
    repo_name : option string;
    github_token : option string }.

Record HttpRequest := { http_method : string; http_json : Input }.

Definition github : string := "https://api.github.com/repos/".

Definition get (u token : string) : Request :=
  {| method := GET; url := u; bearer := token; body := NoBody |}.

Definition file_url (owner name : string) (file : ChangedFile) : string :=
  github +++ owner +++ "/" +++ name +++ "/contents/" +++ filename file.

Definition parent_url (owner name parentSha : string) (file : ChangedFile)
  : string :=
  file_url owner name file +++ "?ref=" +++ parentSha.

Definition delete_request (owner name token : string) (file : ChangedFile)
  (currentData : Data) : Request :=
  {| method := DELETE; url := file_url owner name file; bearer := token;
     body := DeleteBody ("revert: undo " +++ filename file)
               (data_sha currentData) |}.

Definition restore_request (owner name token : string) (file : ChangedFile)
  (content : string) (currentData : Data) : Request :=
  {| method := PUT; url := file_url owner name file; bearer := token;
     body := PutBody ("revert: undo changes to " +++ filename file) content
               None (data_sha currentData) |}.

(** One turn of the loop over the files of the commit: the [try] block and
    its [catch], which only logs. *)
Definition revert_file (owner name token parentSha : string)
  (file : ChangedFile) (filesReverted : list string) : M (list string) :=
  try_catch
    (if (file_status file =? "added")%string then
       currentRes <- fetch (get (file_url owner name file) token) ;;
       if ok currentRes then
         fetch (delete_request owner name token file (data currentRes)) ;;
         ret (filesReverted ++ [filename file])
       else ret filesReverted
     else
       parentFileRes <- fetch (get (parent_url owner name parentSha file)
                                 token) ;;
       if ok parentFileRes then
         currentRes <- fetch (get (file_url owner name file) token) ;;
         if ok currentRes then
           content <- content_without_newlines (data parentFileRes) ;;
           fetch (restore_request owner name token file content
                    (data currentRes)) ;;
           ret (filesReverted ++ [filename file])
         else ret filesReverted
       else ret filesReverted)
    (fun _ => ret filesReverted).

Fixpoint revert_files (owner name token parentSha : string)
  (fs : list ChangedFile) (filesReverted : list string) : M (list string) :=
  match fs with
  | [] => ret filesReverted
  | file :: rest =>
      filesReverted' <- revert_file owner name token parentSha file
                          filesReverted ;;
      revert_files owner name token parentSha rest filesReverted'
  end.

Definition commit_url (owner name sha : string) : string :=
  github +++ owner +++ "/" +++ name +++ "/commits/" +++ sha.

Definition files_of (commitData : Data) : list ChangedFile :=
  match files commitData with
  | Some fs => fs
  | None => []
  end.

Definition handle (rq : Input) : M Reply :=
  if negb (Js.truthy (commit_sha rq)) || negb (Js.truthy (repo_owner rq))
     || negb (Js.truthy (repo_name rq)) || negb (Js.truthy (github_token rq))
  then throw (Error "Missing required parameters")
  else
    let sha := Js.or_else (commit_sha rq) "" in
    let owner := Js.or_else (repo_owner rq) "" in
    let name := Js.or_else (repo_name rq) "" in
    let token := Js.or_else (github_token rq) "" in
    commitRes <- fetch (get (commit_url owner name sha) token) ;;
    if negb (ok commitRes) then throw (Error "Could not fetch commit details")
    else
      let commitData := data commitRes in
      if negb (Js.truthy (parent_sha commitData)) then
        throw (Error "Cannot revert: no parent commit found")
      else
        let parentSha := Js.or_else (parent_sha commitData) "" in
        filesReverted <- revert_files owner name token parentSha
                           (files_of commitData) [] ;;
        ret (json (Reverted filesReverted)).

Definition serve (req : HttpRequest) : M Reply :=
  if (http_method req =? "OPTIONS")%string then
    ret {| reply_status := 200; reply_body := NoContent |}
  else
    try_catch (handle (http_json req))
      (fun e =>
         let msg :=
           match e with
           | Error m => m
           | Thrown _ _ => "Unknown error"
           end in
         ret {| reply_status := 500; reply_body := Failure msg |}).

End Undo.
End Undo.

(** ** The chat client: what it stores of an answer *)

Module Client.

Record CommitRecord :=
  { record_sha : string;
    record_message : string;
    record_files : list string }.

(** The row of [agent_commits] that [sendMessage] inserts, if any: one row,
    under the identifier the answer carries, with all the changed paths. *)
Definition commit_record (reply : Reply) : option CommitRecord :=
  if (200 <=? reply_status reply) && (reply_status reply <=? 299) then
    match reply_body reply with
    | Answer _ files_changed sha message =>
        if Js.truthy sha then
          Some {| record_sha := Js.or_else sha "";
                  record_message := Js.or_else message "update via JTC COD";
                  record_files := files_changed |}
        else None
    | _ => None
    end
  else None.

End Client.

(** ** Scripted worlds

    A world that answers the calls of a run with a prepared list of answers,
    whatever the request; the built-ins that transform text are identities.
    The examples of this development run the handlers in such worlds. *)

Module Script.

Definition answer (st : Z) (d : Data) : Response :=
  {| status := st; data := d |}.

Definition play (req : Request) (w : list Response)
  : Response * list Response :=
  match w with
  | res :: w' => (res, w')
  | [] => (answer 500 no_data, [])
  end.

Definition platform (paths : string -> option (list string))
  (change_set : string -> option ChangeSet) (key : option string)
  : Platform :=
  {| World := list Response;
     respond := play;
     arrival := fun _ _ => 0%nat;
     atob := fun s => Value s;
     decode_utf8 := fun s => Some s;
     btoa_utf8 := fun s => s;
     encodeURIComponent := fun s => s;
     parse_paths := paths;
     parse_change_set := change_set;
     LOVABLE_API_KEY := key |}.

(** Answers of the generation backend, of the repository and of the
    contents endpoint. *)
Definition says (text : string) : Response :=
  answer 200
    {| default_branch := None; tree := None; encoding := None;
       data_content := None; data_sha := None; data_path := None;
       Http.commit_sha := None; parent_sha := None; files := None;
       completion := Some text |}.

Definition repo (branch : string) : Response :=
  answer 200
    {| default_branch := Some branch; tree := None; encoding := None;
       data_content := None; data_sha := None; data_path := None;
       Http.commit_sha := None; parent_sha := None; files := None;
       completion := None |}.

Definition blobs (paths : list string) : Response :=
  answer 200
    {| default_branch := None;
       tree := Some (map (fun p => {| entry_path := p; entry_type := "blob" |})
                       paths);
       encoding := None; data_content := None; data_sha := None;
       data_path := None; Http.commit_sha := None; parent_sha := None;
       files := None; completion := None |}.

Definition file (p text sha : string) : Response :=
  answer 200
    {| default_branch := None; tree := None; encoding := Some "base64";
       data_content := Some text; data_sha := Some sha; data_path := Some p;
       Http.commit_sha := None; parent_sha := None; files := None;
       completion := None |}.

Definition saved (sha : string) : Response :=
  answer 201
    {| default_branch := None; tree := None; encoding := None;
       data_content := None; data_sha := None; data_path := None;
       Http.commit_sha := Some sha; parent_sha := None; files := None;
       completion := None |}.

Definition commit (parent : option string) (fs : list ChangedFile)
  : Response :=
  answer 200
    {| default_branch := None; tree := None; encoding := None;
       data_content := None; data_sha := None; data_path := None;
       Http.commit_sha := None; parent_sha := parent; files := Some fs;
       completion := None |}.

Definition refused (st : Z) : Response := answer st no_data.

End Script.

(** * Properties *)

(** ** String built-ins *)

Module JsFacts.

Lemma prefix_app (p s : string) :
  prefix p s = true <-> exists r, s = p +++ r.
Proof.
  revert s. induction p as [| a p IH]; intros s.
  - destruct s; simpl; split; eauto.
  - destruct s as [| b s]; simpl.
    + split; [discriminate | intros [r Hr]; discriminate Hr].
    + destruct (ascii_dec a b) as [Hab | Hab].
      * subst b. split.
        -- intros Hp. apply IH in Hp. destruct Hp as [r ->]. eauto.
        -- intros [r Hr]. apply IH. exists r. congruence.
      * split; [discriminate | intros [r Hr]; congruence].
Qed.

Lemma list_of_app (a b : string) :
  list_ascii_of_string (a +++ b)
    = list_ascii_of_string a ++ list_ascii_of_string b.
Proof. induction a as [| c a IH]; simpl; congruence. Qed.

Lemma string_of_app (l1 l2 : list ascii) :
  string_of_list_ascii (l1 ++ l2)
    = string_of_list_ascii l1 +++ string_of_list_ascii l2.
Proof. induction l1 as [| c l1 IH]; simpl; congruence. Qed.

Lemma rev_app (a b : string) : Js.rev (a +++ b) = Js.rev b +++ Js.rev a.
Proof.
  unfold Js.rev. rewrite list_of_app, rev_app_distr. apply string_of_app.
Qed.

Lemma rev_involutive (s : string) : Js.rev (Js.rev s) = s.
Proof.
  unfold Js.rev. rewrite list_ascii_of_string_of_list_ascii.
  rewrite List.rev_involutive. apply string_of_list_ascii_of_string.
Qed.

(** [s.endsWith(p)] holds exactly when [s] is some text followed by [p]. *)
Lemma endsWith_spec (s p : string) :
  Js.endsWith s p = true <-> exists pre, s = pre +++ p.
Proof.
  unfold Js.endsWith. rewrite prefix_app. split.
  - intros [r Hr]. exists (Js.rev r).
    rewrite <- (rev_involutive s), Hr, rev_app, rev_involutive. reflexivity.
  - intros [pre ->]. exists (Js.rev pre). apply rev_app.
Qed.

End JsFacts.

(** ** Runs and their traces *)

Section Runs.
Context `{Platform}.

Lemma writes_app (t1 t2 : list Event) :
  writes (t1 ++ t2) = writes t1 ++ writes t2.
Proof. apply filter_app. Qed.

(** A computation that never issues a write call, however the world
    answers. *)
Definition quiet {A} (m : M A) : Prop :=
  forall w, writes (trace (m w)) = [].

Lemma quiet_ret {A} (a : A) : quiet (ret a).
Proof. intro w. reflexivity. Qed.

Lemma quiet_throw {A} (e : Exn) : quiet (@throw _ A e).
Proof. intro w. reflexivity. Qed.

Lemma quiet_lift {A} (o : Outcome A) : quiet (lift o).
Proof. intro w. reflexivity. Qed.

Lemma quiet_bind {A B} (m : M A) (k : A -> M B) :
  quiet m -> (forall a, quiet (k a)) -> quiet (bind m k).
Proof.
  intros Hm Hk w. unfold bind. specialize (Hm w).
  destruct (m w) as [[[a | e] w1] t1]; simpl in *; auto.
  specialize (Hk a w1). destruct (k a w1) as [[r w2] t2]; simpl in *.
  unfold trace; simpl. rewrite writes_app, Hm, Hk. reflexivity.
Qed.

Lemma quiet_try_catch {A} (m : M A) (h : Exn -> M A) :
  quiet m -> (forall e, quiet (h e)) -> quiet (try_catch m h).
Proof.
  intros Hm Hh w. unfold try_catch. specialize (Hm w).
  destruct (m w) as [[[a | e] w1] t1]; simpl in *; auto.
  specialize (Hh e w1). destruct (h e w1) as [[r w2] t2]; simpl in *.
  unfold trace; simpl. rewrite writes_app, Hm, Hh. reflexivity.
Qed.

Lemma quiet_settled {A} (m : M A) : quiet m -> quiet (settled m).
Proof.
  intros Hm w. unfold settled. specialize (Hm w).
  destruct (m w) as [[r w1] t1]. exact Hm.
Qed.

Lemma quiet_fetch (req : Request) :
  method req = GET \/ method req = POST -> quiet (fetch req).
Proof.
  intros Hreq w. unfold fetch. destruct (respond req w) as [res w1].
  unfold trace, writes; simpl. destruct Hreq as [-> | ->]; reflexivity.
Qed.

Lemma quiet_content_without_newlines (d : Data) :
  quiet (content_without_newlines d).
Proof.
  unfold content_without_newlines.
  destruct (data_content d); [apply quiet_ret | apply quiet_throw].
Qed.

(** The run of a sequence, from the runs of its parts. *)
Lemma bind_value {A B} (m : M A) (k : A -> M B) w a w1 t1 :
  m w = (Value a, w1, t1) ->
  bind m k w = (outcome (k a w1), world_after (k a w1), t1 ++ trace (k a w1)).
Proof.
  intros Hm. unfold bind. rewrite Hm.
  destruct (k a w1) as [[r w2] t2]. reflexivity.
Qed.

Lemma bind_throw {A B} (m : M A) (k : A -> M B) w e w1 t1 :
  m w = (Throw e, w1, t1) -> bind m k w = (Throw e, w1, t1).
Proof. intros Hm. unfold bind. rewrite Hm. reflexivity. Qed.

End Runs.

Create HintDb quiet.

#[export] Hint Resolve quiet_ret quiet_throw quiet_lift quiet_bind
  quiet_try_catch quiet_content_without_newlines : quiet.

(** ** The code agent: what runs before the commit loop writes nothing *)

Module CodeAgentFacts.
Import CodeAgent.
Section CodeAgentFacts.
Context `{Platform}.

Lemma quiet_get (u token : string) : quiet (fetch (get u token)).
Proof. apply quiet_fetch. left. reflexivity. Qed.

Lemma quiet_chat key model messages temperature max_tokens :
  quiet (fetch (chat key model messages temperature max_tokens)).
Proof. apply quiet_fetch. right. reflexivity. Qed.

Lemma quiet_getDefaultBranch owner name token :
  quiet (getDefaultBranch owner name token).
Proof.
  unfold getDefaultBranch. apply quiet_bind; [apply quiet_get |].
  intros res. destruct (negb (ok res)); auto with quiet.
Qed.

Lemma quiet_getRepoTree owner name branch token :
  quiet (getRepoTree owner name branch token).
Proof.
  unfold getRepoTree. apply quiet_bind; [apply quiet_get |].
  intros res. destruct (negb (ok res)); auto with quiet.
Qed.

Lemma quiet_getFileContent owner name p token :
  quiet (getFileContent owner name p token).
Proof.
  unfold getFileContent. apply quiet_bind; [apply quiet_get |].
  intros res. destruct (negb (ok res)); [apply quiet_ret |].
  destruct (Js.same (encoding (data res)) "base64"); [| apply quiet_ret].
  apply quiet_try_catch.
  - apply quiet_bind; [apply quiet_content_without_newlines |].
    intros b64. apply quiet_bind; [apply quiet_lift |].
    intros raw. destruct (decode_utf8 raw); auto with quiet.
  - intros _. apply quiet_bind; [apply quiet_content_without_newlines |].
    intros b64. apply quiet_bind; [apply quiet_lift |].
    intros raw. apply quiet_ret.
Qed.

Lemma quiet_loadPromises rq selectedFiles :
  quiet (loadPromises rq selectedFiles).
Proof.
  induction selectedFiles as [| fp rest IH]; simpl; [apply quiet_ret |].
  apply quiet_bind; [intros w; reflexivity |]. intros time.
  apply quiet_bind; [apply quiet_settled; apply quiet_getFileContent |].
  intros file. apply quiet_bind; [exact IH |].
  intros others. apply quiet_ret.
Qed.

Lemma quiet_load_files rq selectedFiles : quiet (load_files rq selectedFiles).
Proof.
  unfold load_files. apply quiet_bind; [apply quiet_loadPromises |].
  intros loads. apply quiet_lift.
Qed.

Lemma quiet_plan key rq : quiet (plan key rq).
Proof.
  unfold plan.
  apply quiet_bind; [apply quiet_getDefaultBranch |]. intros branch.
  apply quiet_bind; [apply quiet_getRepoTree |]. intros tree.
  apply quiet_bind; [apply quiet_chat |]. intros selectionRes.
  apply quiet_bind; [apply quiet_load_files |]. intros fileContents.
  apply quiet_bind; [apply quiet_chat |]. intros codeRes.
  destruct (negb (ok codeRes)).
  - destruct (status codeRes =? 429); [apply quiet_ret |].
    destruct (status codeRes =? 402); [apply quiet_ret | apply quiet_throw].
  - destruct (parse_change_set _) as [parsed |]; apply quiet_ret.
Qed.

Lemma quiet_classify key rq : quiet (classify key rq).
Proof.
  unfold classify. apply quiet_bind; [apply quiet_chat |].
  intros res. destruct (negb (ok res)); auto with quiet.
Qed.

Lemma quiet_chat_mode key rq : quiet (chat_mode key rq).
Proof.
  unfold chat_mode. apply quiet_bind; [apply quiet_chat |].
  intros res. destruct (negb (ok res)); [| apply quiet_ret].
  destruct (status res =? 429); [apply quiet_ret |].
  destruct (status res =? 402); [apply quiet_ret | apply quiet_throw].
Qed.

(** *** The safety check *)

Lemma mem_In (x : string) (l : list string) : Js.mem x l = true <-> In x l.
Proof.
  unfold Js.mem. rewrite existsb_exists. split.
  - intros [y [Hy Heq]]. apply String.eqb_eq in Heq. subst. exact Hy.
  - intros Hx. exists x. split; [exact Hx | apply String.eqb_refl].
Qed.



End CodeAgentFacts.




Definition post (rq : Input) : HttpRequest :=
  {| http_method := "POST"; http_json := rq |}.

Definition ask (text : string) : Input :=
  {| message := text; repo_owner := "o"; repo_name := "r";
     github_token := "t"; history := None |}.


(** *** The intent gate *)

Section IntentGate.
Context `{Platform}.

Lemma classify_run key rq w intentRes w0 :
  respond (intent_request key rq) w = (intentRes, w0) ->
  ok intentRes = true ->
  classify key rq w
    = (Value (intent_of intentRes), w0, [ Call (intent_request key rq) intentRes ]).
Proof.
  intros Hres Hok. unfold classify, bind, fetch. rewrite Hres, Hok.
  reflexivity.
Qed.

Lemma chat_mode_run key rq w chatRes w1 :
  respond (chat_request key rq) w = (chatRes, w1) ->
  chat_mode key rq w
    = (if ok chatRes then
         Value (no_change (Js.or_else (completion (data chatRes))
                             "Desculpa, não entendi. Pode repetir?"))
       else if status chatRes =? 429 then
         Value (failure 429 "Muitas requisições, espera um pouquinho! 😅")
       else if status chatRes =? 402 then
         Value (failure 402 "Créditos esgotados 😢")
       else Throw (Error "Erro na IA"),
       w1, [ Call (chat_request key rq) chatRes ]).
Proof.
  intros Hres. unfold chat_mode, bind, fetch. rewrite Hres.
  destruct (ok chatRes); simpl; [reflexivity |].
  destruct (status chatRes =? 429); simpl; [reflexivity |].
  destruct (status chatRes =? 402); reflexivity.
Qed.

(** C2, as the handler has it.  When the answer of the intent call, trimmed
    and lower-cased, is not the token code, the run consists of the intent
    call and the chat call and of nothing else, so that no write call is
    issued.  If the chat call is answered with success the reply carries the
    chat text, no changed file, no commit identifier and no commit message;
    otherwise the reply is an error with status 429, 402 or 500, which carries
    none of these fields. *)
Theorem conversation_never_writes
  (req : HttpRequest) (w w0 w1 : World) (intentRes chatRes : Response) :
  http_method req <> "OPTIONS" ->
  Js.truthy LOVABLE_API_KEY = true ->
  respond (intent_request (Js.or_else LOVABLE_API_KEY "") (http_json req)) w
    = (intentRes, w0) ->
  ok intentRes = true ->
  intent_of intentRes <> "code" ->
  respond (chat_request (Js.or_else LOVABLE_API_KEY "") (http_json req)) w0
    = (chatRes, w1) ->
  trace (serve req w)
    = [ Call (intent_request (Js.or_else LOVABLE_API_KEY "") (http_json req))
          intentRes;
        Call (chat_request (Js.or_else LOVABLE_API_KEY "") (http_json req))
          chatRes ] /\
  writes (trace (serve req w)) = [] /\
  (ok chatRes = true ->
   outcome (serve req w)
     = Value (json (Answer
         (Js.or_else (completion (data chatRes))
            "Desculpa, não entendi. Pode repetir?") [] None None))) /\
  (ok chatRes = false ->
   exists (st : Z) (msg : string),
     outcome (serve req w) = Value (failure st msg) /\
     (st = 429 \/ st = 402 \/ st = 500)).
Proof.
  intros Hmethod Hkey Hintent Hok Hnot Hchat.
  apply String.eqb_neq in Hmethod. apply String.eqb_neq in Hnot.
  pose proof (classify_run _ _ _ Hintent Hok) as Hclassify.
  pose proof (chat_mode_run _ _ _ Hchat) as Hmode.
  assert (Hrun : serve req w
    = (match outcome (chat_mode (Js.or_else LOVABLE_API_KEY "")
                        (http_json req) w0) with
       | Value a => Value a
       | Throw e => Value (failure 500 ("Erro: " +++ errMsg e))
       end, w1,
       [ Call (intent_request (Js.or_else LOVABLE_API_KEY "") (http_json req))
           intentRes;
         Call (chat_request (Js.or_else LOVABLE_API_KEY "") (http_json req))
           chatRes ])).
  { unfold serve. rewrite Hmethod.
    unfold try_catch, handle. rewrite Hkey.
    rewrite bind_value with (1 := Hclassify). rewrite Hnot. simpl.
    rewrite Hmode. unfold outcome, world_after, trace. simpl.
    destruct (ok chatRes); [reflexivity |].
    destruct (status chatRes =? 429); [reflexivity |].
    destruct (status chatRes =? 402); reflexivity. }
  rewrite Hrun, Hmode. unfold outcome, trace. simpl.
  split; [reflexivity |]. split; [reflexivity |]. split.
  - intros ->. reflexivity.
  - intros ->. destruct (status chatRes =? 429).
    + eexists _, _. split; [reflexivity | auto].
    + destruct (status chatRes =? 402).
      * eexists _, _. split; [reflexivity | auto].
      * eexists _, _. split; [reflexivity | auto].
Qed.

End IntentGate.

(** A platform whose generator output never parses, for runs that stay in
    chat mode. *)
Definition chatty : Platform :=
  Script.platform (fun _ => None) (fun _ => None) (Some "key").

Lemma conversation_never_writes_witness :
  trace (@serve chatty (post (ask "oi tudo bem?"))
           [ Script.says (" Chat" +++ Js.nl); Script.says "Oi!" ])
    = [ Call (@intent_request "key" (ask "oi tudo bem?"))
          (Script.says (" Chat" +++ Js.nl));
        Call (@chat_request "key" (ask "oi tudo bem?")) (Script.says "Oi!") ] /\
  outcome (@serve chatty (post (ask "oi tudo bem?"))
             [ Script.says (" Chat" +++ Js.nl); Script.says "Oi!" ])
    = Value (json (Answer "Oi!" [] None None)).
Proof.
  destruct (@conversation_never_writes chatty (post (ask "oi tudo bem?"))
              [ Script.says (" Chat" +++ Js.nl); Script.says "Oi!" ]
              [ Script.says "Oi!" ] []
              (Script.says (" Chat" +++ Js.nl)) (Script.says "Oi!"))
    as [Htrace [_ [Hgood _]]].
  - discriminate.
  - reflexivity.
  - reflexivity.
  - reflexivity.
  - discriminate.
  - reflexivity.
  - split; [exact Htrace | apply Hgood; reflexivity].
Defined.

(** C2 as stated fails where the chat call is refused: the intent is not the
    edit token, and the reply is an error that carries neither a list of
    changed files nor a commit identifier. *)
Lemma refused_chat_reply_carries_no_files :
  intent_of (Script.says "chat") <> "code" /\
  outcome (@serve chatty (post (ask "oi"))
             [ Script.says "chat"; Script.refused 429 ])
    = Value {| reply_status := 429;
               reply_body :=
                 Failure "Muitas requisições, espera um pouquinho! 😅" |} /\
  ~ (exists st text sha msg,
       outcome (@serve chatty (post (ask "oi"))
                  [ Script.says "chat"; Script.refused 429 ])
       = Value {| reply_status := st;
                  reply_body := Answer text [] sha msg |}).
Proof.
  assert (Hrun : outcome (@serve chatty (post (ask "oi"))
                            [ Script.says "chat"; Script.refused 429 ])
    = Value {| reply_status := 429;
               reply_body :=
                 Failure "Muitas requisições, espera um pouquinho! 😅" |})
    by reflexivity.
  split; [discriminate |]. split; [exact Hrun |].
  intros [st [text [sha [msg Habs]]]]. rewrite Hrun in Habs.
  discriminate Habs.
Qed.

(** *** The relevance selection *)

Section Selection.
Context `{Platform}.

Lemma filter_all {A} (f : A -> bool) (l : list A) :
  (forall x, In x l -> f x = true) -> filter f l = l.
Proof.
  induction l as [| a l IH]; intros Hall; simpl; [reflexivity |].
  rewrite (Hall a (or_introl eq_refl)). f_equal.
  apply IH. intros x Hx. apply Hall. right. exact Hx.
Qed.

Lemma In_firstn {A} (n : nat) (l : list A) (x : A) :
  In x (firstn n l) -> In x l.
Proof.
  revert l. induction n as [| n IH]; intros [| a l]; simpl; try tauto.
  intros [-> | Hx]; auto.
Qed.

(** The fallback only holds paths of the tree, so that the last filter of
    the selection keeps all of it. *)
Lemma fallback_selection_exists (allFiles : list string) :
  filter (fun f => Js.mem f allFiles) (fallback_selection allFiles)
    = fallback_selection allFiles.
Proof.
  apply filter_all. intros f Hf. apply mem_In.
  unfold fallback_selection in Hf. apply In_firstn in Hf.
  apply filter_In in Hf. tauto.
Qed.

Lemma has_code_ext_spec (f : string) :
  has_code_ext f = true <->
  exists ext pre, In ext codeExts /\ f = pre +++ ext.
Proof.
  unfold has_code_ext. rewrite existsb_exists. split.
  - intros [ext [Hext Hends]]. apply JsFacts.endsWith_spec in Hends.
    destruct Hends as [pre Hpre]. eauto.
  - intros [ext [pre [Hext Hpre]]]. exists ext. split; [exact Hext |].
    apply JsFacts.endsWith_spec. eauto.
Qed.

(** C8.  When the answer of the selection call, with its code fences
    stripped, does not parse, or parses to the empty list, the selected
    files are the fallback: the paths of the tree that end in one of the
    eleven listed extensions, in the order of the tree, cut after the first
    12.  A path of the tree is kept by the filter exactly when it ends in one
    of these extensions, so that a tree with 12 such paths or fewer has all of
    them selected. *)
Theorem malformed_selection_falls_back
  (allFiles : list string) (selectionRes : Response) :
  parse_paths (strip_fences (Js.or_else (completion (data selectionRes)) "[]"))
    = None \/
  parse_paths (strip_fences (Js.or_else (completion (data selectionRes)) "[]"))
    = Some [] ->
  select allFiles selectionRes
    = firstn 12 (filter has_code_ext allFiles) /\
  (List.length (select allFiles selectionRes) <= 12)%nat /\
  (forall f, In f (select allFiles selectionRes) ->
     In f allFiles /\
     exists ext pre, In ext codeExts /\ f = pre +++ ext) /\
  (forall f,
     has_code_ext f = true <->
     exists ext pre,
       In ext [ ".html"; ".css"; ".js"; ".jsx"; ".ts"; ".tsx"; ".json"; ".py";
                ".vue"; ".svelte"; ".scss" ] /\
       f = pre +++ ext) /\
  ((List.length (filter has_code_ext allFiles) <= 12)%nat ->
   forall f ext pre,
     In f allFiles ->
     In ext [ ".html"; ".css"; ".js"; ".jsx"; ".ts"; ".tsx"; ".json"; ".py";
              ".vue"; ".svelte"; ".scss" ] ->
     f = pre +++ ext ->
     In f (select allFiles selectionRes)).
Proof.
  intros Hparse.
  assert (Hsel : select allFiles selectionRes = fallback_selection allFiles).
  { unfold select, parsed_selection.
    destruct (ok selectionRes); [| apply fallback_selection_exists].
    destruct Hparse as [Hparse | Hparse]; rewrite Hparse;
      apply fallback_selection_exists. }
  rewrite Hsel. unfold fallback_selection.
  split; [reflexivity |]. split; [apply firstn_le_length |].
  split; [| split].
  - intros f Hf. apply In_firstn in Hf. apply filter_In in Hf.
    destruct Hf as [Hin Hext]. split; [exact Hin |].
    apply has_code_ext_spec. exact Hext.
  - exact has_code_ext_spec.
  - intros Hfew f ext pre Hin Hext Hpre.
    rewrite firstn_all2 by exact Hfew. apply filter_In.
    split; [exact Hin |]. apply has_code_ext_spec. exists ext, pre.
    split; [exact Hext | exact Hpre].
Qed.

(** C9, as the handler has it.  When the answer of the selection call
    parses to a list of paths that is not empty, the selected files are the
    paths of that list that the tree holds as blobs, in the order of the
    list: every selected path is a blob of the tree, and there are at most
    as many of them as the answer listed.  The handler sets no bound of its
    own on their number. *)
Theorem parsed_selection_is_filtered
  (tree : Data) (selectionRes : Response) (listed : list string) :
  ok selectionRes = true ->
  parse_paths (strip_fences (Js.or_else (completion (data selectionRes)) "[]"))
    = Some listed ->
  listed <> [] ->
  select (allFiles_of tree) selectionRes
    = filter (fun f => Js.mem f (allFiles_of tree)) listed /\
  (List.length (select (allFiles_of tree) selectionRes)
     <= List.length listed)%nat /\
  (forall f, In f (select (allFiles_of tree) selectionRes) ->
     In f listed /\
     exists entries entry,
       Http.tree tree = Some entries /\ In entry entries /\
       entry_type entry = "blob" /\ entry_path entry = f).
Proof.
  intros Hok Hparse Hlisted.
  assert (Hsel : select (allFiles_of tree) selectionRes
    = filter (fun f => Js.mem f (allFiles_of tree)) listed).
  { unfold select, parsed_selection. rewrite Hok, Hparse.
    destruct listed; [contradiction | reflexivity]. }
  rewrite Hsel. split; [reflexivity |]. split; [apply filter_length_le |].
  intros f Hf. apply filter_In in Hf. destruct Hf as [Hin Hmem].
  split; [exact Hin |]. apply mem_In in Hmem.
  unfold allFiles_of in Hmem.
  destruct (Http.tree tree) as [entries |]; [| contradiction].
  apply in_map_iff in Hmem. destruct Hmem as [entry [Hpath Hentry]].
  apply filter_In in Hentry. destruct Hentry as [Hentry Hblob].
  apply String.eqb_eq in Hblob. exists entries, entry. auto.
Qed.

End Selection.

(** A tree of [n] source files and a picture. *)
Definition sources (n : nat) : list string :=
  map (fun k => "src/f" +++ Js.of_Z (Z.of_nat k) +++ ".ts") (seq 1 n).

(** A tree of 14 source files, a picture and a style sheet: the fallback
    takes the first 12 that end in a listed extension and passes over the
    picture. *)
Lemma malformed_selection_falls_back_witness :
  @select chatty ("logo.png" :: "app.css" :: sources 14)
    (Script.says "not json")
    = [ "app.css"; "src/f1.ts"; "src/f2.ts"; "src/f3.ts"; "src/f4.ts";
        "src/f5.ts"; "src/f6.ts"; "src/f7.ts"; "src/f8.ts"; "src/f9.ts";
        "src/f10.ts"; "src/f11.ts" ] /\
  @has_code_ext "src/f12.ts" = true /\
  @has_code_ext "logo.png" = false.
Proof.
  destruct (@malformed_selection_falls_back chatty
              ("logo.png" :: "app.css" :: sources 14)
              (Script.says "not json")) as [Hsel [_ [_ [Hext _]]]].
  - left. reflexivity.
  - split; [rewrite Hsel; reflexivity |]. split.
    + apply Hext. exists ".ts", "src/f12". split; [| reflexivity].
      right. right. right. right. left. reflexivity.
    + reflexivity.
Defined.

(** A generator that lists every file of the tree, whatever it is asked. *)
Definition eager (paths : list string) : Platform :=
  Script.platform (fun _ => Some paths) (fun _ => None) (Some "key").

Lemma parsed_selection_is_filtered_witness :
  @select (eager [ "src/f2.ts"; "README.md"; "gone.ts" ])
    (allFiles_of (data (Script.blobs ("README.md" :: sources 3))))
    (Script.says "[...]")
    = [ "src/f2.ts"; "README.md" ].
Proof.
  destruct (@parsed_selection_is_filtered
              (eager [ "src/f2.ts"; "README.md"; "gone.ts" ])
              (data (Script.blobs ("README.md" :: sources 3)))
              (Script.says "[...]")
              [ "src/f2.ts"; "README.md"; "gone.ts" ]) as [Hsel _].
  - reflexivity.
  - reflexivity.
  - discriminate.
  - rewrite Hsel. reflexivity.
Defined.

(** C9 as stated fails on an answer that lists 16 paths of the tree: all 16
    are selected. *)
Lemma sixteen_listed_paths_are_selected :
  ok (Script.says "[...]") = true /\
  @parse_paths (eager (sources 16))
    (@strip_fences (Js.or_else (completion (data (Script.says "[...]"))) "[]"))
    = Some (sources 16) /\
  sources 16 <> [] /\
  List.length
    (@select (eager (sources 16))
       (allFiles_of (data (Script.blobs (sources 16)))) (Script.says "[...]"))
    = 16%nat /\
  ~ (List.length
       (@select (eager (sources 16))
          (allFiles_of (data (Script.blobs (sources 16))))
          (Script.says "[...]")) <= 15)%nat.
Proof.
  assert (Hlen : List.length
    (@select (eager (sources 16))
       (allFiles_of (data (Script.blobs (sources 16)))) (Script.says "[...]"))
    = 16%nat) by reflexivity.
  split; [reflexivity |]. split; [reflexivity |]. split; [discriminate |].
  split; [exact Hlen |]. rewrite Hlen. lia.
Qed.

(** *** The context *)

Section Loading.
Context `{Platform}.

Definition load_request (rq : Input) (fp : string) : Request :=
  get (contents_url (repo_owner rq) (repo_name rq) (encodeURIComponent fp))
    (github_token rq).

(** What [getFileContent] makes of the answer to its call. *)
Definition decoded (res : Response) : Outcome (option File) :=
  if negb (ok res) then Value None
  else if Js.same (encoding (data res)) "base64" then
    match data_content (data res) with
    | None =>
        Throw (Error "Cannot read properties of undefined (reading 'replace')")
    | Some c =>
        match atob (Js.remove_newlines c) with
        | Throw e => Throw e
        | Value raw =>
            Value (Some {| file_content :=
                             match decode_utf8 raw with
                             | Some text => text
                             | None => raw
                             end;
                           file_sha := data_sha (data res);
                           file_path := data_path (data res) |})
        end
    end
  else Value None.

Lemma getFileContent_run owner name p token w res w1 :
  respond (get (contents_url owner name (encodeURIComponent p)) token) w
    = (res, w1) ->
  getFileContent owner name p token w
    = (decoded res, w1,
       [ Call (get (contents_url owner name (encodeURIComponent p)) token)
           res ]).
Proof.
  intros Hres. unfold getFileContent, decoded, bind at 1, fetch.
  rewrite Hres. destruct (negb (ok res)); [reflexivity |].
  destruct (Js.same (encoding (data res)) "base64"); [| reflexivity].
  unfold try_catch, bind, content_without_newlines, lift, ret, throw.
  destruct (data_content (data res)) as [c |]; [| reflexivity].
  destruct (atob (Js.remove_newlines c)) as [raw | e]; [| reflexivity].
  destruct (decode_utf8 raw); reflexivity.
Qed.

(** The files an answer adds to the context. *)
Definition contribution (res : Response) : list File :=
  match decoded res with
  | Value (Some f) => if small_enough f then [ f ] else []
  | _ => []
  end.



















End Loading.

(** Three selected paths; the second one is missing from the repository. *)
Example missing_file_is_left_out :
  outcome (@load_files chatty (ask "x") [ "a.ts"; "gone.ts"; "b.ts" ]
             [ Script.file "a.ts" "let a;" "s1"; Script.refused 404;
               Script.file "b.ts" "let b;" "s2" ])
    = Value [ {| file_content := "let a;"; file_sha := Some "s1";
                 file_path := Some "a.ts" |};
              {| file_content := "let b;"; file_sha := Some "s2";
                 file_path := Some "b.ts" |} ] /\
  match outcome (@load_files chatty (ask "x") [ "a.ts"; "gone.ts"; "b.ts" ]
                   [ Script.file "a.ts" "let a;" "s1"; Script.refused 404;
                     Script.file "b.ts" "let b;" "s2" ]) with
  | Value fileContents => fileContext_of fileContents
  | Throw _ => ""
  end
  = "=== a.ts ===" +++ Js.nl +++ "let a;" +++ Js.nl +++ Js.nl
      +++ "=== b.ts ===" +++ Js.nl +++ "let b;".
Proof. split; reflexivity. Qed.

(** A world in which the answer for [a.ts] is the last to arrive, and a
    runtime whose [atob] refuses text that holds a star. *)
Definition slow_first : Platform :=
  {| World := list Response;
     respond := Script.play;
     arrival := fun req _ => if Js.endsWith (url req) "a.ts" then 2%nat
                             else 1%nat;
     atob := fun s => if Js.includes s "*"
                      then Throw (Error "Failed to decode base64.")
                      else Value s;
     decode_utf8 := fun s => Some s;
     btoa_utf8 := fun s => s;
     encodeURIComponent := fun s => s;
     parse_paths := fun _ => None;
     parse_change_set := fun _ => None;
     LOVABLE_API_KEY := Some "key" |}.

(** The answers are handled as they arrive: the file whose answer comes
    last is the last of the context. *)
Example later_answer_comes_last :
  outcome (@load_files slow_first (ask "x") [ "a.ts"; "b.ts"; "c.ts" ]
             [ Script.file "a.ts" "let a;" "s1";
               Script.file "b.ts" "let b;" "s2";
               Script.file "c.ts" "let c;" "s3" ])
    = Value [ {| file_content := "let b;"; file_sha := Some "s2";
                 file_path := Some "b.ts" |};
              {| file_content := "let c;"; file_sha := Some "s3";
                 file_path := Some "c.ts" |};
              {| file_content := "let a;"; file_sha := Some "s1";
                 file_path := Some "a.ts" |} ].
Proof. reflexivity. Qed.

(** An edit request on a repository of two files, both selected by the
    fallback; the content of the first is not base64. *)
Definition undecodable_first : list Response :=
  [ Script.says "code"; Script.repo "main"; Script.blobs [ "a.ts"; "b.ts" ];
    Script.says "[]"; Script.file "a.ts" "bGV0*" "s1";
    Script.file "b.ts" "bGV0IGI7" "s2"; Script.says "{}" ].

(** C10 fails on the code.  A selected path whose load throws is not left
    out of the context: the loads of both paths are issued, the one of
    [a.ts] throws, in the [try] block of [getFileContent] and again in its
    [catch] block, and the run ends there with status 500, before any
    generation call, although the answer for [b.ts] alone would have put
    that file in the context. *)
Lemma undecodable_file_fails_the_run :
  @serve slow_first (post (ask "muda a cor")) undecodable_first
    = (Value (failure 500 "Erro: Failed to decode base64."),
       [ Script.says "{}" ],
       [ Call (@intent_request "key" (ask "muda a cor")) (Script.says "code");
         Call (get (github +++ "o/r") "t") (Script.repo "main");
         Call (get (github +++ "o/r/git/trees/main?recursive=1") "t")
           (Script.blobs [ "a.ts"; "b.ts" ]);
         Call (@selection_request "key" (ask "muda a cor") [ "a.ts"; "b.ts" ])
           (Script.says "[]");
         Call (@load_request slow_first (ask "muda a cor") "a.ts")
           (Script.file "a.ts" "bGV0*" "s1");
         Call (@load_request slow_first (ask "muda a cor") "b.ts")
           (Script.file "b.ts" "bGV0IGI7" "s2") ]) /\
  ok (Script.file "a.ts" "bGV0*" "s1") = true /\
  @contribution slow_first (Script.file "b.ts" "bGV0IGI7" "s2")
    = [ {| file_content := "bGV0IGI7"; file_sha := Some "s2";
           file_path := Some "b.ts" |} ].
Proof. repeat split. Qed.

(** *** The commit loop *)

Section CommitLoop.
Context `{Platform}.

Variable rq : Input.
Variable branch : string.
Variable parsed : ChangeSet.

(** The write request of [commitFile] for the path [p], the content [c] and
    the marker of the fresh file. *)
Definition fresh_sha (freshFile : option File) : option string :=
  match freshFile with
  | Some f => Js.or_null (file_sha f)
  | None => None
  end.

Definition put_request (p c : string) (freshFile : option File) : Request :=
  {| method := PUT;
     url := contents_url (repo_owner rq) (repo_name rq) (encodeURIComponent p);
     bearer := github_token rq;
     body := PutBody (Js.or_else (commit_message parsed) "update via JTC COD")
               (btoa_utf8 c) (Some branch)
               (if Js.truthy (fresh_sha freshFile) then fresh_sha freshFile
                else None) |}.

Definition save_error (p : string) (res : Response) : Exn :=
  Error ("Falha ao salvar " +++ p +++ " no GitHub (status "
           +++ Js.of_Z (status res) +++ ")").

Lemma commitFile_run p c freshFile w res w1 :
  respond (put_request p c freshFile) w = (res, w1) ->
  commitFile (repo_owner rq) (repo_name rq) p c (fresh_sha freshFile)
    (Js.or_else (commit_message parsed) "update via JTC COD") branch
    (github_token rq) w
  = (if ok res then Value (data res) else Throw (save_error p res), w1,
     [ Call (put_request p c freshFile) res ]).
Proof.
  intros Hres. unfold commitFile, bind, fetch. unfold put_request in Hres.
  rewrite Hres. destruct (ok res); reflexivity.
Qed.

(** The run of the [try] block of one change: the fresh read, then, unless
    the read threw, the write with the marker just read. *)
Lemma commit_change_run p c w res0 w0 :
  respond (load_request rq p) w = (res0, w0) ->
  commit_change rq branch parsed p c w
  = match decoded res0 with
    | Throw e => (Throw e, w0, [ Call (load_request rq p) res0 ])
    | Value freshFile =>
        let (res, w1) := respond (put_request p c freshFile) w0 in
        (if ok res then Value (Js.or_null (Http.commit_sha (data res)))
         else Throw (save_error p res), w1,
         [ Call (load_request rq p) res0;
           Call (put_request p c freshFile) res ])
    end.
Proof.
  intros Hres0. unfold commit_change.
  pose proof (getFileContent_run _ _ _ _ _ Hres0) as Hget.
  unfold bind at 1. rewrite Hget.
  destruct (decoded res0) as [freshFile | e]; [| reflexivity].
  destruct (respond (put_request p c freshFile) w0) as [res w1] eqn:Hres.
  pose proof (commitFile_run _ _ _ _ Hres) as Hput.
  unfold bind at 1. fold (fresh_sha freshFile). rewrite Hput.
  destruct (ok res); reflexivity.
Qed.

(** One turn of the loop never throws: it records the path as changed when
    the [try] block returns and the error when it throws. *)
Lemma apply_change_run p c acc w :
  apply_change rq branch parsed p c acc w
  = (match outcome (commit_change rq branch parsed p c w) with
     | Value sha => Value (committed acc p sha)
     | Throw e => Value (failed acc p e)
     end,
     world_after (commit_change rq branch parsed p c w),
     trace (commit_change rq branch parsed p c w)).
Proof.
  unfold apply_change, try_catch, bind at 1.
  destruct (commit_change rq branch parsed p c w) as [[[sha | e] w1] t];
    simpl; rewrite app_nil_r; reflexivity.
Qed.

(** A change the loop does not skip. *)
Definition complete (change : Change) : bool :=
  Js.truthy (path change) && Js.truthy (content change).

Lemma apply_changes_skip change rest acc :
  complete change = false ->
  apply_changes rq branch parsed (change :: rest) acc
    = apply_changes rq branch parsed rest acc.
Proof.
  unfold complete, Js.truthy. simpl.
  destruct (path change) as [p |], (content change) as [c |]; try reflexivity.
  destruct (p =? "")%string, (c =? "")%string; simpl; try reflexivity.
  discriminate.
Qed.

Lemma apply_changes_step p c rest acc :
  p <> "" -> c <> "" ->
  apply_changes rq branch parsed
    ({| path := Some p; content := Some c |} :: rest) acc
  = (acc' <- apply_change rq branch parsed p c acc ;;
     apply_changes rq branch parsed rest acc').
Proof.
  intros Hp Hc. simpl.
  apply String.eqb_neq in Hp. apply String.eqb_neq in Hc.
  rewrite Hp, Hc. reflexivity.
Qed.

(** The loop never throws. *)
Lemma apply_changes_returns cs :
  forall acc w, exists acc',
    outcome (apply_changes rq branch parsed cs acc w) = Value acc'.
Proof.
  induction cs as [| change rest IH]; intros acc w.
  - exists acc. reflexivity.
  - destruct (complete change) eqn:Hcomplete.
    + unfold complete in Hcomplete. apply andb_true_iff in Hcomplete.
      destruct change as [[p |] [c |]]; simpl in Hcomplete;
        try (destruct Hcomplete; discriminate).
      destruct Hcomplete as [Hp Hc].
      apply negb_true_iff in Hp. apply negb_true_iff in Hc.
      apply String.eqb_neq in Hp. apply String.eqb_neq in Hc.
      rewrite apply_changes_step by assumption. unfold bind.
      rewrite apply_change_run.
      destruct (outcome (commit_change rq branch parsed p c w)) as [sha | e].
      * destruct (IH (committed acc p sha)
                    (world_after (commit_change rq branch parsed p c w)))
          as [acc' Hacc'].
        exists acc'.
        destruct (apply_changes rq branch parsed rest _ _) as [[r w2] t2].
        exact Hacc'.
      * destruct (IH (failed acc p e)
                    (world_after (commit_change rq branch parsed p c w)))
          as [acc' Hacc'].
        exists acc'.
        destruct (apply_changes rq branch parsed rest _ _) as [[r w2] t2].
        exact Hacc'.
    + rewrite apply_changes_skip by exact Hcomplete. apply IH.
Qed.

Lemma apply_changes_total cs acc w :
  exists acc' w1 t,
    apply_changes rq branch parsed cs acc w = (Value acc', w1, t).
Proof.
  destruct (apply_changes_returns cs acc w) as [acc' Hacc'].
  destruct (apply_changes rq branch parsed cs acc w) as [[r w1] t].
  unfold outcome in Hacc'. simpl in Hacc'. subst r. eauto.
Qed.

(** The loop over a list in two parts is the loop over the first part,
    then the loop over the second from where the first one ended. *)
Lemma apply_changes_app before after :
  forall acc w acc1 w1 t1,
    apply_changes rq branch parsed before acc w = (Value acc1, w1, t1) ->
    apply_changes rq branch parsed (before ++ after) acc w
    = (outcome (apply_changes rq branch parsed after acc1 w1),
       world_after (apply_changes rq branch parsed after acc1 w1),
       t1 ++ trace (apply_changes rq branch parsed after acc1 w1)).
Proof.
  induction before as [| change rest IH]; intros acc w acc1 w1 t1 Hrun.
  - inversion Hrun; subst. simpl.
    destruct (apply_changes rq branch parsed after acc1 w1) as [[r w2] t2].
    reflexivity.
  - destruct (complete change) eqn:Hcomplete.
    + unfold complete in Hcomplete. apply andb_true_iff in Hcomplete.
      destruct change as [[p |] [c |]]; simpl in Hcomplete;
        try (destruct Hcomplete; discriminate).
      destruct Hcomplete as [Hp Hc].
      apply negb_true_iff in Hp. apply negb_true_iff in Hc.
      apply String.eqb_neq in Hp. apply String.eqb_neq in Hc.
      rewrite <- app_comm_cons.
      rewrite apply_changes_step in Hrun |- * by assumption.
      unfold bind in Hrun |- *. rewrite apply_change_run in Hrun |- *.
      set (acc0 := match outcome (commit_change rq branch parsed p c w) with
                   | Value sha => committed acc p sha
                   | Throw e => failed acc p e
                   end) in *.
      assert (Hacc0 :
        match outcome (commit_change rq branch parsed p c w) with
        | Value sha => Value (committed acc p sha)
        | Throw e => Value (failed acc p e)
        end = Value acc0).
      { unfold acc0.
        destruct (outcome (commit_change rq branch parsed p c w));
          reflexivity. }
      rewrite Hacc0 in Hrun |- *.
      destruct (apply_changes rq branch parsed rest acc0 _)
        as [[r w2] t2] eqn:Hrest.
      inversion Hrun; subst.
      rewrite (IH _ _ _ _ _ Hrest). rewrite app_assoc. reflexivity.
    + rewrite <- app_comm_cons.
      rewrite apply_changes_skip in Hrun |- * by exact Hcomplete.
      apply IH. exact Hrun.
Qed.

(** What the loop has recorded stays recorded. *)
Definition extends (acc acc' : Applied) : Prop :=
  (exists more, filesChanged acc' = filesChanged acc ++ more) /\
  (exists more, errors acc' = errors acc ++ more).

Lemma extends_refl acc : extends acc acc.
Proof. split; exists []; rewrite app_nil_r; reflexivity. Qed.

Lemma extends_trans a b c : extends a b -> extends b c -> extends a c.
Proof.
  intros [[m1 H1] [n1 G1]] [[m2 H2] [n2 G2]]. split.
  - exists (m1 ++ m2). rewrite H2, H1, app_assoc. reflexivity.
  - exists (n1 ++ n2). rewrite G2, G1, app_assoc. reflexivity.
Qed.

Lemma apply_changes_extends cs :
  forall acc w acc' w1 t,
    apply_changes rq branch parsed cs acc w = (Value acc', w1, t) ->
    extends acc acc'.
Proof.
  induction cs as [| change rest IH]; intros acc w acc' w1 t Hrun.
  - inversion Hrun; subst. apply extends_refl.
  - destruct (complete change) eqn:Hcomplete.
    + unfold complete in Hcomplete. apply andb_true_iff in Hcomplete.
      destruct change as [[p |] [c |]]; simpl in Hcomplete;
        try (destruct Hcomplete; discriminate).
      destruct Hcomplete as [Hp Hc].
      apply negb_true_iff in Hp. apply negb_true_iff in Hc.
      apply String.eqb_neq in Hp. apply String.eqb_neq in Hc.
      rewrite apply_changes_step in Hrun by assumption.
      unfold bind in Hrun. rewrite apply_change_run in Hrun.
      destruct (outcome (commit_change rq branch parsed p c w)) as [sha | e];
        destruct (apply_changes rq branch parsed rest _ _)
          as [[r w2] t2] eqn:Hrest;
        inversion Hrun; subst;
        (eapply extends_trans; [| exact (IH _ _ _ _ _ Hrest)]).
      * split; [exists [p] | exists []; rewrite app_nil_r]; reflexivity.
      * split; [exists []; rewrite app_nil_r | eexists]; reflexivity.
    + rewrite apply_changes_skip in Hrun by exact Hcomplete.
      exact (IH _ _ _ _ _ Hrun).
Qed.

(** The text of the response, by what the loop recorded. *)
Lemma append_not_empty (a b : string) :
  a <> "" -> (a +++ b =? "")%string = false.
Proof.
  intros Ha. destruct a as [| ch a]; [contradiction | reflexivity].
Qed.

Lemma append_not_empty_l (a b : string) : a <> "" -> a +++ b <> "".
Proof.
  intros Ha. destruct a as [| ch a]; [contradiction | discriminate].
Qed.

Lemma or_else_not_empty (o : option string) (d : string) :
  d <> "" -> Js.or_else o d <> "".
Proof.
  intros Hd. unfold Js.or_else. destruct o as [s |]; [| exact Hd].
  destruct (s =? "")%string eqn:Hs; [exact Hd |].
  apply String.eqb_neq. exact Hs.
Qed.

Lemma build_response_cases (acc : Applied) :
  build_response parsed acc
  = match filesChanged acc, errors acc with
    | [], [] => "Algo deu errado, não consegui processar. Tenta de novo?"
    | [], _ :: _ => hard_failure_text acc
    | _ :: _, [] => success_text parsed acc
    | _ :: _, _ :: _ => success_text parsed acc +++ warning_text acc
    end.
Proof.
  assert (Hsuccess : success_text parsed acc <> "").
  { unfold success_text. apply append_not_empty_l.
    apply or_else_not_empty. discriminate. }
  unfold build_response.
  destruct (filesChanged acc) as [| f fs], (errors acc) as [| e es]; simpl.
  - reflexivity.
  - reflexivity.
  - apply String.eqb_neq in Hsuccess. rewrite Hsuccess. reflexivity.
  - rewrite (append_not_empty _ Hsuccess). reflexivity.
Qed.

(** The handler on a change set that passed the safety check. *)
Lemma apply_change_set_accepted cs w acc w1 t :
  changes parsed = Some cs -> cs <> [] -> find unsafe cs = None ->
  apply_changes rq branch parsed cs nothing_applied w = (Value acc, w1, t) ->
  apply_change_set rq branch parsed w
  = (Value (json (Answer (build_response parsed acc) (filesChanged acc)
                    (lastCommitSha acc) (commit_message parsed))), w1, t).
Proof.
  intros Hchanges Hcs Hsafe Hrun. unfold apply_change_set.
  rewrite Hchanges. destruct cs as [| c0 cs']; [contradiction |].
  rewrite Hsafe. unfold bind. rewrite Hrun. simpl.
  rewrite app_nil_r. reflexivity.
Qed.

(** C4.  In a change set that passed the safety check, take any change with
    a path and a content.  Whatever happens to it, the loop goes through the
    changes before it, through the change, and through the changes after it,
    and the handler answers with what was recorded along the way.  When the
    write of the change is refused, its path and the error message are in the
    error list; when the write is accepted, its path is in the list of
    changed files.  The text of the response is the success text when files
    changed and none failed: the explanation, the list of the changed files
    and the short identifier of the last commit.  When files changed and
    some failed it is that text followed by the warning, which lists each
    failed path with its error message; when none changed and some failed
    it is the hard failure text, which lists them too and points to the
    permission of the token. *)
Theorem failed_write_is_isolated
  (before after : list Change) (p c : string) (w : World) :
  p <> "" -> c <> "" ->
  changes parsed
    = Some (before ++ {| path := Some p; content := Some c |} :: after) ->
  find unsafe (before ++ {| path := Some p; content := Some c |} :: after)
    = None ->
  exists acc1 w1 t1 acc2 w2 t2 acc w3 t3,
    apply_changes rq branch parsed before nothing_applied w
      = (Value acc1, w1, t1) /\
    apply_change rq branch parsed p c acc1 w1 = (Value acc2, w2, t2) /\
    apply_changes rq branch parsed after acc2 w2 = (Value acc, w3, t3) /\
    apply_change_set rq branch parsed w
      = (Value (json (Answer (build_response parsed acc) (filesChanged acc)
                        (lastCommitSha acc) (commit_message parsed))),
         w3, t1 ++ t2 ++ t3) /\
    match outcome (commit_change rq branch parsed p c w1) with
    | Value sha => acc2 = committed acc1 p sha /\ In p (filesChanged acc)
    | Throw e =>
        acc2 = failed acc1 p e /\ In (p +++ ": " +++ errMsg e) (errors acc)
    end /\
    (forall res0 w0 freshFile res w',
       respond (load_request rq p) w1 = (res0, w0) ->
       decoded res0 = Value freshFile ->
       respond (put_request p c freshFile) w0 = (res, w') ->
       (ok res = false ->
        In (p +++ ": Falha ao salvar " +++ p +++ " no GitHub (status "
              +++ Js.of_Z (status res) +++ ")") (errors acc)) /\
       (ok res = true -> In p (filesChanged acc))) /\
    (forall f, In f (filesChanged acc1) -> In f (filesChanged acc)) /\
    (forall e, In e (errors acc1) -> In e (errors acc)) /\
    build_response parsed acc
    = match filesChanged acc, errors acc with
      | [], [] => "Algo deu errado, não consegui processar. Tenta de novo?"
      | [], _ :: _ =>
          "❌ Não consegui fazer as modificações." +++ Js.nl +++ Js.nl
            +++ Js.join Js.nl (map (fun e => "• " +++ e) (errors acc))
            +++ Js.nl +++ Js.nl
            +++ "Verifica se o token tem a permissão " +++ Js.dquote
            +++ "repo" +++ Js.dquote +++ " habilitada."
      | _ :: _, [] =>
          Js.or_else (explanation parsed) "Pronto, modificações aplicadas!"
            +++ Js.nl +++ Js.nl +++ "✅ Arquivos atualizados: "
            +++ Js.join ", " (filesChanged acc)
            +++ match lastCommitSha acc with
                | Some sha =>
                    if (sha =? "")%string then ""
                    else Js.nl +++ "🔗 Commit: `" +++ Js.slice7 sha +++ "`"
                | None => ""
                end
      | _ :: _, _ :: _ =>
          (Js.or_else (explanation parsed) "Pronto, modificações aplicadas!"
             +++ Js.nl +++ Js.nl +++ "✅ Arquivos atualizados: "
             +++ Js.join ", " (filesChanged acc)
             +++ match lastCommitSha acc with
                 | Some sha =>
                     if (sha =? "")%string then ""
                     else Js.nl +++ "🔗 Commit: `" +++ Js.slice7 sha +++ "`"
                 | None => ""
                 end)
            +++ Js.nl +++ Js.nl +++ "⚠️ Alguns arquivos falharam:" +++ Js.nl
            +++ Js.join Js.nl (map (fun e => "• " +++ e) (errors acc))
      end.
Proof.
  intros Hp Hc Hchanges Hsafe.
  destruct (apply_changes_total before nothing_applied w)
    as [acc1 [w1 [t1 Hbefore]]].
  pose proof (apply_change_run p c acc1 w1) as Hturn.
  set (acc2 := match outcome (commit_change rq branch parsed p c w1) with
               | Value sha => committed acc1 p sha
               | Throw e => failed acc1 p e
               end).
  assert (Hacc2 :
    match outcome (commit_change rq branch parsed p c w1) with
    | Value sha => Value (committed acc1 p sha)
    | Throw e => Value (failed acc1 p e)
    end = Value acc2).
  { unfold acc2.
    destruct (outcome (commit_change rq branch parsed p c w1)); reflexivity. }
  rewrite Hacc2 in Hturn.
  set (w2 := world_after (commit_change rq branch parsed p c w1)) in *.
  set (t2 := trace (commit_change rq branch parsed p c w1)) in *.
  destruct (apply_changes_total after acc2 w2) as [acc [w3 [t3 Hafter]]].
  assert (Hrest :
    apply_changes rq branch parsed
      ({| path := Some p; content := Some c |} :: after) acc1 w1
    = (Value acc, w3, t2 ++ t3)).
  { rewrite apply_changes_step by assumption. unfold bind.
    rewrite Hturn, Hafter. reflexivity. }
  assert (Hloop :
    apply_changes rq branch parsed
      (before ++ {| path := Some p; content := Some c |} :: after)
      nothing_applied w
    = (Value acc, w3, t1 ++ t2 ++ t3)).
  { rewrite apply_changes_app with (1 := Hbefore). rewrite Hrest.
    reflexivity. }
  destruct (apply_changes_extends _ _ _ Hafter) as [[m2 Hm2] [n2 Hn2]].
  assert (Hkept : match outcome (commit_change rq branch parsed p c w1) with
    | Value sha => acc2 = committed acc1 p sha /\ In p (filesChanged acc)
    | Throw e =>
        acc2 = failed acc1 p e /\ In (p +++ ": " +++ errMsg e) (errors acc)
    end).
  { unfold acc2 in *.
    destruct (outcome (commit_change rq branch parsed p c w1)) as [sha | e];
      (split; [reflexivity |]).
    - rewrite Hm2. simpl. rewrite !in_app_iff. simpl. auto.
    - rewrite Hn2. simpl. rewrite !in_app_iff. simpl. auto. }
  exists acc1, w1, t1, acc2, w2, t2, acc, w3, t3.
  split; [exact Hbefore |]. split; [exact Hturn |]. split; [exact Hafter |].
  split.
  { apply apply_change_set_accepted with (cs :=
      before ++ {| path := Some p; content := Some c |} :: after);
      try assumption.
    destruct before; discriminate. }
  split; [exact Hkept |]. split.
  { intros res0 w0 freshFile res w' Hres0 Hdec Hres.
    rewrite commit_change_run with (1 := Hres0) in Hkept.
    rewrite Hdec, Hres in Hkept.
    unfold outcome in Hkept. simpl in Hkept.
    split; intros Hok; rewrite Hok in Hkept; destruct Hkept as [_ Hin];
      exact Hin. }
  split.
  { intros f Hf. rewrite Hm2. apply in_or_app. left.
    unfold acc2.
    destruct (outcome (commit_change rq branch parsed p c w1)); simpl;
      [apply in_or_app; left |]; exact Hf. }
  split.
  { intros e He. rewrite Hn2. apply in_or_app. left.
    unfold acc2.
    destruct (outcome (commit_change rq branch parsed p c w1)); simpl;
      [| apply in_or_app; left]; exact He. }
  rewrite build_response_cases.
  unfold success_text, warning_text, hard_failure_text, bullets.
  reflexivity.
Qed.

(** *** The commit identifier of the response *)

(** The answers to the write calls of a run that were accepted, in order: one
    commit each. *)
Definition accepted_writes (t : list Event) : list Response :=
  flat_map (fun e =>
              match e with
              | Call req res =>
                  match method req with
                  | PUT => if ok res then [ res ] else []
                  | _ => []
                  end
              | Wait _ => []
              end) t.

(** The commit identifier the handler reads in the answer to a write. *)
Definition commit_of (res : Response) : option string :=
  Js.or_null (Http.commit_sha (data res)).

Lemma accepted_writes_app t1 t2 :
  accepted_writes (t1 ++ t2) = accepted_writes t1 ++ accepted_writes t2.
Proof. apply flat_map_app. Qed.

Lemma last_any_default {A} (l : list A) (a d d' : A) :
  last (a :: l) d = last (a :: l) d'.
Proof.
  revert a. induction l as [| b l IH]; intros a; [reflexivity |].
  change (last (b :: l) d = last (b :: l) d'). apply IH.
Qed.

Lemma last_app_default {A} (l1 l2 : list A) (d : A) :
  last (l1 ++ l2) d = last l2 (last l1 d).
Proof.
  destruct l2 as [| x l2]; [rewrite app_nil_r; reflexivity |].
  induction l1 as [| a l1 IH]; [reflexivity |].
  rewrite (last_any_default l2 x (last (a :: l1) d) (last l1 d)).
  rewrite <- IH. simpl. destruct (l1 ++ x :: l2) eqn:Hl; [| reflexivity].
  destruct l1; discriminate Hl.
Qed.

Lemma commit_change_commits p c w :
  match outcome (commit_change rq branch parsed p c w) with
  | Value sha =>
      exists res,
        accepted_writes (trace (commit_change rq branch parsed p c w))
          = [ res ] /\
        sha = commit_of res
  | Throw _ =>
      accepted_writes (trace (commit_change rq branch parsed p c w)) = []
  end.
Proof.
  destruct (respond (load_request rq p) w) as [res0 w0] eqn:Hres0.
  rewrite commit_change_run with (1 := Hres0).
  destruct (decoded res0) as [freshFile | e]; [| reflexivity].
  destruct (respond (put_request p c freshFile) w0) as [res w1].
  unfold outcome, trace, accepted_writes. simpl.
  destruct (ok res) eqn:Hok; simpl; rewrite ?Hok; [| reflexivity].
  exists res. split; reflexivity.
Qed.

Lemma apply_changes_commits cs :
  forall acc w acc' w1 t,
    apply_changes rq branch parsed cs acc w = (Value acc', w1, t) ->
    List.length (filesChanged acc')
      = (List.length (filesChanged acc)
         + List.length (accepted_writes t))%nat /\
    lastCommitSha acc'
      = last (map commit_of (accepted_writes t)) (lastCommitSha acc).
Proof.
  induction cs as [| change rest IH]; intros acc w acc' w1 t Hrun.
  - inversion Hrun; subst. simpl. split; [lia | reflexivity].
  - destruct (complete change) eqn:Hcomplete.
    + unfold complete in Hcomplete. apply andb_true_iff in Hcomplete.
      destruct change as [[p |] [c |]]; simpl in Hcomplete;
        try (destruct Hcomplete; discriminate).
      destruct Hcomplete as [Hp Hc].
      apply negb_true_iff in Hp. apply negb_true_iff in Hc.
      apply String.eqb_neq in Hp. apply String.eqb_neq in Hc.
      rewrite apply_changes_step in Hrun by assumption.
      unfold bind in Hrun. rewrite apply_change_run in Hrun.
      pose proof (commit_change_commits p c w) as Hone.
      destruct (outcome (commit_change rq branch parsed p c w)) as [sha | e];
        destruct (apply_changes rq branch parsed rest _ _)
          as [[r w2] t2] eqn:Hrest;
        inversion Hrun; subst;
        destruct (IH _ _ _ _ _ Hrest) as [Hlen Hlast];
        rewrite accepted_writes_app, map_app, length_app, last_app_default.
      * destruct Hone as [res [Hres ->]]. rewrite Hres, Hlen, Hlast.
        simpl. rewrite length_app. simpl. split; [lia | reflexivity].
      * rewrite Hone, Hlen, Hlast. simpl. split; [lia | reflexivity].
    + rewrite apply_changes_skip in Hrun by exact Hcomplete.
      exact (IH _ _ _ _ _ Hrun).
Qed.

Lemma or_null_truthy (o : option string) :
  Js.truthy (Js.or_null o)
  = match Js.or_null o with Some _ => true | None => false end.
Proof.
  unfold Js.or_null. destruct (Js.truthy o) eqn:Ho; [| reflexivity].
  rewrite Ho. destruct o; [reflexivity | discriminate].
Qed.

Lemma last_commit_truthy (l : list Response) :
  Js.truthy (last (map commit_of l) None)
  = match last (map commit_of l) None with Some _ => true | None => false end.
Proof.
  assert (Hgen : forall d,
    Js.truthy d = match d with Some _ => true | None => false end ->
    Js.truthy (last (map commit_of l) d)
    = match last (map commit_of l) d with Some _ => true | None => false end).
  { induction l as [| res l IH]; intros d Hd; [exact Hd |].
    simpl. destruct (map commit_of l) eqn:Hl.
    - apply or_null_truthy.
    - apply IH. exact Hd. }
  apply Hgen. reflexivity.
Qed.

(** The requests of the write calls of a run that were accepted, in
    order. *)
Definition accepted_puts (t : list Event) : list Request :=
  flat_map (fun e =>
              match e with
              | Call req res =>
                  match method req with
                  | PUT => if ok res then [ req ] else []
                  | _ => []
                  end
              | Wait _ => []
              end) t.

Lemma accepted_puts_app t1 t2 :
  accepted_puts (t1 ++ t2) = accepted_puts t1 ++ accepted_puts t2.
Proof. apply flat_map_app. Qed.

(** The address of the contents of a path. *)
Definition address (p : string) : string :=
  contents_url (repo_owner rq) (repo_name rq) (encodeURIComponent p).

(** A run in which every read was decoded and every write was accepted. *)
Definition smooth (t : list Event) : Prop :=
  forall req res,
    In (Call req res) t ->
    (method req = GET -> exists file, decoded res = Value file) /\
    (method req = PUT -> ok res = true).

(** The paths of the changes of a list. *)
Definition paths_of (cs : list Change) : list string :=
  flat_map (fun change =>
              match path change with
              | Some p => [ p ]
              | None => []
              end) cs.

Lemma smooth_app t1 t2 : smooth (t1 ++ t2) -> smooth t1 /\ smooth t2.
Proof.
  intros Hsmooth. split; intros req res Hin; apply Hsmooth;
    apply in_or_app; [left | right]; exact Hin.
Qed.

Lemma commit_change_puts p c w :
  match outcome (commit_change rq branch parsed p c w) with
  | Value _ =>
      map url (accepted_puts (trace (commit_change rq branch parsed p c w)))
        = [ address p ]
  | Throw _ =>
      accepted_puts (trace (commit_change rq branch parsed p c w)) = []
  end.
Proof.
  destruct (respond (load_request rq p) w) as [res0 w0] eqn:Hres0.
  rewrite commit_change_run with (1 := Hres0).
  destruct (decoded res0) as [freshFile | e]; [| reflexivity].
  destruct (respond (put_request p c freshFile) w0) as [res w1].
  unfold outcome, trace, accepted_puts. simpl.
  destruct (ok res) eqn:Hok; simpl; rewrite ?Hok; reflexivity.
Qed.

Lemma commit_change_smooth p c w :
  smooth (trace (commit_change rq branch parsed p c w)) ->
  exists sha, outcome (commit_change rq branch parsed p c w) = Value sha.
Proof.
  destruct (respond (load_request rq p) w) as [res0 w0] eqn:Hres0.
  rewrite commit_change_run with (1 := Hres0).
  destruct (decoded res0) as [freshFile | e] eqn:Hdec.
  - destruct (respond (put_request p c freshFile) w0) as [res w1].
    unfold outcome, trace. cbn [fst snd]. intros Hsmooth.
    destruct (Hsmooth (put_request p c freshFile) res) as [_ Hput];
      [right; left; reflexivity |].
    rewrite (Hput eq_refl). eauto.
  - unfold trace. cbn [snd]. intros Hsmooth.
    destruct (Hsmooth (load_request rq p) res0) as [Hget _];
      [left; reflexivity |].
    destruct (Hget eq_refl) as [file Hfile]. congruence.
Qed.

(** Each changed file is one accepted write to the address of that file. *)
Lemma apply_changes_puts cs :
  forall acc w acc' w1 t,
    apply_changes rq branch parsed cs acc w = (Value acc', w1, t) ->
    map address (filesChanged acc')
      = map address (filesChanged acc) ++ map url (accepted_puts t).
Proof.
  induction cs as [| change rest IH]; intros acc w acc' w1 t Hrun.
  - inversion Hrun; subst. simpl. rewrite app_nil_r. reflexivity.
  - destruct (complete change) eqn:Hcomplete.
    + unfold complete in Hcomplete. apply andb_true_iff in Hcomplete.
      destruct change as [[p |] [c |]]; simpl in Hcomplete;
        try (destruct Hcomplete; discriminate).
      destruct Hcomplete as [Hp Hc].
      apply negb_true_iff in Hp. apply negb_true_iff in Hc.
      apply String.eqb_neq in Hp. apply String.eqb_neq in Hc.
      rewrite apply_changes_step in Hrun by assumption.
      unfold bind in Hrun. rewrite apply_change_run in Hrun.
      pose proof (commit_change_puts p c w) as Hone.
      destruct (outcome (commit_change rq branch parsed p c w)) as [sha | e];
        destruct (apply_changes rq branch parsed rest _ _)
          as [[r w2] t2] eqn:Hrest;
        inversion Hrun; subst;
        rewrite (IH _ _ _ _ _ Hrest), accepted_puts_app, map_app, Hone.
      * simpl. rewrite map_app, <- app_assoc. reflexivity.
      * reflexivity.
    + rewrite apply_changes_skip in Hrun by exact Hcomplete.
      exact (IH _ _ _ _ _ Hrun).
Qed.

(** When every read is decoded and every write accepted, every change with
    a path and a content is committed. *)
Lemma apply_changes_smooth cs :
  forall acc w acc' w1 t,
    apply_changes rq branch parsed cs acc w = (Value acc', w1, t) ->
    smooth t ->
    filesChanged acc' = filesChanged acc ++ paths_of (filter complete cs) /\
    errors acc' = errors acc.
Proof.
  induction cs as [| change rest IH]; intros acc w acc' w1 t Hrun Hsmooth.
  - inversion Hrun; subst. simpl. rewrite app_nil_r. split; reflexivity.
  - simpl filter. destruct (complete change) eqn:Hcomplete.
    + unfold complete in Hcomplete. apply andb_true_iff in Hcomplete.
      destruct change as [[p |] [c |]]; simpl in Hcomplete;
        try (destruct Hcomplete; discriminate).
      destruct Hcomplete as [Hp Hc].
      apply negb_true_iff in Hp. apply negb_true_iff in Hc.
      apply String.eqb_neq in Hp. apply String.eqb_neq in Hc.
      rewrite apply_changes_step in Hrun by assumption.
      unfold bind in Hrun. rewrite apply_change_run in Hrun.
      destruct (outcome (commit_change rq branch parsed p c w))
        as [sha | e] eqn:Hsha;
        destruct (apply_changes rq branch parsed rest _ _)
          as [[r w2] t2] eqn:Hrest;
        inversion Hrun; subst;
        apply smooth_app in Hsmooth; destruct Hsmooth as [Hhere Hlater].
      * destruct (IH _ _ _ _ _ Hrest Hlater) as [Hfiles Herrors].
        rewrite Hfiles, Herrors.
        cbn [committed filesChanged errors paths_of flat_map path].
        rewrite <- app_assoc. split; reflexivity.
      * destruct (commit_change_smooth _ _ _ Hhere) as [sha Hsha'].
        congruence.
    + rewrite apply_changes_skip in Hrun by exact Hcomplete.
      exact (IH _ _ _ _ _ Hrun Hsmooth).
Qed.

(** C5.  For a change set that passed the safety check, the list of changed
    files of the response has one path for each accepted write of the run,
    that is, for each commit made, and these writes went to the addresses of
    the changed files, in order; its commit identifier is the one read in the
    answer to the last accepted write, none when that answer carries none.
    The client stores one record under that identifier, with all the
    changed paths; the identifiers of the earlier commits are in no part of
    the response.  When every read of the run is decoded and every write is
    accepted, every change with a path and a content is committed: the
    changed files are the paths of all these changes and there is no
    error. *)
Theorem only_last_commit_is_recorded (cs : list Change) (w : World) :
  changes parsed = Some cs -> cs <> [] -> find unsafe cs = None ->
  exists acc w1 t,
    apply_change_set rq branch parsed w
      = (Value (json (Answer (build_response parsed acc) (filesChanged acc)
                        (lastCommitSha acc) (commit_message parsed))),
         w1, t) /\
    List.length (filesChanged acc) = List.length (accepted_writes t) /\
    lastCommitSha acc = last (map commit_of (accepted_writes t)) None /\
    Client.commit_record
      (json (Answer (build_response parsed acc) (filesChanged acc)
               (lastCommitSha acc) (commit_message parsed)))
    = match last (map commit_of (accepted_writes t)) None with
      | Some sha =>
          Some {| Client.record_sha := sha;
                  Client.record_message :=
                    Js.or_else (commit_message parsed) "update via JTC COD";
                  Client.record_files := filesChanged acc |}
      | None => None
      end /\
    map url (accepted_puts t)
      = map (fun p => contents_url (repo_owner rq) (repo_name rq)
                        (encodeURIComponent p)) (filesChanged acc) /\
    ((forall req res,
        In (Call req res) t ->
        (method req = GET -> exists file, decoded res = Value file) /\
        (method req = PUT -> ok res = true)) ->
     filesChanged acc = paths_of (filter complete cs) /\
     errors acc = [] /\
     List.length (accepted_writes t) = List.length (filter complete cs)).
Proof.
  intros Hchanges Hcs Hsafe.
  destruct (apply_changes_total cs nothing_applied w) as [acc [w1 [t Hrun]]].
  destruct (apply_changes_commits _ _ _ Hrun) as [Hlen Hlast].
  pose proof (apply_changes_puts _ _ _ Hrun) as Hputs.
  change (lastCommitSha nothing_applied) with (@None string) in Hlast.
  change (filesChanged nothing_applied) with (@nil string) in Hlen, Hputs.
  simpl in Hlen, Hputs. exists acc, w1, t.
  split; [exact (apply_change_set_accepted w Hchanges Hcs Hsafe Hrun) |].
  split; [exact Hlen |]. split; [exact Hlast |]. split; [| split].
  - unfold Client.commit_record. simpl. rewrite Hlast.
    rewrite last_commit_truthy.
    destruct (last (map commit_of (accepted_writes t)) None) as [sha |]
      eqn:Hsha; [| reflexivity].
    pose proof (last_commit_truthy (accepted_writes t)) as Htruthy.
    rewrite Hsha in Htruthy. unfold Js.truthy in Htruthy.
    apply negb_true_iff in Htruthy. unfold Js.or_else at 1.
    rewrite Htruthy. reflexivity.
  - symmetry. exact Hputs.
  - intros Hsmooth.
    destruct (apply_changes_smooth _ _ _ Hrun Hsmooth) as [Hfiles Herrors].
    change (filesChanged nothing_applied) with (@nil string) in Hfiles.
    change (errors nothing_applied) with (@nil string) in Herrors.
    simpl in Hfiles. split; [exact Hfiles |]. split; [exact Herrors |].
    rewrite <- Hlen, Hfiles. unfold paths_of.
    clear. induction cs as [| change rest IH]; [reflexivity |].
    simpl filter. destruct (complete change) eqn:Hcomplete; [| exact IH].
    destruct change as [[p |] r]; [| discriminate Hcomplete].
    cbn [flat_map path]. rewrite length_app, IH. reflexivity.
Qed.

End CommitLoop.

(** Two edits: a new file, whose write is accepted, and a file whose write
    is refused with a conflict. *)
Definition two_edits : ChangeSet :=
  {| explanation := Some "Feito";
     changes := Some [ {| path := Some "a.ts"; content := Some "let a = 1;" |};
                       {| path := Some "b.ts"; content := Some "let b = 2;" |} ];
     commit_message := Some "feat: two files" |}.

Definition conflict_on_second : list Response :=
  [ Script.refused 404; Script.saved "c1";
    Script.file "b.ts" "let b;" "s9"; Script.refused 409 ].

(** In that run the first file is committed and the second is reported with
    its error: the response is the success text followed by the warning. *)
Lemma failed_write_is_isolated_witness :
  outcome (@apply_change_set chatty (ask "x") "main" two_edits
             conflict_on_second)
    = Value (json (Answer
        ("Feito" +++ Js.nl +++ Js.nl +++ "✅ Arquivos atualizados: a.ts"
           +++ Js.nl +++ "🔗 Commit: `c1`" +++ Js.nl +++ Js.nl
           +++ "⚠️ Alguns arquivos falharam:" +++ Js.nl
           +++ "• b.ts: Falha ao salvar b.ts no GitHub (status 409)")
        [ "a.ts" ] (Some "c1") (Some "feat: two files"))) /\
  writes (trace (@apply_change_set chatty (ask "x") "main" two_edits
                   conflict_on_second))
    = [ Call (@put_request chatty (ask "x") "main" two_edits "a.ts"
                "let a = 1;" None) (Script.saved "c1");
        Call (@put_request chatty (ask "x") "main" two_edits "b.ts"
                "let b = 2;"
                (Some {| file_content := "let b;"; file_sha := Some "s9";
                         file_path := Some "b.ts" |})) (Script.refused 409) ].
Proof.
  destruct (@failed_write_is_isolated chatty (ask "x") "main" two_edits
              [ {| path := Some "a.ts"; content := Some "let a = 1;" |} ] []
              "b.ts" "let b = 2;" conflict_on_second)
    as [acc1 [w1 [t1 [acc2 [w2 [t2 [acc [w3 [t3
         [Hbefore [Hturn [Hafter [Hset [_ [_ [_ [_ Htext]]]]]]]]]]]]]]]]].
  - discriminate.
  - discriminate.
  - reflexivity.
  - reflexivity.
  - assert (Hrun : @apply_changes chatty (ask "x") "main" two_edits
              [ {| path := Some "a.ts"; content := Some "let a = 1;" |} ]
              nothing_applied conflict_on_second
            = (Value (committed nothing_applied "a.ts" (Some "c1")),
               [ Script.file "b.ts" "let b;" "s9"; Script.refused 409 ],
               trace (@apply_changes chatty (ask "x") "main" two_edits
                 [ {| path := Some "a.ts"; content := Some "let a = 1;" |} ]
                 nothing_applied conflict_on_second))) by reflexivity.
    rewrite Hrun in Hbefore. inversion Hbefore; subst acc1 w1 t1.
    assert (Hsecond : @apply_change chatty (ask "x") "main" two_edits "b.ts"
              "let b = 2;" (committed nothing_applied "a.ts" (Some "c1"))
              [ Script.file "b.ts" "let b;" "s9"; Script.refused 409 ]
            = (Value (failed (committed nothing_applied "a.ts" (Some "c1"))
                        "b.ts"
                        (Error "Falha ao salvar b.ts no GitHub (status 409)")),
               [],
               trace (@apply_change chatty (ask "x") "main" two_edits "b.ts"
                        "let b = 2;"
                        (committed nothing_applied "a.ts" (Some "c1"))
                        [ Script.file "b.ts" "let b;" "s9";
                          Script.refused 409 ]))) by reflexivity.
    rewrite Hsecond in Hturn. inversion Hturn; subst acc2 w2 t2.
    inversion Hafter; subst acc w3 t3.
    rewrite Hset. unfold outcome, trace. cbn [fst snd].
    rewrite Htext. split; reflexivity.
Defined.

(** The two edits again, both accepted: two commits, [c1] and [c2]. *)
Definition both_accepted : list Response :=
  [ Script.refused 404; Script.saved "c1";
    Script.file "b.ts" "let b;" "s9"; Script.saved "c2" ].

(** In that run each of the two edits makes a commit of its own, [c1] and
    [c2]; the response names both files and the commit [c2] alone, and so
    does the record of the client. *)
Lemma only_last_commit_is_recorded_witness :
  map commit_of
    (accepted_writes
       (trace (@apply_change_set chatty (ask "x") "main" two_edits
                 both_accepted)))
    = [ Some "c1"; Some "c2" ] /\
  map url
    (accepted_puts
       (trace (@apply_change_set chatty (ask "x") "main" two_edits
                 both_accepted)))
    = [ "https://api.github.com/repos/o/r/contents/a.ts";
        "https://api.github.com/repos/o/r/contents/b.ts" ] /\
  outcome (@apply_change_set chatty (ask "x") "main" two_edits both_accepted)
    = Value (json (Answer
        ("Feito" +++ Js.nl +++ Js.nl
           +++ "✅ Arquivos atualizados: a.ts, b.ts" +++ Js.nl
           +++ "🔗 Commit: `c2`")
        [ "a.ts"; "b.ts" ] (Some "c2") (Some "feat: two files"))) /\
  match outcome (@apply_change_set chatty (ask "x") "main" two_edits
                   both_accepted) with
  | Value reply => Client.commit_record reply
  | Throw _ => None
  end
  = Some {| Client.record_sha := "c2";
            Client.record_message := "feat: two files";
            Client.record_files := [ "a.ts"; "b.ts" ] |}.
Proof.
  destruct (@only_last_commit_is_recorded chatty (ask "x") "main" two_edits
              [ {| path := Some "a.ts"; content := Some "let a = 1;" |};
                {| path := Some "b.ts"; content := Some "let b = 2;" |} ]
              both_accepted)
    as [acc [w1 [t [Hrun [Hlen [Hlast [Hrecord [Hputs Hall]]]]]]]].
  - reflexivity.
  - discriminate.
  - reflexivity.
  - assert (Htrace : t = trace (@apply_change_set chatty (ask "x") "main"
                                  two_edits both_accepted))
      by (rewrite Hrun; reflexivity).
    destruct Hall as [Hfiles [Herrors Hcount]].
    { rewrite Htrace. intros req res Hin. cbv in Hin.
      repeat (destruct Hin as [Hin | Hin];
              [inversion Hin; subst; clear Hin;
               split; intros Hmethod; first [ discriminate Hmethod
                                            | reflexivity
                                            | eexists; reflexivity ] |]).
      contradiction. }
    rewrite Hrun. unfold outcome, trace. cbn [fst snd].
    rewrite Hrecord, <- Hlast, Hputs, Hfiles.
    assert (Hsha : lastCommitSha acc = Some "c2").
    { rewrite Hlast, Htrace. reflexivity. }
    rewrite Hsha. split; [rewrite Htrace; reflexivity |].
    split; [reflexivity |]. split; [| reflexivity].
    assert (Htext : build_response two_edits acc
      = "Feito" +++ Js.nl +++ Js.nl
          +++ "✅ Arquivos atualizados: a.ts, b.ts" +++ Js.nl
          +++ "🔗 Commit: `c2`").
    { rewrite build_response_cases. rewrite Hfiles, Herrors.
      unfold success_text. rewrite Hfiles, Hsha. reflexivity. }
    rewrite Htext. reflexivity.
Defined.

End CodeAgentFacts.

(** ** The backend adapter: retries and fallback *)

Module BackendFacts.
Import Backend.

(** The delays a run waited for, in order. *)
Definition waits (t : list Event) : list Z :=
  flat_map (fun e => match e with Wait ms => [ ms ] | Call _ _ => [] end) t.

(** The calls of a run to a given address, in order. *)
Definition calls_to (u : string) (t : list Event) : list Request :=
  flat_map (fun e =>
              match e with
              | Call req _ => if (url req =? u)%string then [ req ] else []
              | Wait _ => []
              end) t.

Section Retries.
Context `{Platform}.

Lemma rate_limited_not_ok (res : Response) : status res = 429 -> ok res = false.
Proof. intros Hst. unfold ok. rewrite Hst. reflexivity. Qed.

Lemma callLovableAi_run messages temperature maxTokens w key res w1 :
  LOVABLE_API_KEY = Some key -> key <> "" ->
  respond (fallback_request key messages temperature maxTokens) w = (res, w1) ->
  callLovableAi messages temperature maxTokens w
  = (if ok res then Value (data res)
     else if status res =? 429 then
       Throw (Thrown 429 "Limite de requisições atingido. Tente novamente em alguns segundos.")
     else if status res =? 402 then Throw (Thrown 402 "Créditos de IA esgotados.")
     else Throw (Thrown 500 "Erro no fallback de IA"),
     w1, [ Call (fallback_request key messages temperature maxTokens) res ]).
Proof.
  intros Hkey Hne Hres. unfold callLovableAi. rewrite Hkey.
  apply String.eqb_neq in Hne. unfold Js.truthy, Js.or_else. rewrite Hne.
  simpl. unfold bind, fetch. rewrite Hres.
  destruct (ok res); simpl; [reflexivity |].
  destruct (status res =? 429); simpl; [reflexivity |].
  destruct (status res =? 402); reflexivity.
Qed.

(** C6, as the adapter has it.  When the primary backend answers the three
    calls of the loop with a rate limit, the adapter waits twice, 2000 ms
    after the first answer and 4000 ms after the second, and after the third
    answer it calls the fallback backend at once, one time, provided the key
    of the fallback is configured; what that call yields is what the adapter
    yields. *)
Theorem three_rate_limits_fall_back
  (config : AiConfig) (model : string) (messages : list ChatMessage)
  (temperature : Q) (maxTokens : option Z) (key : string)
  (w w1 w2 w3 w4 : World) (r1 r2 r3 r4 : Response) :
  respond (primary_request config model messages temperature maxTokens) w
    = (r1, w1) ->
  status r1 = 429 ->
  respond (primary_request config model messages temperature maxTokens) w1
    = (r2, w2) ->
  status r2 = 429 ->
  respond (primary_request config model messages temperature maxTokens) w2
    = (r3, w3) ->
  status r3 = 429 ->
  LOVABLE_API_KEY = Some key -> key <> "" ->
  respond (fallback_request key messages temperature maxTokens) w3
    = (r4, w4) ->
  trace (callAi config model messages temperature maxTokens w)
    = [ Call (primary_request config model messages temperature maxTokens) r1;
        Wait 2000;
        Call (primary_request config model messages temperature maxTokens) r2;
        Wait 4000;
        Call (primary_request config model messages temperature maxTokens) r3;
        Call (fallback_request key messages temperature maxTokens) r4 ] /\
  waits (trace (callAi config model messages temperature maxTokens w))
    = [ 2000; 4000 ] /\
  (ok r4 = true ->
   outcome (callAi config model messages temperature maxTokens w)
     = Value (data r4)).
Proof.
  intros H1 S1 H2 S2 H3 S3 Hkey Hne H4.
  pose proof (callLovableAi_run _ _ _ _ Hkey Hne H4) as Hfallback.
  assert (Hrun : callAi config model messages temperature maxTokens w
    = (outcome (callLovableAi messages temperature maxTokens w3), w4,
       [ Call (primary_request config model messages temperature maxTokens) r1;
         Wait 2000;
         Call (primary_request config model messages temperature maxTokens) r2;
         Wait 4000;
         Call (primary_request config model messages temperature maxTokens) r3;
         Call (fallback_request key messages temperature maxTokens) r4 ])).
  { unfold callAi. change (Z.to_nat maxRetries) with 3%nat.
    cbn [callAi_from]. unfold maxRetries.
    change (0 <? 3) with true. cbv iota.
    unfold bind at 1, fetch at 1. rewrite H1.
    rewrite (rate_limited_not_ok _ S1), S1.
    change (429 =? 429) with true. change (0 <? 3 - 1) with true. cbv iota.
    unfold bind at 1, sleep at 1.
    change (0 + 1 <? 3) with true. cbv iota.
    unfold bind at 1, fetch at 1. rewrite H2.
    rewrite (rate_limited_not_ok _ S2), S2.
    change (429 =? 429) with true. change (0 + 1 <? 3 - 1) with true.
    cbv iota. unfold bind at 1, sleep at 1.
    change (0 + 1 + 1 <? 3) with true. cbv iota.
    unfold bind at 1, fetch at 1. rewrite H3.
    rewrite (rate_limited_not_ok _ S3), S3.
    change (429 =? 429) with true. change (0 + 1 + 1 <? 3 - 1) with false.
    cbv iota. rewrite Hfallback. reflexivity. }
  rewrite Hrun. unfold trace, outcome. simpl.
  split; [reflexivity |]. split; [reflexivity |].
  intros Hok. rewrite Hfallback, Hok. reflexivity.
Qed.

End Retries.

(** A user of the Gemini backend whose key is rate limited three times in a
    row, with the fallback configured. *)
Definition with_fallback : Platform :=
  Script.platform (fun _ => None) (fun _ => None) (Some "key").

Definition throttled : list Response :=
  [ Script.refused 429; Script.refused 429; Script.refused 429;
    Script.says "oi" ].

Definition hello : list ChatMessage := [ Msg "user" (Text "oi") ].

Lemma three_rate_limits_fall_back_witness :
  waits (trace (@callAi with_fallback (getAiConfig "gemini" "user-key")
                  "gemini-2.0-flash" hello (1 # 10) None throttled))
    = [ 2000; 4000 ] /\
  outcome (@callAi with_fallback (getAiConfig "gemini" "user-key")
             "gemini-2.0-flash" hello (1 # 10) None throttled)
    = Value (data (Script.says "oi")).
Proof.
  destruct (@three_rate_limits_fall_back with_fallback
              (getAiConfig "gemini" "user-key") "gemini-2.0-flash" hello
              (1 # 10) None "key" throttled
              [ Script.refused 429; Script.refused 429; Script.says "oi" ]
              [ Script.refused 429; Script.says "oi" ]
              [ Script.says "oi" ] []
              (Script.refused 429) (Script.refused 429) (Script.refused 429)
              (Script.says "oi"))
    as [_ [Hwaits Hvalue]]; try reflexivity.
  - discriminate.
  - split; [exact Hwaits | apply Hvalue; reflexivity].
Defined.

(** C6 as stated fails in that run: the three rate limits are followed by
    two waits, not three, and the one call to the fallback follows the third
    answer with no wait in between. *)
Lemma third_rate_limit_is_not_waited_for :
  map (fun e => match e with Call _ res => status res | Wait _ => 0 end)
    (firstn 5 (trace (@callAi with_fallback (getAiConfig "gemini" "user-key")
                        "gemini-2.0-flash" hello (1 # 10) None throttled)))
    = [ 429; 0; 429; 0; 429 ] /\
  waits (trace (@callAi with_fallback (getAiConfig "gemini" "user-key")
                  "gemini-2.0-flash" hello (1 # 10) None throttled))
    = [ 2000; 4000 ] /\
  List.length
    (waits (trace (@callAi with_fallback (getAiConfig "gemini" "user-key")
                     "gemini-2.0-flash" hello (1 # 10) None throttled)))
    <> 3%nat /\
  List.length
    (calls_to lovable_gateway
       (trace (@callAi with_fallback (getAiConfig "gemini" "user-key")
                 "gemini-2.0-flash" hello (1 # 10) None throttled)))
    = 1%nat.
Proof.
  split; [reflexivity |]. split; [reflexivity |].
  split; [discriminate | reflexivity].
Qed.

End BackendFacts.

(** ** The undo engine *)

Module UndoFacts.
Import Undo.

Section Revert.
Context `{Platform}.

(** The parts of a well-formed request. *)
Definition asks (rq : Input) (sha owner name token : string) : Prop :=
  commit_sha rq = Some sha /\ repo_owner rq = Some owner /\
  repo_name rq = Some name /\ github_token rq = Some token /\
  sha <> "" /\ owner <> "" /\ name <> "" /\ token <> "".

Lemma asks_truthy rq sha owner name token :
  asks rq sha owner name token ->
  Js.truthy (commit_sha rq) = true /\ Js.truthy (repo_owner rq) = true /\
  Js.truthy (repo_name rq) = true /\ Js.truthy (github_token rq) = true /\
  Js.or_else (commit_sha rq) "" = sha /\ Js.or_else (repo_owner rq) "" = owner /\
  Js.or_else (repo_name rq) "" = name /\ Js.or_else (github_token rq) "" = token.
Proof.
  intros [-> [-> [-> [-> [Hs [Ho [Hn Ht]]]]]]].
  apply String.eqb_neq in Hs, Ho, Hn, Ht.
  unfold Js.truthy, Js.or_else. rewrite Hs, Ho, Hn, Ht. repeat split.
Qed.

(** C7.  When the commit that was fetched names no parent, the handler
    answers with the error of status 500 that says so, and its run consists
    of the one read of the commit: no write or delete call is issued. *)
Theorem undo_without_parent_fails
  (req : HttpRequest) (sha owner name token : string)
  (w w1 : World) (commitRes : Response) :
  http_method req <> "OPTIONS" ->
  asks (http_json req) sha owner name token ->
  respond (get (commit_url owner name sha) token) w = (commitRes, w1) ->
  ok commitRes = true ->
  Js.truthy (parent_sha (data commitRes)) = false ->
  serve req w
    = (Value {| reply_status := 500;
                reply_body := Failure "Cannot revert: no parent commit found" |},
       w1, [ Call (get (commit_url owner name sha) token) commitRes ]) /\
  writes (trace (serve req w)) = [].
Proof.
  intros Hmethod Hasks Hres Hok Hparent.
  apply String.eqb_neq in Hmethod.
  destruct (asks_truthy Hasks) as [T1 [T2 [T3 [T4 [E1 [E2 [E3 E4]]]]]]].
  assert (Hrun : serve req w
    = (Value {| reply_status := 500;
                reply_body := Failure "Cannot revert: no parent commit found" |},
       w1, [ Call (get (commit_url owner name sha) token) commitRes ])).
  { unfold serve. rewrite Hmethod. unfold try_catch, handle.
    rewrite T1, T2, T3, T4, E1, E2, E3, E4. simpl.
    unfold bind, fetch. rewrite Hres, Hok. simpl. rewrite Hparent.
    reflexivity. }
  split; [exact Hrun |]. rewrite Hrun. reflexivity.
Qed.

End Revert.

Definition plain : Platform :=
  Script.platform (fun _ => None) (fun _ => None) None.

Definition undo (sha : string) : HttpRequest :=
  {| http_method := "POST";
     http_json := {| commit_sha := Some sha; repo_owner := Some "o";
                     repo_name := Some "r"; github_token := Some "t" |} |}.

Lemma undo_without_parent_fails_witness :
  @serve plain (undo "c0")
    [ Script.commit None [ {| filename := "a.ts"; file_status := "added" |} ] ]
    = (Value {| reply_status := 500;
                reply_body := Failure "Cannot revert: no parent commit found" |},
       [],
       [ Call (get (commit_url "o" "r" "c0") "t")
           (Script.commit None
              [ {| filename := "a.ts"; file_status := "added" |} ]) ]) /\
  writes (trace (@serve plain (undo "c0")
                   [ Script.commit None
                       [ {| filename := "a.ts"; file_status := "added" |} ] ]))
    = [].
Proof.
  apply (@undo_without_parent_fails plain (undo "c0") "c0" "o" "r" "t").
  - discriminate.
  - repeat split; discriminate.
  - reflexivity.
  - reflexivity.
  - reflexivity.
Defined.

(** What one turn of the loop does for a file, as the calls it makes and
    the paths it reports: a file the commit added is deleted at the marker
    just read, any other file gets the content of the parent revision written
    over the marker just read, and a file for which a read is refused, or
    whose parent revision carries no content, is passed over. *)
Inductive reverts (owner name token parentSha : string) (file : ChangedFile)
  : list Event -> list string -> Prop :=
| deleted (cur del : Response) :
    file_status file = "added" -> ok cur = true ->
    reverts owner name token parentSha file
      [ Call (get (file_url owner name file) token) cur;
        Call (delete_request owner name token file (data cur)) del ]
      [ filename file ]
| not_deleted (cur : Response) :
    file_status file = "added" -> ok cur = false ->
    reverts owner name token parentSha file
      [ Call (get (file_url owner name file) token) cur ] []
| restored (par cur put : Response) (c : string) :
    file_status file <> "added" -> ok par = true -> ok cur = true ->
    data_content (data par) = Some c ->
    reverts owner name token parentSha file
      [ Call (get (parent_url owner name parentSha file) token) par;
        Call (get (file_url owner name file) token) cur;
        Call (restore_request owner name token file (Js.remove_newlines c)
                (data cur)) put ]
      [ filename file ]
| no_parent_revision (par : Response) :
    file_status file <> "added" -> ok par = false ->
    reverts owner name token parentSha file
      [ Call (get (parent_url owner name parentSha file) token) par ] []
| no_current_revision (par cur : Response) :
    file_status file <> "added" -> ok par = true -> ok cur = false ->
    reverts owner name token parentSha file
      [ Call (get (parent_url owner name parentSha file) token) par;
        Call (get (file_url owner name file) token) cur ] []
| no_parent_content (par cur : Response) :
    file_status file <> "added" -> ok par = true -> ok cur = true ->
    data_content (data par) = None ->
    reverts owner name token parentSha file
      [ Call (get (parent_url owner name parentSha file) token) par;
        Call (get (file_url owner name file) token) cur ] [].

Section Restore.
Context `{Platform}.

Variables owner name token parentSha : string.

Lemma revert_file_reverts (file : ChangedFile) (filesReverted : list string)
  (w : World) :
  exists w1 t more,
    revert_file owner name token parentSha file filesReverted w
      = (Value (filesReverted ++ more), w1, t) /\
    reverts owner name token parentSha file t more.
Proof.
  unfold revert_file, try_catch.
  destruct (file_status file =? "added")%string eqn:Hstatus.
  - apply String.eqb_eq in Hstatus.
    unfold bind at 1, fetch at 1.
    destruct (respond (get (file_url owner name file) token) w)
      as [cur w1] eqn:Hcur.
    destruct (ok cur) eqn:Hok.
    + unfold bind, fetch, ret.
      destruct (respond (delete_request owner name token file (data cur)) w1)
        as [del w2].
      simpl. eexists _, _, _. split; [reflexivity |].
      apply deleted; assumption.
    + simpl. exists w1. eexists _, []. rewrite app_nil_r.
      split; [reflexivity |]. apply not_deleted; assumption.
  - apply String.eqb_neq in Hstatus.
    unfold bind at 1, fetch at 1.
    destruct (respond (get (parent_url owner name parentSha file) token) w)
      as [par w1] eqn:Hpar.
    destruct (ok par) eqn:Hokp.
    + unfold bind at 1, fetch at 1.
      destruct (respond (get (file_url owner name file) token) w1)
        as [cur w2] eqn:Hcur.
      destruct (ok cur) eqn:Hokc.
      * unfold content_without_newlines.
        destruct (data_content (data par)) as [c |] eqn:Hc.
        -- unfold bind, fetch, ret.
           destruct (respond (restore_request owner name token file
                                (Js.remove_newlines c) (data cur)) w2)
             as [put w3].
           simpl. eexists _, _, _. split; [reflexivity |].
           apply restored; assumption.
        -- unfold bind, throw, ret. simpl.
           exists w2. eexists _, []. rewrite app_nil_r.
           split; [reflexivity |]. apply no_parent_content; assumption.
      * simpl. exists w2. eexists _, []. rewrite app_nil_r.
        split; [reflexivity |]. apply no_current_revision; assumption.
    + simpl. exists w1. eexists _, []. rewrite app_nil_r.
      split; [reflexivity |]. apply no_parent_revision; assumption.
Qed.

(** The loop goes through every file of the commit, whatever happened to
    the files before it. *)
Lemma revert_files_reverts (fs : list ChangedFile) :
  forall (filesReverted : list string) (w : World),
  exists w1 blocks,
    revert_files owner name token parentSha fs filesReverted w
      = (Value (filesReverted ++ concat (map snd blocks)), w1,
         concat (map fst blocks)) /\
    Forall2 (fun file block =>
               reverts owner name token parentSha file (fst block) (snd block))
      fs blocks.
Proof.
  induction fs as [| file rest IH]; intros filesReverted w.
  - exists w, []. simpl. rewrite app_nil_r. split; [reflexivity | constructor].
  - destruct (revert_file_reverts file filesReverted w)
      as [w1 [t [more [Hfile Hreverts]]]].
    destruct (IH (filesReverted ++ more) w1) as [w2 [blocks [Hrest Hall]]].
    exists w2, ((t, more) :: blocks). split.
    + simpl. unfold bind. rewrite Hfile, Hrest.
      rewrite <- app_assoc. reflexivity.
    + constructor; assumption.
Qed.

End Restore.

Section UndoCommit.
Context `{Platform}.

(** X30.  When the commit that was fetched names a parent, the handler
    goes through the files of the commit in order, each on its own: it
    deletes a file the commit added at the marker it has just read, it writes
    the content of the parent revision of any other file over the marker it
    has just read, and it passes over a file for which a read is refused or
    whose parent revision carries no content.  It answers with the paths for
    which it issued a delete or a write, in order. *)
Theorem undo_reverts_each_file
  (req : HttpRequest) (sha owner name token parentSha : string)
  (w w1 : World) (commitRes : Response) :
  http_method req <> "OPTIONS" ->
  asks (http_json req) sha owner name token ->
  respond (get (commit_url owner name sha) token) w = (commitRes, w1) ->
  ok commitRes = true ->
  parent_sha (data commitRes) = Some parentSha -> parentSha <> "" ->
  exists w2 blocks,
    serve req w
      = (Value (json (Reverted (concat (map snd blocks)))), w2,
         Call (get (commit_url owner name sha) token) commitRes
           :: concat (map fst blocks)) /\
    Forall2 (fun file block =>
               reverts owner name token parentSha file (fst block) (snd block))
      (files_of (data commitRes)) blocks.
Proof.
  intros Hmethod Hasks Hres Hok Hparent Hne.
  apply String.eqb_neq in Hmethod. apply String.eqb_neq in Hne.
  destruct (asks_truthy Hasks) as [T1 [T2 [T3 [T4 [E1 [E2 [E3 E4]]]]]]].
  destruct (revert_files_reverts owner name token parentSha
              (files_of (data commitRes)) [] w1)
    as [w2 [blocks [Hloop Hall]]].
  exists w2, blocks. split; [| exact Hall].
  unfold serve. rewrite Hmethod. unfold try_catch, handle.
  rewrite T1, T2, T3, T4, E1, E2, E3, E4. simpl.
  unfold bind at 1, fetch at 1. rewrite Hres, Hok. simpl.
  rewrite Hparent. unfold Js.truthy, Js.or_else. rewrite Hne. simpl.
  unfold bind. rewrite Hloop. simpl. rewrite app_nil_r. reflexivity.
Qed.

End UndoCommit.

(** A commit that added one file and modified another; every call is
    answered with success. *)
Definition added_and_modified : list Response :=
  [ Script.commit (Some "p0")
      [ {| filename := "new.ts"; file_status := "added" |};
        {| filename := "app.ts"; file_status := "modified" |} ];
    Script.file "new.ts" "bGV0IG47" "s1"; Script.answer 200 no_data;
    Script.file "app.ts" ("bGV0" +++ Js.nl +++ "IGE7") "s0";
    Script.file "app.ts" "bGV0IGIxOw==" "s2"; Script.saved "c9" ].

Lemma undo_reverts_each_file_witness :
  exists w2 blocks,
    @serve plain (undo "c1") added_and_modified
      = (Value (json (Reverted (concat (map snd blocks)))), w2,
         Call (get (commit_url "o" "r" "c1") "t")
           (Script.commit (Some "p0")
              [ {| filename := "new.ts"; file_status := "added" |};
                {| filename := "app.ts"; file_status := "modified" |} ])
           :: concat (map fst blocks)) /\
    Forall2 (fun file block =>
               reverts "o" "r" "t" "p0" file (fst block) (snd block))
      [ {| filename := "new.ts"; file_status := "added" |};
        {| filename := "app.ts"; file_status := "modified" |} ]
      blocks.
Proof.
  apply (@undo_reverts_each_file plain (undo "c1") "c1" "o" "r" "t" "p0"
           added_and_modified (tl added_and_modified)).
  - discriminate.
  - repeat split; discriminate.
  - reflexivity.
  - reflexivity.
  - reflexivity.
  - discriminate.
Defined.

(** In that run the added file is deleted at the marker [s1], and the
    content of the parent revision of the other file, without its line
    breaks, is written over the marker [s2]. *)
Example added_deleted_modified_restored :
  outcome (@serve plain (undo "c1") added_and_modified)
    = Value (json (Reverted [ "new.ts"; "app.ts" ])) /\
  map (fun e => match e with Call req _ => body req | Wait _ => NoBody end)
    (writes (trace (@serve plain (undo "c1") added_and_modified)))
    = [ DeleteBody "revert: undo new.ts" (Some "s1");
        PutBody "revert: undo changes to app.ts" "bGV0IGE7" None (Some "s2") ].
Proof. split; reflexivity. Qed.

(** C3 fails on the code for a file the commit removed.  The handler reads
    the content of the parent revision, which is there, and then the current
    revision, which is refused since the file is gone; the write is inside
    the test of that second answer, so that nothing is written and no path
    is reported: the file stays removed and the answer is a success with an
    empty list. *)
Lemma removed_file_is_not_restored :
  parent_sha (data (Script.commit (Some "p0")
                      [ {| filename := "old.ts"; file_status := "removed" |} ]))
    = Some "p0" /\
  outcome (@serve plain (undo "c1")
             [ Script.commit (Some "p0")
                 [ {| filename := "old.ts"; file_status := "removed" |} ];
               Script.file "old.ts" "bGV0IG87" "s0"; Script.refused 404 ])
    = Value (json (Reverted [])) /\
  writes (trace (@serve plain (undo "c1")
                   [ Script.commit (Some "p0")
                       [ {| filename := "old.ts"; file_status := "removed" |} ];
                     Script.file "old.ts" "bGV0IG87" "s0";
                     Script.refused 404 ]))
    = [] /\
  ~ (exists reverted,
       outcome (@serve plain (undo "c1")
                  [ Script.commit (Some "p0")
                      [ {| filename := "old.ts"; file_status := "removed" |} ];
                    Script.file "old.ts" "bGV0IG87" "s0"; Script.refused 404 ])
         = Value (json (Reverted reverted)) /\
       In "old.ts" reverted).
Proof.
  split; [reflexivity |]. split; [reflexivity |]. split; [reflexivity |].
  intros [reverted [Hrun Hin]].
  assert (Hnone : reverted = []).
  { assert (Hrun' : outcome (@serve plain (undo "c1")
             [ Script.commit (Some "p0")
                 [ {| filename := "old.ts"; file_status := "removed" |} ];
               Script.file "old.ts" "bGV0IG87" "s0"; Script.refused 404 ])
      = Value (json (Reverted []))) by reflexivity.
    rewrite Hrun' in Hrun. inversion Hrun. reflexivity. }
  subst reverted. contradiction.
Qed.

End UndoFacts.

(** ** The code agent: every run, whatever the world answers *)

Module CodeAgentRuns.
Import CodeAgent CodeAgentFacts.

(** The calls of one turn of the commit loop for the path [p] and the
    content [c]: the read of the current file and, unless the answer to it
    failed to decode, the write that carries the marker of that answer. *)
Inductive commits `{Platform} (rq : Input) (branch : string)
  (parsed : ChangeSet) (p c : string) : list Event -> Prop :=
| written (res0 res : Response) (freshFile : option File) :
    decoded res0 = Value freshFile ->
    commits rq branch parsed p c
      [ Call (load_request rq p) res0;
        Call (put_request rq branch parsed p c freshFile) res ]
| unread (res0 : Response) (e : Exn) :
    decoded res0 = Throw e ->
    commits rq branch parsed p c [ Call (load_request rq p) res0 ].

(** A change of the set with a path and a content, neither empty. *)
Definition attempted `{Platform} (rq : Input) (branch : string)
  (parsed : ChangeSet) (change : Change) (block : list Event) : Prop :=
  exists p c,
    change = {| path := Some p; content := Some c |} /\
    p <> "" /\ c <> "" /\ commits rq branch parsed p c block.

Section Loop.
Context `{Platform}.

Variable rq : Input.
Variable branch : string.
Variable parsed : ChangeSet.

Lemma commit_change_commits_block (p c : string) (w : World) :
  commits rq branch parsed p c (trace (commit_change rq branch parsed p c w)).
Proof.
  destruct (respond (load_request rq p) w) as [res0 w0] eqn:Hres0.
  rewrite (commit_change_run rq branch parsed p c w Hres0).
  destruct (decoded res0) as [freshFile | e] eqn:Hdec.
  - destruct (respond (put_request rq branch parsed p c freshFile) w0)
      as [res w1].
    apply written. exact Hdec.
  - apply unread with (e := e). exact Hdec.
Qed.

Lemma complete_inv (change : Change) :
  complete change = true ->
  exists p c,
    change = {| path := Some p; content := Some c |} /\ p <> "" /\ c <> "".
Proof.
  unfold complete. intros Hcomplete. apply andb_true_iff in Hcomplete.
  destruct change as [[p |] [c |]]; simpl in Hcomplete;
    try (destruct Hcomplete; discriminate).
  destruct Hcomplete as [Hp Hc].
  apply negb_true_iff in Hp. apply negb_true_iff in Hc.
  apply String.eqb_neq in Hp. apply String.eqb_neq in Hc.
  exists p, c. auto.
Qed.

(** X1.  The commit loop makes one attempt for each change that has a path
    and a content, in the order of the change set, and nothing else: an
    attempt is the read of the current file followed at once by the write
    to the same address with the marker that read returned, or the read
    alone when its answer could not be decoded. *)
Theorem commit_loop_reads_before_each_write
  (cs : list Change) (acc : Applied) (w : World) :
  exists blocks,
    trace (apply_changes rq branch parsed cs acc w) = concat blocks /\
    Forall2 (attempted rq branch parsed) (filter complete cs) blocks.
Proof.
  revert acc w. induction cs as [| change rest IH]; intros acc w.
  - exists []. split; [reflexivity | constructor].
  - simpl filter. destruct (complete change) eqn:Hcomplete.
    + destruct (complete_inv _ Hcomplete) as [p [c [-> [Hp Hc]]]].
      rewrite (apply_changes_step rq branch parsed rest acc Hp Hc).
      unfold bind. rewrite apply_change_run.
      set (acc1 := match outcome (commit_change rq branch parsed p c w) with
                   | Value sha => committed acc p sha
                   | Throw e => failed acc p e
                   end).
      assert (Hacc1 :
        match outcome (commit_change rq branch parsed p c w) with
        | Value sha => Value (committed acc p sha)
        | Throw e => Value (failed acc p e)
        end = Value acc1).
      { unfold acc1.
        destruct (outcome (commit_change rq branch parsed p c w));
          reflexivity. }
      rewrite Hacc1.
      destruct (IH acc1 (world_after (commit_change rq branch parsed p c w)))
        as [blocks [Htrace Hall]].
      exists (trace (commit_change rq branch parsed p c w) :: blocks). split.
      * destruct (apply_changes rq branch parsed rest acc1 _)
          as [[r w2] t2].
        unfold trace in Htrace |- *. simpl in Htrace |- *.
        rewrite Htrace. reflexivity.
      * constructor; [| exact Hall].
        exists p, c. repeat (split; [assumption || reflexivity |]).
        apply commit_change_commits_block.
    + rewrite (apply_changes_skip rq branch parsed change rest acc Hcomplete).
      apply IH.
Qed.

Lemma apply_changes_accounts (cs : list Change) :
  forall acc w acc' w1 t,
    apply_changes rq branch parsed cs acc w = (Value acc', w1, t) ->
    (List.length (filesChanged acc') + List.length (errors acc')
     = List.length (filesChanged acc) + List.length (errors acc)
       + List.length (filter complete cs))%nat /\
    (forall f, In f (filesChanged acc') ->
       In f (filesChanged acc) \/
       exists c, In {| path := Some f; content := Some c |} cs).
Proof.
  induction cs as [| change rest IH]; intros acc w acc' w1 t Hrun.
  - inversion Hrun; subst. simpl. split; [lia | auto].
  - simpl filter. destruct (complete change) eqn:Hcomplete.
    + destruct (complete_inv _ Hcomplete) as [p [c [-> [Hp Hc]]]].
      rewrite (apply_changes_step rq branch parsed rest acc Hp Hc) in Hrun.
      unfold bind in Hrun. rewrite apply_change_run in Hrun.
      destruct (outcome (commit_change rq branch parsed p c w)) as [sha | e];
        destruct (apply_changes rq branch parsed rest _ _)
          as [[r w2] t2] eqn:Hrest;
        inversion Hrun; subst;
        destruct (IH _ _ _ _ _ Hrest) as [Hcount Hfiles];
        simpl in Hcount, Hfiles; rewrite ?length_app in Hcount;
        simpl in Hcount.
      * split; [simpl; lia |]. intros f Hf.
        destruct (Hfiles f Hf) as [Hold | [c' Hc']].
        -- apply in_app_or in Hold. destruct Hold as [Hold | [<- | []]];
             [left; exact Hold | right; exists c; left; reflexivity].
        -- right. exists c'. right. exact Hc'.
      * split; [simpl; lia |]. intros f Hf.
        destruct (Hfiles f Hf) as [Hold | [c' Hc']];
          [left; exact Hold | right; exists c'; right; exact Hc'].
    + rewrite (apply_changes_skip rq branch parsed change rest acc Hcomplete)
        in Hrun.
      destruct (IH _ _ _ _ _ Hrun) as [Hcount Hfiles].
      split; [exact Hcount |]. intros f Hf.
      destruct (Hfiles f Hf) as [Hold | [c' Hc']];
        [left; exact Hold | right; exists c'; right; exact Hc'].
Qed.

(** X2.  The commit loop never throws, and when it ends every change that
    has a path and a content is accounted for once, as a changed file or as
    an error; every changed file is the path of a change of the set. *)
Theorem every_change_is_accounted_for (cs : list Change) (w : World) :
  match outcome (apply_changes rq branch parsed cs nothing_applied w) with
  | Value acc =>
      (List.length (filesChanged acc) + List.length (errors acc)
       = List.length (filter complete cs))%nat /\
      (forall f, In f (filesChanged acc) ->
         exists c, In {| path := Some f; content := Some c |} cs)
  | Throw _ => False
  end.
Proof.
  destruct (apply_changes_total rq branch parsed cs nothing_applied w)
    as [acc [w1 [t Hrun]]].
  rewrite Hrun. unfold outcome. simpl.
  destruct (apply_changes_accounts _ _ _ Hrun) as [Hcount Hfiles].
  split; [exact Hcount |]. intros f Hf.
  destruct (Hfiles f Hf) as [[] | Hc]. exact Hc.
Qed.

End Loop.

(** A write that passed the safety check: a PUT to the contents address of
    a path, with a content, neither of them empty, such that the content,
    trimmed, has 10 characters or more if the path is critical. *)
Definition safe_write `{Platform} (rq : Input) (e : Event) : Prop :=
  exists p c message branch sha res,
    e = Call {| method := PUT;
                url := contents_url (repo_owner rq) (repo_name rq)
                         (encodeURIComponent p);
                bearer := github_token rq;
                body := PutBody message (btoa_utf8 c) (Some branch) sha |}
          res /\
    p <> "" /\ c <> "" /\
    (In p criticalFiles -> 10 <= Js.length (Js.trim c)).

Section Safety.
Context `{Platform}.

(** A computation all of whose write calls satisfy [P], however the world
    answers. *)
Definition only (P : Event -> Prop) {A} (m : M A) : Prop :=
  forall w, Forall P (writes (trace (m w))).

Lemma only_quiet (P : Event -> Prop) {A} (m : M A) : quiet m -> only P m.
Proof. intros Hm w. rewrite (Hm w). constructor. Qed.

Lemma only_bind (P : Event -> Prop) {A B} (m : M A) (k : A -> M B) :
  only P m -> (forall a, only P (k a)) -> only P (bind m k).
Proof.
  intros Hm Hk w. unfold bind. specialize (Hm w).
  destruct (m w) as [[[a | e] w1] t1]; [| exact Hm].
  specialize (Hk a w1). destruct (k a w1) as [[r w2] t2].
  unfold trace in *. simpl in *. rewrite writes_app.
  apply Forall_app. split; assumption.
Qed.

Lemma only_try_catch (P : Event -> Prop) {A} (m : M A) (h : Exn -> M A) :
  only P m -> (forall e, only P (h e)) -> only P (try_catch m h).
Proof.
  intros Hm Hh w. unfold try_catch. specialize (Hm w).
  destruct (m w) as [[[a | e] w1] t1]; [exact Hm |].
  specialize (Hh e w1). destruct (h e w1) as [[r w2] t2].
  unfold trace in *. simpl in *. rewrite writes_app.
  apply Forall_app. split; assumption.
Qed.

Lemma find_none_all {A} (f : A -> bool) (l : list A) (x : A) :
  find f l = None -> In x l -> f x = false.
Proof. intros Hfind Hin. exact (find_none f l Hfind x Hin). Qed.

Lemma safe_block rq branch parsed cs change block :
  find unsafe cs = None -> In change cs ->
  attempted rq branch parsed change block ->
  Forall (safe_write rq) (writes block).
Proof.
  intros Hsafe Hin [p [c [-> [Hp [Hc Hblock]]]]].
  pose proof (find_none_all unsafe cs _ Hsafe Hin) as Hok.
  assert (Hlong : In p criticalFiles -> 10 <= Js.length (Js.trim c)).
  { intros Hcrit. apply mem_In in Hcrit.
    unfold unsafe in Hok. apply andb_false_iff in Hok.
    destruct Hok as [Hok | Hok].
    - unfold is_critical in Hok. cbn [path] in Hok. congruence.
    - unfold too_short in Hok. cbn [content] in Hok.
      apply orb_false_iff in Hok. destruct Hok as [_ Hok].
      apply Z.ltb_ge in Hok. exact Hok. }
  destruct Hblock as [res0 res freshFile Hdec | res0 e Hdec].
  - unfold writes. simpl. constructor; [| constructor].
    unfold put_request. eexists p, c, _, _, _, res.
    split; [reflexivity | auto].
  - unfold writes. simpl. constructor.
Qed.

Lemma only_apply_changes rq branch parsed checked :
  find unsafe checked = None ->
  forall cs acc,
    incl cs checked ->
    only (safe_write rq) (apply_changes rq branch parsed cs acc).
Proof.
  intros Hsafe. induction cs as [| change rest IH]; intros acc Hsub.
  - apply only_quiet. apply quiet_ret.
  - assert (Hrest : incl rest checked).
    { intros change' Hin. apply Hsub. right. exact Hin. }
    destruct (complete change) eqn:Hcomplete.
    + destruct (complete_inv _ Hcomplete) as [p [c [Hchange [Hp Hc]]]].
      subst change.
      rewrite (apply_changes_step rq branch parsed rest acc Hp Hc).
      apply only_bind; [| intros acc'; apply IH; exact Hrest].
      intros w. rewrite apply_change_run. unfold trace at 1. simpl.
      apply (@safe_block rq branch parsed checked
               {| path := Some p; content := Some c |}).
      * exact Hsafe.
      * apply Hsub. left. reflexivity.
      * exists p, c. repeat (split; [assumption || reflexivity |]).
        apply commit_change_commits_block.
    + rewrite (apply_changes_skip rq branch parsed change rest acc Hcomplete).
      apply IH. exact Hrest.
Qed.

Lemma only_apply_change_set rq branch parsed :
  only (safe_write rq) (apply_change_set rq branch parsed).
Proof.
  unfold apply_change_set.
  destruct (changes parsed) as [[| c0 cs'] |];
    try (apply only_quiet; apply quiet_ret).
  destruct (find unsafe (c0 :: cs')) eqn:Hfind;
    [apply only_quiet; apply quiet_ret |].
  apply only_bind;
    [apply only_apply_changes with (checked := c0 :: cs');
     [exact Hfind | apply incl_refl] |].
  intros acc. apply only_quiet. apply quiet_ret.
Qed.

(** X3.  For change sets of the shape the generator is asked for, each
    path and each content a string or absent, which is what [Change] holds:
    in every run of the handler, whatever the backends and the repository
    answer, each write call is a PUT of a change that has a path and a content
    and that passed the safety check: a critical path is only written with a
    content of 10 characters or more after trimming, and no delete is ever
    issued.  A change whose path is not a string is outside this
    statement. *)
Theorem serve_only_writes_checked_changes (req : HttpRequest) (w : World) :
  Forall (safe_write (http_json req)) (writes (trace (serve req w))).
Proof.
  revert w. change (only (safe_write (http_json req)) (serve req)).
  unfold serve. destruct (http_method req =? "OPTIONS")%string;
    [apply only_quiet; apply quiet_ret |].
  apply only_try_catch; [| intros e; apply only_quiet; apply quiet_ret].
  unfold handle. destruct (Js.truthy LOVABLE_API_KEY);
    [| apply only_quiet; apply quiet_throw].
  apply only_bind; [apply only_quiet; apply quiet_classify |].
  intros intent. destruct (negb (intent =? "code")%string);
    [apply only_quiet; apply quiet_chat_mode |].
  unfold code_mode. apply only_bind; [apply only_quiet; apply quiet_plan |].
  intros [reply | [branch parsed]];
    [apply only_quiet; apply quiet_ret | apply only_apply_change_set].
Qed.

End Safety.

(** An answer of the handler: its status is 200, 402, 429 or 500, and with
    a status other than 200 it carries an error message and nothing else. *)
Definition well_formed_reply (reply : Reply) : Prop :=
  (reply_status reply = 200 \/ reply_status reply = 402 \/
   reply_status reply = 429 \/ reply_status reply = 500) /\
  (reply_status reply <> 200 -> exists msg, reply_body reply = Failure msg).

Section Replies.
Context `{Platform}.

(** A computation whose results, when it returns, satisfy [P]. *)
Definition yields {A} (P : A -> Prop) (m : M A) : Prop :=
  forall w a, outcome (m w) = Value a -> P a.

Lemma yields_ret {A} (P : A -> Prop) (a : A) : P a -> yields P (ret a).
Proof. intros Ha w b Hb. inversion Hb. subst. exact Ha. Qed.

Lemma yields_throw {A} (P : A -> Prop) (e : Exn) : yields P (@throw _ A e).
Proof. intros w b Hb. discriminate Hb. Qed.

Lemma yields_bind {A B} (Q : A -> Prop) (P : B -> Prop) (m : M A)
  (k : A -> M B) :
  yields Q m -> (forall a, Q a -> yields P (k a)) -> yields P (bind m k).
Proof.
  intros Hm Hk w b. unfold bind. specialize (Hm w).
  destruct (m w) as [[[a | e] w1] t1]; [| discriminate].
  specialize (Hk a (Hm a eq_refl) w1 b).
  destruct (k a w1) as [[r w2] t2]. exact Hk.
Qed.

Lemma yields_any {A} (m : M A) : yields (fun _ => True) m.
Proof. intros w a _. exact I. Qed.

Lemma well_formed_json (b : ReplyBody) : well_formed_reply (json b).
Proof. split; [left; reflexivity | intros Hst; contradiction Hst; reflexivity]. Qed.

Lemma well_formed_failure (st : Z) (msg : string) :
  st = 402 \/ st = 429 \/ st = 500 -> well_formed_reply (failure st msg).
Proof. intros Hst. split; [right; exact Hst | intros _; exists msg; reflexivity]. Qed.

Lemma chat_mode_well_formed key rq : yields well_formed_reply (chat_mode key rq).
Proof.
  unfold chat_mode. apply yields_bind with (Q := fun _ => True);
    [apply yields_any |].
  intros res _. destruct (negb (ok res));
    [| apply yields_ret; apply well_formed_json].
  destruct (status res =? 429);
    [apply yields_ret; apply well_formed_failure; auto |].
  destruct (status res =? 402);
    [apply yields_ret; apply well_formed_failure; auto | apply yields_throw].
Qed.

Lemma plan_well_formed key rq :
  yields (fun p => match p with
                   | inl reply => well_formed_reply reply
                   | inr _ => True
                   end) (plan key rq).
Proof.
  unfold plan.
  apply yields_bind with (Q := fun _ => True); [apply yields_any |].
  intros branch _.
  apply yields_bind with (Q := fun _ => True); [apply yields_any |].
  intros tree _.
  apply yields_bind with (Q := fun _ => True); [apply yields_any |].
  intros selectionRes _.
  apply yields_bind with (Q := fun _ => True); [apply yields_any |].
  intros fileContents _.
  apply yields_bind with (Q := fun _ => True); [apply yields_any |].
  intros codeRes _. destruct (negb (ok codeRes)).
  - destruct (status codeRes =? 429);
      [apply yields_ret; apply well_formed_failure; auto |].
    destruct (status codeRes =? 402);
      [apply yields_ret; apply well_formed_failure; auto | apply yields_throw].
  - destruct (parse_change_set _);
      apply yields_ret; [exact I | apply well_formed_json].
Qed.

Lemma apply_change_set_well_formed rq branch parsed :
  yields well_formed_reply (apply_change_set rq branch parsed).
Proof.
  unfold apply_change_set.
  destruct (changes parsed) as [[| c0 cs'] |];
    try (apply yields_ret; apply well_formed_json).
  destruct (find unsafe (c0 :: cs'));
    [apply yields_ret; apply well_formed_json |].
  apply yields_bind with (Q := fun _ => True); [apply yields_any |].
  intros acc _. apply yields_ret. apply well_formed_json.
Qed.

Lemma handle_well_formed rq : yields well_formed_reply (handle rq).
Proof.
  unfold handle. destruct (Js.truthy LOVABLE_API_KEY); [| apply yields_throw].
  apply yields_bind with (Q := fun _ => True); [apply yields_any |].
  intros intent _. destruct (negb (intent =? "code")%string);
    [apply chat_mode_well_formed |].
  unfold code_mode. eapply yields_bind; [apply plan_well_formed |].
  intros [reply | [branch parsed]] Hp;
    [apply yields_ret; exact Hp | apply apply_change_set_well_formed].
Qed.

(** X4.  Every run of the handler ends in an answer, never in an exception
    that escapes it: the status of the answer is 200, 402, 429 or 500, and an
    answer with a status other than 200 carries an error message. *)
Theorem serve_always_answers (req : HttpRequest) (w : World) :
  exists reply,
    outcome (serve req w) = Value reply /\ well_formed_reply reply.
Proof.
  unfold serve. destruct (http_method req =? "OPTIONS")%string.
  - eexists. split; [reflexivity |].
    split; [left; reflexivity | intros Hst; contradiction Hst; reflexivity].
  - unfold try_catch.
    pose proof (handle_well_formed (http_json req) w) as Hgood.
    destruct (handle (http_json req) w) as [[[reply | e] w1] t1].
    + exists reply. split; [reflexivity |]. apply Hgood. reflexivity.
    + eexists. split; [reflexivity |]. apply well_formed_failure. auto.
Qed.

End Replies.

Section Edges.
Context `{Platform}.

(** X5.  Without the key of the generation backend the handler answers
    with status 500 and the message that says so, and makes no call at
    all. *)
Theorem handler_without_key_makes_no_call (req : HttpRequest) (w : World) :
  http_method req <> "OPTIONS" ->
  Js.truthy LOVABLE_API_KEY = false ->
  serve req w
    = (Value (failure 500 "Erro: LOVABLE_API_KEY not configured"), w, []).
Proof.
  intros Hmethod Hkey. apply String.eqb_neq in Hmethod.
  unfold serve. rewrite Hmethod. unfold try_catch, handle. rewrite Hkey.
  reflexivity.
Qed.

Definition repo_request (rq : Input) : Request :=
  get (github +++ repo_owner rq +++ "/" +++ repo_name rq) (github_token rq).

Lemma getDefaultBranch_run owner name token w res w1 :
  respond (get (github +++ owner +++ "/" +++ name) token) w = (res, w1) ->
  getDefaultBranch owner name token w
  = (if ok res then Value (Js.or_else (default_branch (data res)) "main")
     else Throw (Error "Não consegui acessar o repositório. Verifique se o token é válido."),
     w1, [ Call (get (github +++ owner +++ "/" +++ name) token) res ]).
Proof.
  intros Hres. unfold getDefaultBranch, bind, fetch. rewrite Hres.
  destruct (ok res); reflexivity.
Qed.

(** X6.  When the intent is an edit request and the repository cannot be
    read, the run ends after the intent call and the read of the repository,
    with status 500 and the message that asks to check the token; nothing is
    written. *)
Theorem unreadable_repository_ends_the_run
  (req : HttpRequest) (w w0 w1 : World) (intentRes repoRes : Response) :
  http_method req <> "OPTIONS" ->
  Js.truthy LOVABLE_API_KEY = true ->
  respond (intent_request (Js.or_else LOVABLE_API_KEY "") (http_json req)) w
    = (intentRes, w0) ->
  ok intentRes = true ->
  intent_of intentRes = "code" ->
  respond (repo_request (http_json req)) w0 = (repoRes, w1) ->
  ok repoRes = false ->
  serve req w
    = (Value (failure 500
         "Erro: Não consegui acessar o repositório. Verifique se o token é válido."),
       w1,
       [ Call (intent_request (Js.or_else LOVABLE_API_KEY "") (http_json req))
           intentRes;
         Call (repo_request (http_json req)) repoRes ]).
Proof.
  intros Hmethod Hkey Hintent Hok Hcode Hrepo Hrefused.
  apply String.eqb_neq in Hmethod.
  pose proof (classify_run _ _ _ Hintent Hok) as Hclassify.
  unfold serve. rewrite Hmethod. unfold try_catch, handle. rewrite Hkey.
  rewrite bind_value with (1 := Hclassify). rewrite Hcode. simpl.
  unfold repo_request in Hrepo.
  pose proof (getDefaultBranch_run _ _ _ _ Hrepo) as Hbranch.
  rewrite Hrefused in Hbranch.
  unfold code_mode, plan.
  rewrite bind_throw with (1 := bind_throw _ _ _ Hbranch). reflexivity.
Qed.

(** X7.  When the run ends before a change set was parsed, because the
    generation call was refused or its text did not parse, the handler
    gives the answer of that stage as it is and the run has written
    nothing. *)
Theorem run_without_change_set_writes_nothing
  (req : HttpRequest) (w w0 w1 : World) (t0 t1 : list Event) (reply : Reply) :
  http_method req <> "OPTIONS" ->
  Js.truthy LOVABLE_API_KEY = true ->
  classify (Js.or_else LOVABLE_API_KEY "") (http_json req) w
    = (Value "code", w0, t0) ->
  plan (Js.or_else LOVABLE_API_KEY "") (http_json req) w0
    = (Value (inl reply), w1, t1) ->
  serve req w = (Value reply, w1, t0 ++ t1) /\
  writes (t0 ++ t1) = [].
Proof.
  intros Hmethod Hkey Hclassify Hplan. apply String.eqb_neq in Hmethod.
  split.
  - unfold serve. rewrite Hmethod. unfold try_catch, handle. rewrite Hkey.
    rewrite bind_value with (1 := Hclassify). simpl.
    unfold code_mode. rewrite bind_value with (1 := Hplan). simpl.
    rewrite app_nil_r. reflexivity.
  - pose proof (quiet_classify (Js.or_else LOVABLE_API_KEY "") (http_json req)
                  w) as Hq0.
    pose proof (quiet_plan (Js.or_else LOVABLE_API_KEY "") (http_json req) w0)
      as Hq1.
    rewrite Hclassify in Hq0. rewrite Hplan in Hq1.
    unfold trace in Hq0, Hq1. simpl in Hq0, Hq1.
    rewrite writes_app, Hq0, Hq1. reflexivity.
Qed.

End Edges.

(** X8.  The text of the response is never empty. *)
Theorem response_text_is_never_empty (parsed : ChangeSet) (acc : Applied) :
  build_response parsed acc <> "".
Proof.
  rewrite build_response_cases.
  assert (Hsuccess : success_text parsed acc <> "").
  { unfold success_text. apply append_not_empty_l.
    apply or_else_not_empty. discriminate. }
  destruct (filesChanged acc) as [| f fs], (errors acc) as [| e es].
  - discriminate.
  - unfold hard_failure_text. discriminate.
  - exact Hsuccess.
  - apply append_not_empty_l. exact Hsuccess.
Qed.

Definition keyless : Platform :=
  Script.platform (fun _ => None) (fun _ => None) None.

Lemma handler_without_key_makes_no_call_witness :
  @serve keyless (post (ask "oi")) [ Script.says "code" ]
    = (Value (failure 500 "Erro: LOVABLE_API_KEY not configured"),
       [ Script.says "code" ], []).
Proof.
  apply (@handler_without_key_makes_no_call keyless (post (ask "oi"))
           [ Script.says "code" ]).
  - discriminate.
  - reflexivity.
Defined.

Lemma unreadable_repository_ends_the_run_witness :
  @serve chatty (post (ask "muda a cor"))
    [ Script.says "code"; Script.refused 404 ]
    = (Value (failure 500
         "Erro: Não consegui acessar o repositório. Verifique se o token é válido."),
       [],
       [ Call (@intent_request "key" (ask "muda a cor")) (Script.says "code");
         Call (repo_request (ask "muda a cor")) (Script.refused 404) ]).
Proof.
  apply (@unreadable_repository_ends_the_run chatty (post (ask "muda a cor"))
           [ Script.says "code"; Script.refused 404 ]
           [ Script.refused 404 ] [] (Script.says "code")
           (Script.refused 404)).
  - discriminate.
  - reflexivity.
  - reflexivity.
  - reflexivity.
  - reflexivity.
  - reflexivity.
  - reflexivity.
Defined.

(** A run in which the text of the generator is no JSON. *)
Definition unparsable : list Response :=
  [ Script.says "code"; Script.repo "main"; Script.blobs [ "a.ts" ];
    Script.says "[]"; Script.file "a.ts" "let a;" "s1";
    Script.says "Claro! Vou mudar a cor." ].

Lemma run_without_change_set_writes_nothing_witness :
  outcome (@serve chatty (post (ask "muda a cor")) unparsable)
    = Value (json (Answer
        "Desculpa, tive um problema ao processar. Tenta de novo com mais detalhes? 😅"
        [] None None)) /\
  writes (trace (@serve chatty (post (ask "muda a cor")) unparsable)) = [].
Proof.
  destruct (@run_without_change_set_writes_nothing chatty
              (post (ask "muda a cor")) unparsable (tl unparsable) []
              (firstn 1 (trace (@serve chatty (post (ask "muda a cor"))
                                  unparsable)))
              (skipn 1 (trace (@serve chatty (post (ask "muda a cor"))
                                 unparsable)))
              (json (Answer
                 "Desculpa, tive um problema ao processar. Tenta de novo com mais detalhes? 😅"
                 [] None None)))
    as [Hrun Hquiet].
  - discriminate.
  - reflexivity.
  - reflexivity.
  - reflexivity.
  - split; [rewrite Hrun; reflexivity | exact Hquiet].
Defined.

(** *** The helpers of the handler *)

Lemma existsb_Permutation {A} (f : A -> bool) (l l' : list A) :
  Permutation l l' -> existsb f l = existsb f l'.
Proof.
  induction 1 as [| x l l' _ IH | x y l | l l' l'' _ IH1 _ IH2]; simpl.
  - reflexivity.
  - rewrite IH. reflexivity.
  - destruct (f x), (f y); reflexivity.
  - congruence.
Qed.

(** X9.  The project type depends on which files the tree holds, not on
    the order in which it lists them. *)
Theorem project_type_ignores_order (files files' : list string) :
  Permutation files files' ->
  detectProjectType files = detectProjectType files'.
Proof.
  intros Hperm. unfold detectProjectType, Js.mem.
  rewrite !(existsb_Permutation _ Hperm). reflexivity.
Qed.

Lemma project_type_ignores_order_witness :
  detectProjectType [ "src/main.tsx"; "vite.config.ts"; "package.json" ]
    = detectProjectType [ "package.json"; "src/main.tsx"; "vite.config.ts" ].
Proof.
  apply project_type_ignores_order.
  apply Permutation_sym.
  apply (Permutation_cons_append [ "src/main.tsx"; "vite.config.ts" ]
           "package.json").
Defined.

Section Decoding.
Context `{Platform}.

(** X10.  A file whose base64 content decodes to bytes that are no UTF-8
    text is not an error: [getFileContent] makes its one call and returns the
    bytes as they are, with the marker and the path of the answer. *)
Theorem binary_content_is_returned_raw
  (owner name p token c raw : string) (w w1 : World) (res : Response) :
  respond (get (contents_url owner name (encodeURIComponent p)) token) w
    = (res, w1) ->
  ok res = true ->
  encoding (data res) = Some "base64" ->
  data_content (data res) = Some c ->
  atob (Js.remove_newlines c) = Value raw ->
  decode_utf8 raw = None ->
  getFileContent owner name p token w
    = (Value (Some {| file_content := raw; file_sha := data_sha (data res);
                      file_path := data_path (data res) |}),
       w1,
       [ Call (get (contents_url owner name (encodeURIComponent p)) token)
           res ]).
Proof.
  intros Hres Hok Henc Hcontent Hatob Hdecode.
  rewrite (getFileContent_run owner name p token w Hres).
  unfold decoded. rewrite Hok, Henc, Hcontent, Hatob, Hdecode. reflexivity.
Qed.

End Decoding.

(** A runtime for which no text is UTF-8. *)
Definition binary_only : Platform :=
  {| World := list Response;
     respond := Script.play;
     arrival := fun _ _ => 0%nat;
     atob := fun s => Value s;
     decode_utf8 := fun _ => None;
     btoa_utf8 := fun s => s;
     encodeURIComponent := fun s => s;
     parse_paths := fun _ => None;
     parse_change_set := fun _ => None;
     LOVABLE_API_KEY := None |}.

Lemma binary_content_is_returned_raw_witness :
  @getFileContent binary_only "o" "r" "logo.png" "t"
    [ Script.file "logo.png" ("iVBO" +++ Js.nl +++ "Rw0K") "s1" ]
    = (Value (Some {| file_content := "iVBORw0K"; file_sha := Some "s1";
                      file_path := Some "logo.png" |}),
       [],
       [ Call (get (contents_url "o" "r" "logo.png") "t")
           (Script.file "logo.png" ("iVBO" +++ Js.nl +++ "Rw0K") "s1") ]).
Proof.
  apply (@binary_content_is_returned_raw binary_only "o" "r" "logo.png" "t"
           ("iVBO" +++ Js.nl +++ "Rw0K") "iVBORw0K"
           [ Script.file "logo.png" ("iVBO" +++ Js.nl +++ "Rw0K") "s1" ] []
           (Script.file "logo.png" ("iVBO" +++ Js.nl +++ "Rw0K") "s1"));
    reflexivity.
Defined.

(** Text that holds no code fence. *)
Lemma prefix_of_prefix (p q s : string) :
  prefix (p +++ q) s = true -> prefix p s = true.
Proof.
  intros Hpq. apply JsFacts.prefix_app in Hpq. destruct Hpq as [r ->].
  apply JsFacts.prefix_app. exists (q +++ r).
  clear. induction p as [| a p IH]; simpl; [reflexivity | rewrite IH; reflexivity].
Qed.

Lemma remove_all_nl_absent (p s : string) :
  Js.includes s p = false -> Js.remove_all_nl p 0 s = s.
Proof.
  induction s as [| ch s IH]; intros Habsent; [reflexivity |].
  cbn [Js.includes] in Habsent. apply orb_false_iff in Habsent.
  destruct Habsent as [Hhere Hlater].
  cbn [Js.remove_all_nl]. rewrite Hhere. rewrite (IH Hlater). reflexivity.
Qed.

Lemma includes_of_prefix (p q s : string) :
  Js.includes s p = false -> Js.includes s (p +++ q) = false.
Proof.
  induction s as [| ch s IH]; cbn [Js.includes]; intros Habsent;
    apply orb_false_iff in Habsent; destruct Habsent as [Hhere Hlater];
    apply orb_false_iff; split; auto;
    destruct (prefix (p +++ q) _) eqn:Hpq; auto;
    apply prefix_of_prefix in Hpq; congruence.
Qed.

(** X11.  A text of the generator that holds no code fence is handed to the
    parser as it is, trimmed. *)
Theorem text_without_fences_is_only_trimmed (raw : string) :
  Js.includes raw "```" = false -> strip_fences raw = Js.trim raw.
Proof.
  intros Habsent. unfold strip_fences.
  rewrite (remove_all_nl_absent "```json" raw).
  - rewrite (remove_all_nl_absent "```" raw Habsent). reflexivity.
  - exact (includes_of_prefix "```" "json" raw Habsent).
Qed.

Lemma text_without_fences_is_only_trimmed_witness :
  strip_fences (" [" +++ Js.dquote +++ "a.ts" +++ Js.dquote +++ "]" +++ Js.nl)
    = Js.trim (" [" +++ Js.dquote +++ "a.ts" +++ Js.dquote +++ "]" +++ Js.nl).
Proof.
  apply text_without_fences_is_only_trimmed. reflexivity.
Defined.

End CodeAgentRuns.

(** ** The backend adapter: every run *)

Module BackendRuns.
Import Backend BackendFacts.

Section Adapter.
Context `{Platform}.

Variable config : AiConfig.
Variable model : string.
Variable messages : list ChatMessage.
Variable temperature : Q.
Variable maxTokens : option Z.

Definition primary : Request :=
  primary_request config model messages temperature maxTokens.

(** One turn of the loop, by the answer of the primary backend. *)
Lemma callAi_from_turn (turns : nat) (attempt : Z) (w : World) res w1 :
  (attempt <? maxRetries) = true ->
  respond primary w = (res, w1) ->
  callAi_from (S turns) attempt config model messages temperature maxTokens w
  = (if ok res then (Value (data res), w1, [ Call primary res ])
    else if status res =? 429 then
      if attempt <? maxRetries - 1 then
        let next := callAi_from turns (attempt + 1) config model messages
                      temperature maxTokens w1 in
        (outcome next, world_after next,
         Call primary res :: Wait (2 ^ (attempt + 1) * 1000) :: trace next)
      else
        let next := callLovableAi messages temperature maxTokens w1 in
        (outcome next, world_after next, Call primary res :: trace next)
    else if (status res =? 401) || (status res =? 403) then
      (Throw (Thrown 401 "Chave API inválida. Verifique nas configurações do perfil."),
       w1, [ Call primary res ])
    else (Throw (Thrown 500 "Erro na IA"), w1, [ Call primary res ])).
Proof.
  intros Hturn Hres. cbn [callAi_from]. rewrite Hturn.
  unfold bind at 1, fetch at 1. fold primary. rewrite Hres.
  destruct (ok res); [reflexivity |].
  destruct (status res =? 429).
  - destruct (attempt <? maxRetries - 1).
    + unfold bind, sleep.
      destruct (callAi_from turns (attempt + 1) config model messages
                  temperature maxTokens w1) as [[r w2] t2].
      reflexivity.
    + destruct (callLovableAi messages temperature maxTokens w1)
        as [[r w2] t2].
      reflexivity.
  - destruct ((status res =? 401) || (status res =? 403)); reflexivity.
Qed.

(** X12.  An answer of the primary backend that is neither a success nor a
    rate limit ends the call at once, with no retry, no wait and no call to
    the fallback: a credential problem (401 or 403) is thrown with status
    401, anything else with status 500. *)
Theorem refusal_is_not_retried (w w1 : World) (res : Response) :
  respond primary w = (res, w1) ->
  ok res = false ->
  status res <> 429 ->
  callAi config model messages temperature maxTokens w
  = (Throw (if (status res =? 401) || (status res =? 403) then
              Thrown 401 "Chave API inválida. Verifique nas configurações do perfil."
            else Thrown 500 "Erro na IA"),
     w1, [ Call primary res ]).
Proof.
  intros Hres Hok Hlimit. apply Z.eqb_neq in Hlimit.
  unfold callAi. change (Z.to_nat maxRetries) with 3%nat.
  rewrite (callAi_from_turn 2 0 w eq_refl Hres), Hok, Hlimit.
  destruct ((status res =? 401) || (status res =? 403)); reflexivity.
Qed.

(** X13.  After one rate limit the adapter waits 2000 ms and asks again; the
    answer to the second call, when it is a success, is what the adapter
    returns, and the fallback is not called. *)
Theorem one_rate_limit_is_retried
  (w w1 w2 : World) (r1 r2 : Response) :
  respond primary w = (r1, w1) ->
  status r1 = 429 ->
  respond primary w1 = (r2, w2) ->
  ok r2 = true ->
  callAi config model messages temperature maxTokens w
  = (Value (data r2), w2,
     [ Call primary r1; Wait 2000; Call primary r2 ]).
Proof.
  intros H1 S1 H2 Hok.
  unfold callAi. change (Z.to_nat maxRetries) with 3%nat.
  rewrite (callAi_from_turn 2 0 w eq_refl H1).
  rewrite (rate_limited_not_ok _ S1), S1.
  change (429 =? 429) with true. change (0 <? maxRetries - 1) with true.
  cbv iota zeta.
  rewrite (callAi_from_turn 1 (0 + 1) w1 eq_refl H2), Hok. reflexivity.
Qed.

(** After three rate limits the adapter hands over to the fallback. *)
Lemma callAi_after_three_limits (w w1 w2 w3 : World) (r1 r2 r3 : Response) :
  respond primary w = (r1, w1) -> status r1 = 429 ->
  respond primary w1 = (r2, w2) -> status r2 = 429 ->
  respond primary w2 = (r3, w3) -> status r3 = 429 ->
  callAi config model messages temperature maxTokens w
  = (outcome (callLovableAi messages temperature maxTokens w3),
     world_after (callLovableAi messages temperature maxTokens w3),
     [ Call primary r1; Wait 2000; Call primary r2; Wait 4000;
       Call primary r3 ]
       ++ trace (callLovableAi messages temperature maxTokens w3)).
Proof.
  intros H1 S1 H2 S2 H3 S3.
  unfold callAi. change (Z.to_nat maxRetries) with 3%nat.
  rewrite (callAi_from_turn 2 0 w eq_refl H1).
  rewrite (rate_limited_not_ok _ S1), S1.
  change (429 =? 429) with true. change (0 <? maxRetries - 1) with true.
  cbv iota zeta.
  rewrite (callAi_from_turn 1 (0 + 1) w1 eq_refl H2).
  rewrite (rate_limited_not_ok _ S2), S2.
  change (429 =? 429) with true. change (0 + 1 <? maxRetries - 1) with true.
  cbv iota zeta.
  rewrite (callAi_from_turn 0 (0 + 1 + 1) w2 eq_refl H3).
  rewrite (rate_limited_not_ok _ S3), S3.
  change (429 =? 429) with true.
  change (0 + 1 + 1 <? maxRetries - 1) with false.
  cbv iota zeta. reflexivity.
Qed.

(** X14.  When the fallback has no key, three rate limits end in the error
    of status 500 that says the fallback is not configured, and no call
    follows the third answer. *)
Theorem unconfigured_fallback_is_not_called
  (w w1 w2 w3 : World) (r1 r2 r3 : Response) :
  respond primary w = (r1, w1) -> status r1 = 429 ->
  respond primary w1 = (r2, w2) -> status r2 = 429 ->
  respond primary w2 = (r3, w3) -> status r3 = 429 ->
  Js.truthy LOVABLE_API_KEY = false ->
  callAi config model messages temperature maxTokens w
  = (Throw (Thrown 500 "Fallback AI não configurado"), w3,
     [ Call primary r1; Wait 2000; Call primary r2; Wait 4000;
       Call primary r3 ]).
Proof.
  intros H1 S1 H2 S2 H3 S3 Hkey.
  rewrite callAi_after_three_limits
    with (1 := H1) (2 := S1) (3 := H2) (4 := S2) (5 := H3) (6 := S3).
  unfold callLovableAi. rewrite Hkey. reflexivity.
Qed.

(** X15.  When the fallback refuses too, the adapter throws with the status
    of that refusal when it is a rate limit (429) or exhausted credit (402),
    and with status 500 otherwise. *)
Theorem refused_fallback_keeps_its_status
  (key : string) (w w1 w2 w3 w4 : World) (r1 r2 r3 r4 : Response) :
  respond primary w = (r1, w1) -> status r1 = 429 ->
  respond primary w1 = (r2, w2) -> status r2 = 429 ->
  respond primary w2 = (r3, w3) -> status r3 = 429 ->
  LOVABLE_API_KEY = Some key -> key <> "" ->
  respond (fallback_request key messages temperature maxTokens) w3
    = (r4, w4) ->
  ok r4 = false ->
  outcome (callAi config model messages temperature maxTokens w)
  = Throw (if status r4 =? 429 then
             Thrown 429 "Limite de requisições atingido. Tente novamente em alguns segundos."
           else if status r4 =? 402 then Thrown 402 "Créditos de IA esgotados."
           else Thrown 500 "Erro no fallback de IA").
Proof.
  intros H1 S1 H2 S2 H3 S3 Hkey Hne H4 Hok.
  rewrite callAi_after_three_limits
    with (1 := H1) (2 := S1) (3 := H2) (4 := S2) (5 := H3) (6 := S3).
  rewrite (callLovableAi_run _ _ _ _ Hkey Hne H4), Hok.
  unfold outcome. simpl.
  destruct (status r4 =? 429); [reflexivity |].
  destruct (status r4 =? 402); reflexivity.
Qed.

Lemma callLovableAi_trace (w : World) :
  trace (callLovableAi messages temperature maxTokens w) = [] \/
  exists key r4,
    trace (callLovableAi messages temperature maxTokens w)
      = [ Call (fallback_request key messages temperature maxTokens) r4 ].
Proof.
  unfold callLovableAi. destruct (Js.truthy LOVABLE_API_KEY);
    [| left; reflexivity].
  right. unfold bind, fetch.
  destruct (respond (fallback_request (Js.or_else LOVABLE_API_KEY "") messages
                       temperature maxTokens) w) as [r4 w4].
  exists (Js.or_else LOVABLE_API_KEY ""), r4.
  destruct (ok r4); simpl; [reflexivity |].
  destruct (status r4 =? 429); simpl; [reflexivity |].
  destruct (status r4 =? 402); reflexivity.
Qed.

(** X16.  Whatever the backends answer, a call of the adapter makes at most
    three calls to the primary backend, with a wait of 2000 ms before the
    second and of 4000 ms before the third, and at most one call to the
    fallback, which comes last and only after three calls to the primary. *)
Theorem adapter_calls_are_bounded (w : World) :
  exists r1 r2 r3,
    trace (callAi config model messages temperature maxTokens w)
      = [ Call primary r1 ] \/
    trace (callAi config model messages temperature maxTokens w)
      = [ Call primary r1; Wait 2000; Call primary r2 ] \/
    trace (callAi config model messages temperature maxTokens w)
      = [ Call primary r1; Wait 2000; Call primary r2; Wait 4000;
          Call primary r3 ] \/
    exists key r4,
      trace (callAi config model messages temperature maxTokens w)
        = [ Call primary r1; Wait 2000; Call primary r2; Wait 4000;
            Call primary r3;
            Call (fallback_request key messages temperature maxTokens) r4 ].
Proof.
  destruct (respond primary w) as [r1 w1] eqn:H1.
  destruct (respond primary w1) as [r2 w2] eqn:H2.
  destruct (respond primary w2) as [r3 w3] eqn:H3.
  exists r1, r2, r3.
  unfold callAi. change (Z.to_nat maxRetries) with 3%nat.
  rewrite (callAi_from_turn 2 0 w eq_refl H1).
  destruct (ok r1); [left; reflexivity |].
  destruct (status r1 =? 429);
    [| left; destruct ((status r1 =? 401) || (status r1 =? 403));
       reflexivity].
  change (0 <? maxRetries - 1) with true. cbv iota zeta.
  rewrite (callAi_from_turn 1 (0 + 1) w1 eq_refl H2).
  destruct (ok r2); [right; left; reflexivity |].
  destruct (status r2 =? 429);
    [| right; left; destruct ((status r2 =? 401) || (status r2 =? 403));
       reflexivity].
  change (0 + 1 <? maxRetries - 1) with true. cbv iota zeta.
  rewrite (callAi_from_turn 0 (0 + 1 + 1) w2 eq_refl H3).
  destruct (ok r3); [right; right; left; reflexivity |].
  destruct (status r3 =? 429);
    [| right; right; left;
       destruct ((status r3 =? 401) || (status r3 =? 403)); reflexivity].
  change (0 + 1 + 1 <? maxRetries - 1) with false. cbv iota zeta.
  right. right.
  destruct (callLovableAi_trace w3) as [Hnone | [key [r4 Hone]]].
  - left. unfold trace at 1. simpl. rewrite Hnone. reflexivity.
  - right. exists key, r4. unfold trace at 1. simpl. rewrite Hone.
    reflexivity.
Qed.

End Adapter.

Section Bounds.
Context `{Platform}.

Lemma quiet_callLovableAi messages temperature maxTokens :
  quiet (callLovableAi messages temperature maxTokens).
Proof.
  unfold callLovableAi. destruct (Js.truthy LOVABLE_API_KEY);
    [| apply quiet_throw].
  apply quiet_bind; [apply quiet_fetch; right; reflexivity |].
  intros res. destruct (negb (ok res)); [| apply quiet_ret].
  destruct (status res =? 429); [apply quiet_throw |].
  destruct (status res =? 402); apply quiet_throw.
Qed.

Lemma quiet_callAi_from turns config model messages temperature maxTokens :
  forall attempt,
    quiet (callAi_from turns attempt config model messages temperature
             maxTokens).
Proof.
  induction turns as [| turns IH]; intros attempt; cbn [callAi_from];
    [apply quiet_throw |].
  destruct (attempt <? maxRetries); [| apply quiet_throw].
  apply quiet_bind; [apply quiet_fetch; right; reflexivity |].
  intros res. destruct (ok res); [apply quiet_ret |].
  destruct (status res =? 429).
  - destruct (attempt <? maxRetries - 1); [| apply quiet_callLovableAi].
    apply quiet_bind; [intros w; reflexivity | intros _; apply IH].
  - destruct ((status res =? 401) || (status res =? 403)); apply quiet_throw.
Qed.

Lemma quiet_callAi config model messages temperature maxTokens :
  quiet (callAi config model messages temperature maxTokens).
Proof. apply quiet_callAi_from. Qed.





End Bounds.

Definition gemini : AiConfig := getAiConfig "gemini" "user-key".

Lemma refusal_is_not_retried_witness :
  @callAi with_fallback gemini "gemini-2.0-flash" hello (1 # 10) None
    [ Script.refused 403; Script.says "oi" ]
  = (Throw (Thrown 401
       "Chave API inválida. Verifique nas configurações do perfil."),
     [ Script.says "oi" ],
     [ Call (primary gemini "gemini-2.0-flash" hello (1 # 10) None)
         (Script.refused 403) ]).
Proof.
  apply (@refusal_is_not_retried with_fallback gemini "gemini-2.0-flash"
           hello (1 # 10) None [ Script.refused 403; Script.says "oi" ]
           [ Script.says "oi" ] (Script.refused 403)).
  - reflexivity.
  - reflexivity.
  - discriminate.
Defined.

Lemma one_rate_limit_is_retried_witness :
  @callAi with_fallback gemini "gemini-2.0-flash" hello (1 # 10) None
    [ Script.refused 429; Script.says "oi" ]
  = (Value (data (Script.says "oi")), [],
     [ Call (primary gemini "gemini-2.0-flash" hello (1 # 10) None)
         (Script.refused 429);
       Wait 2000;
       Call (primary gemini "gemini-2.0-flash" hello (1 # 10) None)
         (Script.says "oi") ]).
Proof.
  apply (@one_rate_limit_is_retried with_fallback gemini "gemini-2.0-flash"
           hello (1 # 10) None [ Script.refused 429; Script.says "oi" ]
           [ Script.says "oi" ] [] (Script.refused 429) (Script.says "oi"));
    reflexivity.
Defined.

Definition without_fallback : Platform :=
  Script.platform (fun _ => None) (fun _ => None) None.

Lemma unconfigured_fallback_is_not_called_witness :
  @callAi without_fallback gemini "gemini-2.0-flash" hello (1 # 10) None
    throttled
  = (Throw (Thrown 500 "Fallback AI não configurado"),
     [ Script.says "oi" ],
     [ Call (primary gemini "gemini-2.0-flash" hello (1 # 10) None)
         (Script.refused 429);
       Wait 2000;
       Call (primary gemini "gemini-2.0-flash" hello (1 # 10) None)
         (Script.refused 429);
       Wait 4000;
       Call (primary gemini "gemini-2.0-flash" hello (1 # 10) None)
         (Script.refused 429) ]).
Proof.
  apply (@unconfigured_fallback_is_not_called without_fallback gemini
           "gemini-2.0-flash" hello (1 # 10) None throttled
           (tl throttled) (tl (tl throttled)) [ Script.says "oi" ]
           (Script.refused 429) (Script.refused 429) (Script.refused 429));
    reflexivity.
Defined.

Lemma refused_fallback_keeps_its_status_witness :
  outcome (@callAi with_fallback gemini "gemini-2.0-flash" hello (1 # 10) None
             [ Script.refused 429; Script.refused 429; Script.refused 429;
               Script.refused 402 ])
  = Throw (Thrown 402 "Créditos de IA esgotados.").
Proof.
  apply (@refused_fallback_keeps_its_status with_fallback gemini
           "gemini-2.0-flash" hello (1 # 10) None "key"
           [ Script.refused 429; Script.refused 429; Script.refused 429;
             Script.refused 402 ]
           [ Script.refused 429; Script.refused 429; Script.refused 402 ]
           [ Script.refused 429; Script.refused 402 ]
           [ Script.refused 402 ] []
           (Script.refused 429) (Script.refused 429) (Script.refused 429)
           (Script.refused 402)); try reflexivity.
  discriminate.
Defined.

End BackendRuns.

(** ** The undo engine: every run *)

Module UndoRuns.
Import Undo UndoFacts.

(** The marker a write call sends. *)
Definition sha_sent (b : Body) : option string :=
  match b with
  | PutBody _ _ _ sha => sha
  | DeleteBody _ sha => sha
  | _ => None
  end.

(** Every write of the trace comes right after a read of the same address
    that was answered with success, and sends the marker of that answer.
    [prev] is the event before the trace. *)
Fixpoint guarded (prev : option Event) (t : list Event) : Prop :=
  match t with
  | [] => True
  | e :: t' =>
      (is_write e = true ->
       match prev, e with
       | Some (Call g r), Call u _ =>
           method g = GET /\ url g = url u /\ ok r = true /\
           sha_sent (body u) = data_sha (data r)
       | _, _ => False
       end) /\
      guarded (Some e) t'
  end.

(** How a run of the handler can go. *)
Inductive run_of `{Platform} (req : HttpRequest)
  : Outcome Reply -> list Event -> Prop :=
| preflight :
    run_of req (Value {| reply_status := 200; reply_body := NoContent |}) []
| rejected (msg : string) :
    run_of req (Value {| reply_status := 500; reply_body := Failure msg |}) []
| commit_unusable (msg : string) (commitReq : Request) (commitRes : Response) :
    method commitReq = GET ->
    run_of req (Value {| reply_status := 500; reply_body := Failure msg |})
      [ Call commitReq commitRes ]
| reverted (owner name token parentSha : string) (commitReq : Request)
    (commitRes : Response) (blocks : list (list Event * list string)) :
    method commitReq = GET ->
    Forall2 (fun file block =>
               reverts owner name token parentSha file (fst block) (snd block))
      (files_of (data commitRes)) blocks ->
    run_of req (Value (json (Reverted (concat (map snd blocks)))))
      (Call commitReq commitRes :: concat (map fst blocks)).

Section EveryRun.
Context `{Platform}.

Lemma serve_run_of (req : HttpRequest) (w : World) :
  run_of req (outcome (serve req w)) (trace (serve req w)).
Proof.
  assert (Hrun : exists r w' t,
    serve req w = (r, w', t) /\ run_of req r t).
  { unfold serve. destruct (http_method req =? "OPTIONS")%string.
    { eexists _, _, _. split; [reflexivity | apply preflight]. }
    unfold try_catch, handle.
    destruct (negb (Js.truthy (commit_sha (http_json req)))
              || negb (Js.truthy (repo_owner (http_json req)))
              || negb (Js.truthy (repo_name (http_json req)))
              || negb (Js.truthy (github_token (http_json req)))).
    { eexists _, _, _. split; [reflexivity | apply rejected]. }
    unfold bind at 1, fetch at 1.
    destruct (respond _ w) as [commitRes w1].
    destruct (ok commitRes); simpl.
    2:{ eexists _, _, _. split; [reflexivity |].
        apply commit_unusable. reflexivity. }
    destruct (Js.truthy (parent_sha (data commitRes))); simpl.
    2:{ eexists _, _, _. split; [reflexivity |].
        apply commit_unusable. reflexivity. }
    destruct (revert_files_reverts
                (Js.or_else (repo_owner (http_json req)) "")
                (Js.or_else (repo_name (http_json req)) "")
                (Js.or_else (github_token (http_json req)) "")
                (Js.or_else (parent_sha (data commitRes)) "")
                (files_of (data commitRes)) [] w1)
      as [w2 [blocks [Hloop Hall]]].
    unfold bind. rewrite Hloop. simpl. rewrite app_nil_r.
    eexists _, _, _. split; [reflexivity |].
    eapply reverted; [reflexivity | exact Hall]. }
  destruct Hrun as [r [w' [t [-> Hrun]]]]. exact Hrun.
Qed.

(** X18.  Every run of the undo handler ends in an answer, never in an
    exception that escapes it: the list of reverted paths with status 200
    (the empty answer for a preflight request), or an error message with
    status 500. *)
Theorem undo_always_answers (req : HttpRequest) (w : World) :
  exists reply,
    outcome (serve req w) = Value reply /\
    ((reply_status reply = 200 /\
      (reply_body reply = NoContent \/
       exists paths, reply_body reply = Reverted paths)) \/
     (reply_status reply = 500 /\
      exists msg, reply_body reply = Failure msg)).
Proof.
  destruct (serve_run_of req w); eexists; (split; [reflexivity |]).
  - left. split; [reflexivity | left; reflexivity].
  - right. split; [reflexivity | eexists; reflexivity].
  - right. split; [reflexivity | eexists; reflexivity].
  - left. split; [reflexivity | right; eexists; reflexivity].
Qed.

Lemma guarded_block owner name token parentSha file block more rest prev :
  reverts owner name token parentSha file block more ->
  (forall prev', guarded prev' rest) ->
  guarded prev (block ++ rest).
Proof.
  intros Hblock Hrest.
  destruct Hblock; simpl; repeat split;
    try discriminate; try assumption; try apply Hrest.
Qed.

Lemma guarded_blocks owner name token parentSha fs blocks :
  Forall2 (fun file block =>
             reverts owner name token parentSha file (fst block) (snd block))
    fs blocks ->
  forall prev, guarded prev (concat (map fst blocks)).
Proof.
  induction 1 as [| file block fs blocks Hblock _ IH]; intros prev.
  - exact I.
  - simpl. eapply guarded_block; [exact Hblock | exact IH].
Qed.

(** X19.  In every run of the undo handler each delete and each write comes
    right after a read of the same address that was answered with success,
    and sends the revision marker of that answer: no marker is reused from
    the commit or from an earlier read. *)
Theorem undo_writes_over_fresh_markers (req : HttpRequest) (w : World) :
  guarded None (trace (serve req w)).
Proof.
  destruct (serve_run_of req w) as [| msg | msg commitReq commitRes Hget
    | owner name token parentSha commitReq commitRes blocks Hget Hall].
  - exact I.
  - exact I.
  - cbn. rewrite Hget. split; [discriminate | exact I].
  - cbn [guarded is_write]. rewrite Hget.
    split; [discriminate |]. eapply guarded_blocks. exact Hall.
Qed.

Lemma writes_blocks owner name token parentSha fs blocks :
  Forall2 (fun file block =>
             reverts owner name token parentSha file (fst block) (snd block))
    fs blocks ->
  List.length (concat (map snd blocks))
    = List.length (writes (concat (map fst blocks))).
Proof.
  induction 1 as [| file block fs blocks Hblock _ IH]; [reflexivity |].
  simpl. rewrite writes_app, !length_app, IH.
  f_equal. destruct Hblock; reflexivity.
Qed.

(** X20.  The undo handler reports exactly one path for each delete or
    write it issued; a run that ends in an error has issued none. *)
Theorem reverted_paths_are_the_writes (req : HttpRequest) (w : World) :
  match outcome (serve req w) with
  | Value reply =>
      match reply_body reply with
      | Reverted paths =>
          List.length paths = List.length (writes (trace (serve req w)))
      | _ => writes (trace (serve req w)) = []
      end
  | Throw _ => False
  end.
Proof.
  destruct (serve_run_of req w) as [| msg | msg commitReq commitRes Hget
    | owner name token parentSha commitReq commitRes blocks Hget Hall]; simpl.
  - reflexivity.
  - reflexivity.
  - unfold writes. simpl. rewrite Hget. reflexivity.
  - unfold writes at 1. simpl. rewrite Hget.
    exact (writes_blocks Hall).
Qed.

(** X21.  A request that lacks the commit identifier, the owner, the name of
    the repository or the token is answered with status 500 and the message
    that says so, before any call is made. *)
Theorem incomplete_undo_request_makes_no_call (req : HttpRequest) (w : World) :
  http_method req <> "OPTIONS" ->
  Js.truthy (commit_sha (http_json req)) = false \/
  Js.truthy (repo_owner (http_json req)) = false \/
  Js.truthy (repo_name (http_json req)) = false \/
  Js.truthy (github_token (http_json req)) = false ->
  serve req w
    = (Value {| reply_status := 500;
                reply_body := Failure "Missing required parameters" |},
       w, []).
Proof.
  intros Hmethod Hmissing. apply String.eqb_neq in Hmethod.
  unfold serve. rewrite Hmethod. unfold try_catch, handle.
  assert (Htest :
    negb (Js.truthy (commit_sha (http_json req)))
    || negb (Js.truthy (repo_owner (http_json req)))
    || negb (Js.truthy (repo_name (http_json req)))
    || negb (Js.truthy (github_token (http_json req))) = true).
  { destruct Hmissing as [-> | [-> | [-> | ->]]]; simpl;
      rewrite ?orb_true_r; reflexivity. }
  rewrite Htest. reflexivity.
Qed.

(** X22.  When the commit cannot be read the handler answers with status
    500 after that one read, and touches no file. *)
Theorem unreadable_commit_ends_the_undo
  (req : HttpRequest) (sha owner name token : string)
  (w w1 : World) (commitRes : Response) :
  http_method req <> "OPTIONS" ->
  asks (http_json req) sha owner name token ->
  respond (get (commit_url owner name sha) token) w = (commitRes, w1) ->
  ok commitRes = false ->
  serve req w
    = (Value {| reply_status := 500;
                reply_body := Failure "Could not fetch commit details" |},
       w1, [ Call (get (commit_url owner name sha) token) commitRes ]).
Proof.
  intros Hmethod Hasks Hres Hok. apply String.eqb_neq in Hmethod.
  destruct (asks_truthy Hasks) as [T1 [T2 [T3 [T4 [E1 [E2 [E3 E4]]]]]]].
  unfold serve. rewrite Hmethod. unfold try_catch, handle.
  rewrite T1, T2, T3, T4, E1, E2, E3, E4. simpl.
  unfold bind, fetch. rewrite Hres, Hok. reflexivity.
Qed.

Lemma revert_added_file
  (owner name token parentSha : string) (file : ChangedFile)
  (filesReverted : list string) (w w1 w2 : World) (cur del : Response) :
  file_status file = "added" ->
  respond (get (file_url owner name file) token) w = (cur, w1) ->
  ok cur = true ->
  respond (delete_request owner name token file (data cur)) w1 = (del, w2) ->
  revert_file owner name token parentSha file filesReverted w
    = (Value (filesReverted ++ [ filename file ]), w2,
       [ Call (get (file_url owner name file) token) cur;
         Call (delete_request owner name token file (data cur)) del ]).
Proof.
  intros Hstatus Hcur Hok Hdel. apply String.eqb_eq in Hstatus.
  unfold revert_file, try_catch. rewrite Hstatus.
  unfold bind, fetch, ret. rewrite Hcur, Hok, Hdel. reflexivity.
Qed.

(** The run of the handler on a commit that names a parent. *)
Lemma serve_with_parent
  (req : HttpRequest) (sha owner name token parentSha : string)
  (w w1 : World) (commitRes : Response) :
  http_method req <> "OPTIONS" ->
  asks (http_json req) sha owner name token ->
  respond (get (commit_url owner name sha) token) w = (commitRes, w1) ->
  ok commitRes = true ->
  parent_sha (data commitRes) = Some parentSha -> parentSha <> "" ->
  serve req w
  = (match outcome (revert_files owner name token parentSha
                      (files_of (data commitRes)) [] w1) with
     | Value paths => Value (json (Reverted paths))
     | Throw e => Value {| reply_status := 500;
                           reply_body := Failure (match e with
                                                  | Error m => m
                                                  | Thrown _ _ => "Unknown error"
                                                  end) |}
     end,
     world_after (revert_files owner name token parentSha
                    (files_of (data commitRes)) [] w1),
     Call (get (commit_url owner name sha) token) commitRes
       :: trace (revert_files owner name token parentSha
                   (files_of (data commitRes)) [] w1)).
Proof.
  intros Hmethod Hasks Hres Hok Hparent Hne.
  apply String.eqb_neq in Hmethod. apply String.eqb_neq in Hne.
  destruct (asks_truthy Hasks) as [T1 [T2 [T3 [T4 [E1 [E2 [E3 E4]]]]]]].
  unfold serve. rewrite Hmethod. unfold try_catch, handle.
  rewrite T1, T2, T3, T4, E1, E2, E3, E4. simpl.
  unfold bind at 1, fetch at 1. rewrite Hres, Hok. simpl.
  rewrite Hparent. unfold Js.truthy, Js.or_else. rewrite Hne. simpl.
  unfold bind.
  destruct (revert_files owner name token parentSha
              (files_of (data commitRes)) [] w1) as [[[paths | e] w2] t2];
    simpl; rewrite ?app_nil_r; reflexivity.
Qed.

(** X23.  The answer to a delete or to a write is not looked at: for a
    commit that added one file, whose current revision is read with success,
    the handler reports the file as reverted even when the delete was
    refused. *)
Theorem refused_delete_is_reported
  (req : HttpRequest) (sha owner name token parentSha : string)
  (file : ChangedFile) (w w1 w2 w3 : World) (commitRes cur del : Response) :
  http_method req <> "OPTIONS" ->
  asks (http_json req) sha owner name token ->
  respond (get (commit_url owner name sha) token) w = (commitRes, w1) ->
  ok commitRes = true ->
  parent_sha (data commitRes) = Some parentSha -> parentSha <> "" ->
  files (data commitRes) = Some [ file ] ->
  file_status file = "added" ->
  respond (get (file_url owner name file) token) w1 = (cur, w2) ->
  ok cur = true ->
  respond (delete_request owner name token file (data cur)) w2 = (del, w3) ->
  ok del = false ->
  serve req w
    = (Value (json (Reverted [ filename file ])), w3,
       [ Call (get (commit_url owner name sha) token) commitRes;
         Call (get (file_url owner name file) token) cur;
         Call (delete_request owner name token file (data cur)) del ]).
Proof.
  intros Hmethod Hasks Hres Hok Hparent Hne Hfiles Hstatus Hcur Hokc Hdel _.
  rewrite (@serve_with_parent req sha owner name token parentSha w w1
             commitRes Hmethod Hasks Hres Hok Hparent Hne).
  unfold files_of. rewrite Hfiles. cbn [revert_files]. unfold bind.
  rewrite (@revert_added_file owner name token parentSha file [] w1 w2 w3
             cur del Hstatus Hcur Hokc Hdel).
  reflexivity.
Qed.

Lemma all_reverted owner name token parentSha fs blocks :
  Forall2 (fun file block =>
             reverts owner name token parentSha file (fst block) (snd block))
    fs blocks ->
  (forall rq res,
     In (Call rq res) (concat (map fst blocks)) -> method rq = GET ->
     ok res = true /\ data_content (data res) <> None) ->
  concat (map snd blocks) = map filename fs.
Proof.
  induction 1 as [| file block fs blocks Hblock _ IH]; intros Hreads;
    [reflexivity |].
  simpl. rewrite IH.
  2:{ intros rq res Hin. apply Hreads. simpl. apply in_or_app. right.
      exact Hin. }
  assert (Hhere : forall rq res,
    In (Call rq res) (fst block) -> method rq = GET ->
    ok res = true /\ data_content (data res) <> None).
  { intros rq res Hin. apply Hreads. simpl. apply in_or_app. left.
    exact Hin. }
  clear Hreads IH.
  destruct Hblock as [cur del Hs Hok | cur Hs Hok | par cur put c Hs Hp Hc Hd
    | par Hs Hok | par cur Hs Hp Hok | par cur Hs Hp Hc Hd];
    try reflexivity; exfalso.
  - destruct (Hhere _ cur (or_introl eq_refl) eq_refl) as [Habs _].
    congruence.
  - destruct (Hhere _ par (or_introl eq_refl) eq_refl) as [Habs _].
    congruence.
  - destruct (Hhere _ cur (or_intror (or_introl eq_refl)) eq_refl)
      as [Habs _].
    congruence.
  - destruct (Hhere _ par (or_introl eq_refl) eq_refl) as [_ Habs].
    congruence.
Qed.

(** X24.  When the commit names a parent and every read that follows the
    read of the commit is answered with success and carries a content, every
    file of the commit is reported as reverted, in the order of the
    commit. *)
Theorem readable_files_are_all_reverted
  (req : HttpRequest) (sha owner name token parentSha : string)
  (w w1 : World) (commitRes : Response) :
  http_method req <> "OPTIONS" ->
  asks (http_json req) sha owner name token ->
  respond (get (commit_url owner name sha) token) w = (commitRes, w1) ->
  ok commitRes = true ->
  parent_sha (data commitRes) = Some parentSha -> parentSha <> "" ->
  (forall rq res,
     In (Call rq res) (tl (trace (serve req w))) -> method rq = GET ->
     ok res = true /\ data_content (data res) <> None) ->
  outcome (serve req w)
    = Value (json (Reverted (map filename (files_of (data commitRes))))).
Proof.
  intros Hmethod Hasks Hres Hok Hparent Hne Hreads.
  rewrite (@serve_with_parent req sha owner name token parentSha w w1
             commitRes Hmethod Hasks Hres Hok Hparent Hne) in Hreads |- *.
  destruct (revert_files_reverts owner name token parentSha
              (files_of (data commitRes)) [] w1)
    as [w2 [blocks [Hloop Hall]]].
  rewrite Hloop in Hreads |- *. unfold outcome, trace in *. simpl in *.
  rewrite (all_reverted Hall Hreads). reflexivity.
Qed.

End EveryRun.


Lemma incomplete_undo_request_makes_no_call_witness :
  @serve plain
    {| http_method := "POST";
       http_json := {| commit_sha := Some "c1"; repo_owner := Some "o";
                       repo_name := Some "r"; github_token := Some "" |} |}
    [ Script.refused 404 ]
    = (Value {| reply_status := 500;
                reply_body := Failure "Missing required parameters" |},
       [ Script.refused 404 ], []).
Proof.
  apply (@incomplete_undo_request_makes_no_call plain).
  - discriminate.
  - right. right. right. reflexivity.
Defined.

Lemma unreadable_commit_ends_the_undo_witness :
  @serve plain (undo "c1") [ Script.refused 404 ]
    = (Value {| reply_status := 500;
                reply_body := Failure "Could not fetch commit details" |},
       [], [ Call (get (commit_url "o" "r" "c1") "t") (Script.refused 404) ]).
Proof.
  apply (@unreadable_commit_ends_the_undo plain (undo "c1") "c1" "o" "r" "t").
  - discriminate.
  - repeat split; discriminate.
  - reflexivity.
  - reflexivity.
Defined.

Lemma refused_delete_is_reported_witness :
  @serve plain (undo "c1")
    [ Script.commit (Some "p0")
        [ {| filename := "new.ts"; file_status := "added" |} ];
      Script.file "new.ts" "bGV0IG47" "s1"; Script.refused 409 ]
    = (Value (json (Reverted [ "new.ts" ])), [],
       [ Call (get (commit_url "o" "r" "c1") "t")
           (Script.commit (Some "p0")
              [ {| filename := "new.ts"; file_status := "added" |} ]);
         Call (get (file_url "o" "r"
                      {| filename := "new.ts"; file_status := "added" |}) "t")
           (Script.file "new.ts" "bGV0IG47" "s1");
         Call (delete_request "o" "r" "t"
                 {| filename := "new.ts"; file_status := "added" |}
                 (data (Script.file "new.ts" "bGV0IG47" "s1")))
           (Script.refused 409) ]).
Proof.
  apply (@refused_delete_is_reported plain (undo "c1") "c1" "o" "r" "t" "p0"
           {| filename := "new.ts"; file_status := "added" |}
           [ Script.commit (Some "p0")
               [ {| filename := "new.ts"; file_status := "added" |} ];
             Script.file "new.ts" "bGV0IG47" "s1"; Script.refused 409 ]
           [ Script.file "new.ts" "bGV0IG47" "s1"; Script.refused 409 ]
           [ Script.refused 409 ] []
           (Script.commit (Some "p0")
              [ {| filename := "new.ts"; file_status := "added" |} ])
           (Script.file "new.ts" "bGV0IG47" "s1") (Script.refused 409));
    try reflexivity.
  - discriminate.
  - repeat split; discriminate.
  - discriminate.
Defined.

Lemma readable_files_are_all_reverted_witness :
  outcome (@serve plain (undo "c1") added_and_modified)
    = Value (json (Reverted [ "new.ts"; "app.ts" ])).
Proof.
  apply (@readable_files_are_all_reverted plain (undo "c1") "c1" "o" "r" "t"
           "p0" added_and_modified (tl added_and_modified)
           (Script.commit (Some "p0")
              [ {| filename := "new.ts"; file_status := "added" |};
                {| filename := "app.ts"; file_status := "modified" |} ])).
  - discriminate.
  - repeat split; discriminate.
  - reflexivity.
  - reflexivity.
  - reflexivity.
  - discriminate.
  - intros rq res Hin Hget. cbv in Hin.
    repeat (destruct Hin as [Hin | Hin];
            [inversion Hin; subst; clear Hin;
             first [ discriminate Hget
                   | split; [reflexivity | discriminate] ] |]).
    contradiction.
Defined.

End UndoRuns.

(** ** The code agent with the key of the user: every run *)

Module UserAgentRuns.
Import CodeAgent Backend UserAgent.

Section UserRuns.
Context `{Platform}.

Variable profile_of : string -> option Profile.

(** The configuration of the adapter for the user of a request. *)
Definition config_of (input : Input) : AiConfig :=
  getAiConfig
    (Js.or_else (provider_of (profile_of (user_id input))) "gemini")
    (Js.or_else (key_of (profile_of (user_id input))) "").

Definition intent_messages (input : Input) : list ChatMessage :=
  [ Msg "system" IntentRules; Msg "user" (Text (message (base input))) ].

Definition intent_call (input : Input) : Request :=
  primary_request (config_of input) (intentModel (config_of input))
    (intent_messages input) 0 (Some 10).

(** X25.  A user whose profile holds no key of a generation backend is
    answered with status 400 and the message that asks to configure one; no
    call is made, neither to a backend nor to the repository. *)
Theorem user_without_key_is_turned_away (req : HttpRequest) (w : World) :
  http_method req <> "OPTIONS" ->
  Js.truthy (key_of (profile_of (user_id (http_json req)))) = false ->
  serve profile_of req w
    = (Value (failure 400
         "Configure sua chave API de IA no perfil antes de usar o agente."),
       w, []).
Proof.
  intros Hmethod Hkey. apply String.eqb_neq in Hmethod.
  unfold serve. rewrite Hmethod. unfold try_catch, handle. rewrite Hkey.
  reflexivity.
Qed.

(** X26.  When the backend of the user refuses the key (status 401 or 403)
    at the first call, the handler answers with status 401, not 500, and the
    message that the key is invalid; the run is that one call. *)
Theorem invalid_user_key_is_answered_401
  (req : HttpRequest) (w w1 : World) (res : Response) :
  http_method req <> "OPTIONS" ->
  Js.truthy (key_of (profile_of (user_id (http_json req)))) = true ->
  respond (intent_call (http_json req)) w = (res, w1) ->
  ok res = false ->
  status res = 401 \/ status res = 403 ->
  serve profile_of req w
    = (Value (failure 401
         "Erro: Chave API inválida. Verifique nas configurações do perfil."),
       w1, [ Call (intent_call (http_json req)) res ]).
Proof.
  intros Hmethod Hkey Hres Hok Hstatus. apply String.eqb_neq in Hmethod.
  assert (Hlimit : (status res =? 429) = false).
  { apply Z.eqb_neq. destruct Hstatus as [-> | ->]; discriminate. }
  assert (Hrefused : (status res =? 401) || (status res =? 403) = true).
  { destruct Hstatus as [-> | ->]; reflexivity. }
  unfold serve. rewrite Hmethod. unfold try_catch, handle. rewrite Hkey.
  cbn [negb]. fold (config_of (http_json req)).
  fold (intent_messages (http_json req)).
  unfold bind, callAi. change (Z.to_nat maxRetries) with 3%nat.
  unfold intent_call in Hres.
  rewrite (BackendRuns.callAi_from_turn _ _ _ _ _ 2 0 w eq_refl Hres).
  rewrite Hok, Hlimit, Hrefused. reflexivity.
Qed.

Lemma quiet_user_chat_mode aiConfig rq : quiet (chat_mode aiConfig rq).
Proof.
  unfold chat_mode.
  apply quiet_bind; [apply BackendRuns.quiet_callAi |].
  intros chatData. apply quiet_ret.
Qed.

Lemma quiet_user_plan aiConfig rq : quiet (plan aiConfig rq).
Proof.
  unfold plan.
  apply quiet_bind; [apply CodeAgentFacts.quiet_getDefaultBranch |].
  intros branch.
  apply quiet_bind; [apply CodeAgentFacts.quiet_getRepoTree |].
  intros tree.
  apply quiet_bind; [apply BackendRuns.quiet_callAi |].
  intros selData.
  apply quiet_bind; [apply CodeAgentFacts.quiet_load_files |].
  intros fileContents.
  apply quiet_bind; [apply BackendRuns.quiet_callAi |].
  intros codeData. destruct (parse_change_set _); apply quiet_ret.
Qed.

(** X27.  For change sets of the shape the generator is asked for, each
    path and each content a string or absent, which is what [Change] holds:
    in every run of the handler, whatever the profile, the backends and the
    repository answer, each write call is a PUT of a change that has a path
    and a content and that passed the safety check; no delete is ever issued.
    A change whose path is not a string is outside this statement. *)
Theorem user_agent_only_writes_checked_changes
  (req : HttpRequest) (w : World) :
  Forall (CodeAgentRuns.safe_write (base (http_json req)))
    (writes (trace (serve profile_of req w))).
Proof.
  revert w.
  change (CodeAgentRuns.only
            (CodeAgentRuns.safe_write (base (http_json req)))
            (serve profile_of req)).
  unfold serve. destruct (http_method req =? "OPTIONS")%string;
    [apply CodeAgentRuns.only_quiet; apply quiet_ret |].
  apply CodeAgentRuns.only_try_catch;
    [| intros e; apply CodeAgentRuns.only_quiet; apply quiet_ret].
  unfold handle.
  destruct (negb (Js.truthy (key_of (profile_of (user_id (http_json req))))));
    [apply CodeAgentRuns.only_quiet; apply quiet_ret |].
  apply CodeAgentRuns.only_bind;
    [apply CodeAgentRuns.only_quiet; apply BackendRuns.quiet_callAi |].
  intros intentData. destruct (negb (intent_of intentData =? "code")%string);
    [apply CodeAgentRuns.only_quiet; apply quiet_user_chat_mode |].
  unfold code_mode.
  apply CodeAgentRuns.only_bind;
    [apply CodeAgentRuns.only_quiet; apply quiet_user_plan |].
  intros [reply | [branch parsed]];
    [apply CodeAgentRuns.only_quiet; apply quiet_ret
    | apply CodeAgentRuns.only_apply_change_set].
Qed.


End UserRuns.

(** Profiles: a user with a key, and none. *)
Definition with_key (user : string) : option Profile :=
  Some {| ai_provider := Some "openai"; ai_api_key := Some "sk-user" |}.

Definition nobody (user : string) : option Profile := None.

Definition user_post (text : string) : HttpRequest :=
  {| http_method := "POST";
     http_json := {| base := CodeAgentFacts.ask text; user_id := "u1" |} |}.

Lemma user_without_key_is_turned_away_witness :
  @serve CodeAgentFacts.chatty nobody (user_post "oi") [ Script.says "chat" ]
    = (Value (failure 400
         "Configure sua chave API de IA no perfil antes de usar o agente."),
       [ Script.says "chat" ], []).
Proof.
  apply (@user_without_key_is_turned_away CodeAgentFacts.chatty nobody
           (user_post "oi") [ Script.says "chat" ]).
  - discriminate.
  - reflexivity.
Defined.

Lemma invalid_user_key_is_answered_401_witness :
  @serve CodeAgentFacts.chatty with_key (user_post "oi")
    [ Script.refused 403; Script.says "chat" ]
    = (Value (failure 401
         "Erro: Chave API inválida. Verifique nas configurações do perfil."),
       [ Script.says "chat" ],
       [ Call (@intent_call with_key (http_json (user_post "oi")))
           (Script.refused 403) ]).
Proof.
  apply (@invalid_user_key_is_answered_401 CodeAgentFacts.chatty with_key
           (user_post "oi") [ Script.refused 403; Script.says "chat" ]
           [ Script.says "chat" ] (Script.refused 403)).
  - discriminate.
  - reflexivity.
  - reflexivity.
  - reflexivity.
  - right. reflexivity.
Defined.


End UserAgentRuns.
